(** * claude-slack-approver: the approval hook and the chat daemon

    A shallow embedding of the two scripts of the repository,
    [claude-slack-approver.py] and [claude-slack-daemon.py], and the
    properties their specification states about them.

    Conventions of the embedding.
    - A Python [str] is a [string]; a character is read as the code point
      of the same number (0..255).
    - Files, the clock and the Slack API are explicit inputs: a function
      that reads one of them takes what it read as an argument.
    - A loop with an early [return] is a recursive function that yields
      [Some v] when the body returned [v]. *)

From Stdlib Require Import ZArith QArith Lqa Lia Bool List Ascii String.
From stdpp Require Import gmap strings list fin_maps.
Import ListNotations.

Local Open Scope string_scope.
Local Open Scope list_scope.

(* ===================================================================== *)
(** ** Python string operations *)
(* ===================================================================== *)

Module Str.

(** [str.isspace] on one character, which is also the class [\s] of
    [re] on [str] patterns: TAB..CR, FS..US, SPACE, NEL and NBSP are
    the whitespace code points below 256. *)
Definition is_space (c : ascii) : bool :=
  let n := nat_of_ascii c in
  (((9 <=? n) && (n <=? 13)) || ((28 <=? n) && (n <=? 32))
   || (n =? 133) || (n =? 160))%nat.

(** [str.lower] on one character: A..Z and the upper-case letters of
    Latin-1 (all of 0xC0..0xDE but the multiplication sign 0xD7). *)
Definition lower_char (c : ascii) : ascii :=
  let n := nat_of_ascii c in
  if (((65 <=? n) && (n <=? 90))
      || ((192 <=? n) && (n <=? 222) && negb (n =? 215)))%nat
  then ascii_of_nat (n + 32) else c.

Fixpoint lower (s : string) : string :=
  match s with
  | EmptyString => EmptyString
  | String c r => String (lower_char c) (lower r)
  end.

Fixpoint lstrip (s : string) : string :=
  match s with
  | EmptyString => EmptyString
  | String c r => if is_space c then lstrip r else s
  end.

Fixpoint rstrip (s : string) : string :=
  match s with
  | EmptyString => EmptyString
  | String c r =>
      match rstrip r with
      | EmptyString => if is_space c then EmptyString else String c EmptyString
      | r' => String c r'
      end
  end.

(** [s.strip()] *)
Definition strip (s : string) : string := lstrip (rstrip s).

(** [s.startswith(p)] *)
Definition startswith (s p : string) : bool := String.prefix p s.

(** A string is truthy when it is not empty. *)
Definition truthy (s : string) : bool := negb (String.eqb s "").

(** [p in s] *)
Fixpoint contains (p s : string) : bool :=
  String.prefix p s
  || match s with
     | EmptyString => false
     | String _ r => contains p r
     end.

(** [s.replace(old, new)] for a non-empty [old]: occurrences are
    replaced from the left and do not overlap.  [skip] counts the
    characters of an occurrence that are still to be passed over. *)
Fixpoint replace_from (old new : string) (skip : nat) (s : string) : string :=
  match s with
  | EmptyString => EmptyString
  | String c r =>
      match skip with
      | S k => replace_from old new k r
      | O =>
          if String.prefix old s
          then new +:+ replace_from old new (String.length old - 1) r
          else String c (replace_from old new 0 r)
      end
  end.

Definition replace (s old new : string) : string := replace_from old new 0 s.

(** [s[:n]] *)
Definition take (n : nat) (s : string) : string := String.substring 0 n s.

(** [s[n:]] *)
Fixpoint drop (n : nat) (s : string) : string :=
  match n, s with
  | O, _ => s
  | S k, String _ r => drop k r
  | S _, EmptyString => EmptyString
  end.

End Str.

(** [d.get(key, default)] on a JSON object: a key that is absent is
    [None]. *)
Definition get {A} (field : option A) (default : A) : A :=
  match field with
  | Some v => v
  | None => default
  end.

(* ===================================================================== *)
(** ** The approval hook: command classification *)
(* ===================================================================== *)

(** [re.search] is the one operation of the [re] module the classifier
    applies to patterns that come from the rules file.  A [regex] is a
    pattern that compiles; [re_search p s] says whether [re.search(p, s)]
    finds a match. *)
Class RegexEngine := {
  regex : Type;
  re_search : regex -> string -> bool
}.

Module Classifier.

Inductive verdict := Safe | Risky | Deny.

Definition verdict_eq_dec (a b : verdict) : {a = b} + {a <> b}.
Proof. decide equality. Defined.

Section WithEngine.
Context {engine : RegexEngine}.

(** One of the objects under the keys "deny", "risky" and "safe" of
    command-rules.json.  A key that is absent is [None]. *)
Record rule_section := {
  prefixes : option (list string);
  patterns : option (list regex)
}.

Record command_rules := {
  deny : option rule_section;
  risky : option rule_section;
  safe : option rule_section
}.

(** What [json.load] returns on a rules file: [null] or a rules
    object. *)
Inductive json_doc :=
| JsonNull
| JsonRules (rules : command_rules).

(** The rules file as [load_command_rules] finds it. *)
Inductive rules_file :=
| NoRulesFile                   (* os.path.isfile(RULES_FILE) is false *)
| InvalidJson                   (* json.load raises JSONDecodeError or ValueError *)
| RulesDocument (doc : json_doc).

Definition empty_section : rule_section :=
  {| prefixes := None; patterns := None |}.

Definition load_command_rules (f : rules_file) : option command_rules :=
  match f with
  | NoRulesFile => None
  | InvalidJson => None
  | RulesDocument JsonNull => None
  | RulesDocument (JsonRules rules) => Some rules
  end.

(** The operators of [re.split(r'\s*(?:&&|\|\||[;|])\s*', cmd)].
    The leftmost match starts at the first operator, and at an
    operator character the alternatives are tried in the order
    [&&], [||], [;] or [|]: a lone [&] is an ordinary character.
    [split_ops] cuts the string at the operators. *)
Definition is_amp (c : ascii) : bool := Ascii.eqb c "&".
Definition is_bar (c : ascii) : bool := Ascii.eqb c "|".
Definition is_semi (c : ascii) : bool := Ascii.eqb c ";".

Definition cons_char (c : ascii) (pieces : list string) : list string :=
  match pieces with
  | [] => [String c EmptyString]
  | p :: ps => String c p :: ps
  end.

Fixpoint split_ops (s : string) : list string :=
  match s with
  | EmptyString => [EmptyString]
  | String c r =>
      match r with
      | String d r' =>
          if (is_amp c && is_amp d) || (is_bar c && is_bar d)
          then EmptyString :: split_ops r'
          else if is_semi c || is_bar c
               then EmptyString :: split_ops r
               else cons_char c (split_ops r)
      | EmptyString =>
          if is_semi c || is_bar c
          then EmptyString :: split_ops r
          else cons_char c (split_ops r)
      end
  end.

(** The two [\s*] of the pattern are greedy: a match takes the
    whitespace before its operator and the whitespace after it, so
    a piece that follows an operator loses its leading whitespace
    and a piece that precedes one loses its trailing whitespace. *)
Fixpoint trim_following (pieces : list string) : list string :=
  match pieces with
  | [] => []
  | [p] => [Str.lstrip p]
  | p :: rest => Str.rstrip (Str.lstrip p) :: trim_following rest
  end.

Definition re_split (s : string) : list string :=
  match split_ops s with
  | [] => []
  | [p] => [p]
  | p :: rest => Str.rstrip p :: trim_following rest
  end.

(** [[s.strip() for s in segments if s.strip()]] *)
Definition _split_chained_commands (cmd : string) : list string :=
  let segments := re_split cmd in
  map Str.strip (filter (fun s => Str.truthy (Str.strip s)) segments).

(** [for x in items: if test(x): return v] *)
Fixpoint for_return {A R} (items : list A) (test : A -> bool) (v : R)
  : option R :=
  match items with
  | [] => None
  | x :: rest => if test x then Some v else for_return rest test v
  end.

(** [cmd_stripped == prefix or cmd_stripped.startswith(prefix + " ")] *)
Definition has_prefix (cmd_stripped prefix : string) : bool :=
  String.eqb cmd_stripped prefix
  || Str.startswith cmd_stripped (prefix +:+ " ").

Definition _classify_single (cmd : string) (rules : command_rules) : verdict :=
  let cmd_stripped := Str.strip cmd in
  (* Check deny patterns first *)
  match for_return (get (patterns (get (deny rules) empty_section)) [])
          (fun pattern => re_search pattern cmd_stripped) Deny with
  | Some v => v
  | None =>
  (* Check risky prefixes *)
  match for_return (get (prefixes (get (risky rules) empty_section)) [])
          (fun prefix => has_prefix cmd_stripped prefix) Risky with
  | Some v => v
  | None =>
  (* Check risky patterns *)
  match for_return (get (patterns (get (risky rules) empty_section)) [])
          (fun pattern => re_search pattern cmd_stripped) Risky with
  | Some v => v
  | None =>
  (* Check safe prefixes *)
  match for_return (get (prefixes (get (safe rules) empty_section)) [])
          (fun prefix => has_prefix cmd_stripped prefix) Safe with
  | Some v => v
  | None =>
  (* Default: risky *)
  Risky
  end end end end.

(** The loop of [classify_command].  Next to the verdict it yields
    the segments it passed to [_classify_single], in order. *)
Fixpoint classify_segments (segments : list string) (worst : verdict)
  (rules : command_rules) : verdict * list string :=
  match segments with
  | [] => (worst, [])
  | segment :: rest =>
      let rating := _classify_single segment rules in
      match rating with
      | Deny => (Deny, [segment])
      | Risky =>
          let '(v, scored) := classify_segments rest Risky rules in
          (v, segment :: scored)
      | Safe =>
          let '(v, scored) := classify_segments rest worst rules in
          (v, segment :: scored)
      end
  end.

Definition classify_run (f : rules_file) (cmd : string)
  : verdict * list string :=
  match load_command_rules f with
  | None => (Risky, [])
  | Some rules => classify_segments (_split_chained_commands cmd) Safe rules
  end.

Definition classify_command (f : rules_file) (cmd : string) : verdict :=
  fst (classify_run f cmd).

(** The segments [classify_command] scored. *)
Definition scored_segments (f : rules_file) (cmd : string) : list string :=
  snd (classify_run f cmd).

(** *** The order of the checks, in the words of the specification *)

Definition deny_patterns (rules : command_rules) : list regex :=
  get (patterns (get (deny rules) empty_section)) [].
Definition risky_prefixes (rules : command_rules) : list string :=
  get (prefixes (get (risky rules) empty_section)) [].
Definition risky_patterns (rules : command_rules) : list regex :=
  get (patterns (get (risky rules) empty_section)) [].
Definition safe_prefixes (rules : command_rules) : list string :=
  get (prefixes (get (safe rules) empty_section)) [].

(** Some pattern of the list matches somewhere in the segment. *)
Definition matches_some (ps : list regex) (s : string) : Prop :=
  exists p, In p ps /\ re_search p s = true.

(** The segment equals a prefix of the list, or begins with it
    followed by a space. *)
Definition begins_with_some (prefixes : list string) (s : string) : Prop :=
  exists p, In p prefixes /\ (s = p \/ exists rest, s = p +:+ " " +:+ rest).

Inductive classification_order (rules : command_rules) (s : string)
  : verdict -> Prop :=
| order_deny :
    matches_some (deny_patterns rules) s ->
    classification_order rules s Deny
| order_risky_prefix :
    ~ matches_some (deny_patterns rules) s ->
    begins_with_some (risky_prefixes rules) s ->
    classification_order rules s Risky
| order_risky_pattern :
    ~ matches_some (deny_patterns rules) s ->
    ~ begins_with_some (risky_prefixes rules) s ->
    matches_some (risky_patterns rules) s ->
    classification_order rules s Risky
| order_safe_prefix :
    ~ matches_some (deny_patterns rules) s ->
    ~ begins_with_some (risky_prefixes rules) s ->
    ~ matches_some (risky_patterns rules) s ->
    begins_with_some (safe_prefixes rules) s ->
    classification_order rules s Safe
| order_default :
    ~ matches_some (deny_patterns rules) s ->
    ~ begins_with_some (risky_prefixes rules) s ->
    ~ matches_some (risky_patterns rules) s ->
    ~ begins_with_some (safe_prefixes rules) s ->
    classification_order rules s Risky.

(** The rules with other patterns under "safe". *)
Definition with_safe_patterns (ps : option (list regex))
  (rules : command_rules) : command_rules :=
  {| deny := deny rules;
     risky := risky rules;
     safe := Some {| prefixes := prefixes (get (safe rules) empty_section);
                     patterns := ps |} |}.

End WithEngine.

End Classifier.

(** A regex engine for patterns without metacharacters: such a pattern
    matches where it occurs literally. *)
Definition literal_engine : RegexEngine :=
  {| regex := string; re_search := Str.contains |}.

(** A small rules file over literal patterns. *)
Module Samples.
Import Classifier.
#[local] Existing Instance literal_engine.

Definition sample_rules : command_rules :=
  {| deny := Some {| prefixes := None; patterns := Some ["rm -rf"] |};
     risky := Some {| prefixes := Some ["git push"];
                      patterns := Some ["--force"] |};
     safe := Some {| prefixes := Some ["git status"; "ls"];
                     patterns := None |} |}.

Definition sample_file : rules_file :=
  RulesDocument (JsonRules sample_rules).

End Samples.

(* ===================================================================== *)
(** ** The approval hook: the two decision channels *)
(* ===================================================================== *)

Module Approval.

Definition POLL_INTERVAL : Q := 2.     (* seconds between polls *)
Definition TIMEOUT : Q := 300.         (* 5 minutes total *)

Definition APPROVE_REACTIONS : list string := ["+1"; "thumbsup"].
Definition DENY_REACTIONS : list string := ["-1"; "thumbsdown"].

Definition APPROVE_KEYWORDS : list string :=
  ["ok"; "okay"; "approve"; "approved"; "lgtm"; "yes"; "go ahead"; "go";
   "yep"; "yup"; "sure"; "do it"; "proceed"; "ship it"; "y"].

Definition FOOTER_TEXT : string :=
  ":thumbsup: = approve | :thumbsdown: = deny | _Reply in thread with feedback_".

(** The strings "allow" and "deny" of the two checks. *)
Inductive decision := Allow | Deny.

(** [x in xs] for a set of strings *)
Definition mem (x : string) (xs : list string) : bool :=
  existsb (String.eqb x) xs.

(** *** Reactions *)

Record reaction := { name : option string }.

(** The answer of reactions.get: [resp.get("ok")] and
    [resp.get("message", {}).get("reactions", [])]. *)
Record reactions_resp := {
  reactions_ok : bool;
  reactions : list reaction
}.

(** [name.split("::")[0]] *)
Fixpoint before_colons (s : string) : string :=
  match s with
  | EmptyString => EmptyString
  | String c r =>
      if String.prefix "::" s then EmptyString else String c (before_colons r)
  end.

Fixpoint scan_reactions (rs : list reaction) : option decision :=
  match rs with
  | [] => None
  | r :: rest =>
      let name := before_colons (get (name r) "") in
      if mem name APPROVE_REACTIONS then Some Allow
      else if mem name DENY_REACTIONS then Some Deny
      else scan_reactions rest
  end.

Definition check_reactions (resp : reactions_resp) : option decision :=
  if negb (reactions_ok resp) then None
  else scan_reactions (reactions resp).

(** *** Thread replies *)

(** One message of conversations.replies, with the three keys the
    check reads. *)
Record message := {
  user : option string;
  subtype : option string;
  text : option string
}.

Record replies_resp := {
  replies_ok : bool;
  messages : list message
}.

(** [text_lower == keyword or text_lower.startswith(keyword + " ")
     or text_lower.startswith(keyword + ",")] *)
Definition keyword_hit (text_lower keyword : string) : bool :=
  String.eqb text_lower keyword
  || Str.startswith text_lower (keyword +:+ " ")
  || Str.startswith text_lower (keyword +:+ ",").

(** [for keyword in APPROVE_KEYWORDS: if ...: return "allow", text] *)
Fixpoint scan_keywords (keywords : list string) (text_lower : string) : bool :=
  match keywords with
  | [] => false
  | keyword :: rest =>
      if keyword_hit text_lower keyword then true
      else scan_keywords rest text_lower
  end.

(** [bot_user_id and user == bot_user_id] *)
Definition is_bot_user (bot_user_id : option string) (user : string) : bool :=
  match bot_user_id with
  | Some b => Str.truthy b && String.eqb user b
  | None => false
  end.

(** [msg.get("subtype") == "bot_message"] *)
Definition is_bot_message (m : message) : bool :=
  match subtype m with
  | Some t => String.eqb t "bot_message"
  | None => false
  end.

(** The loop over [messages[1:]]. *)
Fixpoint scan_replies (msgs : list message) (bot_user_id : option string)
  : option decision * option string :=
  match msgs with
  | [] => (None, None)
  | msg :: rest =>
      let user := get (user msg) "" in
      (* Skip bot's own replies *)
      if is_bot_user bot_user_id user then scan_replies rest bot_user_id
      (* Skip bot messages (subtype check) *)
      else if is_bot_message msg then scan_replies rest bot_user_id
      else
        let text := Str.strip (get (text msg) "") in
        if negb (Str.truthy text) then scan_replies rest bot_user_id
        else
          (* Check if the reply is an approval *)
          let text_lower := Str.strip (Str.lower text) in
          if scan_keywords APPROVE_KEYWORDS text_lower
          then (Some Allow, Some text)
          (* Any other text = deny with feedback *)
          else (Some Deny, Some text)
  end.

Definition check_thread_replies (resp : replies_resp)
  (bot_user_id : option string) : option decision * option string :=
  if negb (replies_ok resp) then (None, None)
  else scan_replies (tl (messages resp)) bot_user_id.

(** *** The reply check, in the words of the specification *)

(** The text of a reply is its text without the surrounding
    whitespace, the [text] of the loop. *)
Definition reply_text (m : message) : string := Str.strip (get (text m) "").

(** The reply is the bot's own. *)
Definition own_reply (bot_user_id : option string) (m : message) : Prop :=
  exists b, bot_user_id = Some b /\ b <> "" /\ get (user m) "" = b.

(** The reply has the bot subtype. *)
Definition bot_subtype (m : message) : Prop := subtype m = Some "bot_message".

(** The replies that are passed over. *)
Definition skipped (bot_user_id : option string) (m : message) : Prop :=
  own_reply bot_user_id m \/ bot_subtype m \/ reply_text m = "".

(** The text equals an affirmative keyword, case ignored, or starts with
    one that a space or a comma follows. *)
Definition affirmative (t : string) : Prop :=
  exists k, In k APPROVE_KEYWORDS
    /\ (Str.lower t = k
        \/ (exists rest, Str.lower t = k +:+ " " +:+ rest)
        \/ (exists rest, Str.lower t = k +:+ "," +:+ rest)).

(** The decision on the replies that follow the request: the first reply
    that is not passed over decides. *)
Inductive reply_decision (bot_user_id : option string)
  : list message -> option decision * option string -> Prop :=
| decision_none (replies : list message) :
    Forall (skipped bot_user_id) replies ->
    reply_decision bot_user_id replies (None, None)
| decision_allow (pre post : list message) (m : message) :
    Forall (skipped bot_user_id) pre ->
    ~ skipped bot_user_id m ->
    affirmative (reply_text m) ->
    reply_decision bot_user_id (pre ++ m :: post)
      (Some Allow, Some (reply_text m))
| decision_deny (pre post : list message) (m : message) :
    Forall (skipped bot_user_id) pre ->
    ~ skipped bot_user_id m ->
    ~ affirmative (reply_text m) ->
    reply_decision bot_user_id (pre ++ m :: post)
      (Some Deny, Some (reply_text m)).

(** *** The session: post, poll, resolve *)

(** The pending file.  [save_pending] also writes the channel and the
    time; [msg_ts] and [original_text] are the keys that are read
    back. *)
Record pending_info := {
  msg_ts : string;
  original_text : string
}.

(** What the hook does to the outside, in order. *)
Inductive event :=
| PostMessage (text : string) (thread_ts : option string)
| SavePending (p : pending_info)
| Sleep (seconds : Q)
| UpdateMessage (ts text : string)
| ClearPending
| PrintDecision (d : decision) (reason : string)
| Exit (code : Z).

Record hook_state := {
  pending_file : option pending_info;
  log : list event
}.

Definition emit (e : event) (st : hook_state) : hook_state :=
  {| pending_file := pending_file st; log := log st ++ [e] |}.

Definition save_pending (ts original : string) (st : hook_state) : hook_state :=
  let p := {| msg_ts := ts; original_text := original |} in
  {| pending_file := Some p; log := log st ++ [SavePending p] |}.

(** [os.unlink], a missing file being no error. *)
Definition clear_pending (st : hook_state) : hook_state :=
  {| pending_file := None; log := log st ++ [ClearPending] |}.

Definition update_message (ts text : string) (st : hook_state) : hook_state :=
  emit (UpdateMessage ts text) st.

(** [print(json.dumps(result)); sys.exit(0)] *)
Definition print_and_exit (d : decision) (reason : string) (st : hook_state)
  : hook_state :=
  emit (Exit 0) (emit (PrintDecision d reason) st).

(** How a run of the hook ends. *)
Inductive outcome :=
| AutoApproved                 (* safe command, nothing posted *)
| Blocked                      (* deny rules, nothing posted *)
| PostFailed                   (* the request could not be posted *)
| Allowed (reason : string)
| Denied (reason : string)
| TimedOut.

(** What the run meets outside.  [lag 0] is the time between reading
    [start] and the first test of the loop condition; [lag (S i)] is
    the time iteration [i] takes on top of its sleep. *)
Record world := {
  post_result : option string;          (* ts of chat.postMessage *)
  bot_user : option string;             (* get_bot_user_id() *)
  reactions_at : nat -> reactions_resp; (* reactions.get in iteration i *)
  replies_at : nat -> replies_resp;     (* conversations.replies, same *)
  lag : nat -> Q
}.

Definition Qltb (a b : Q) : bool := negb (Qle_bool b a).

(** Phase 2: [while time.time() - start < TIMEOUT: ...] and the code
    after the loop.  [i] counts the iterations done and [elapsed] is
    [time.time() - start] at the test of the condition. *)
Fixpoint poll_loop (fuel : nat) (w : world) (ts message_text : string)
  (i : nat) (elapsed : Q) (st : hook_state) : option (outcome * hook_state) :=
  match fuel with
  | O => None
  | S fuel' =>
      if Qltb elapsed TIMEOUT then
        let st := emit (Sleep POLL_INTERVAL) st in
        (* Check emoji reactions first *)
        match check_reactions (reactions_at w i) with
        | Some Allow =>
            let updated := Str.replace message_text FOOTER_TEXT
                             ":white_check_mark: *Approved via Slack*" in
            let st := update_message ts updated st in
            let st := clear_pending st in
            let reason := "Approved via Slack" in
            Some (Allowed reason, print_and_exit Allow reason st)
        | Some Deny =>
            let updated := Str.replace message_text FOOTER_TEXT
                             ":no_entry_sign: *Denied via Slack*" in
            let st := update_message ts updated st in
            let st := clear_pending st in
            let reason := "Denied via Slack" in
            Some (Denied reason, print_and_exit Deny reason st)
        | None =>
            (* Check thread replies for text-based feedback *)
            match check_thread_replies (replies_at w i) (bot_user w) with
            | (Some Allow, reply_text) =>
                let reason :=
                  if Str.truthy (get reply_text "")
                  then "Approved via Slack thread. User feedback: "
                       +:+ get reply_text ""
                  else "Approved via Slack thread" in
                let updated := Str.replace message_text FOOTER_TEXT
                                 ":white_check_mark: *Approved via thread reply*" in
                let st := update_message ts updated st in
                let st := clear_pending st in
                Some (Allowed reason, print_and_exit Allow reason st)
            | (Some Deny, reply_text) =>
                let reason := "User feedback: " +:+ get reply_text "" in
                let updated := Str.replace message_text FOOTER_TEXT
                                 (":speech_balloon: *Denied with feedback:* "
                                  +:+ get reply_text "") in
                let st := update_message ts updated st in
                let st := clear_pending st in
                Some (Denied reason, print_and_exit Deny reason st)
            | (None, _) =>
                poll_loop fuel' w ts message_text (S i)
                  (elapsed + POLL_INTERVAL + lag w (S i))%Q st
            end
        end
      else
        (* Timeout: fall back to terminal prompt (keep pending file) *)
        let updated := Str.replace message_text FOOTER_TEXT
                         ":hourglass: *Waiting for terminal approval...*" in
        let st := update_message ts updated st in
        Some (TimedOut, emit (Exit 0) st)
  end.

(** [main] from "Post the approval request to Slack" on. *)
Definition approval_session (fuel : nat) (w : world)
  (thread_ts : option string) (message_text : string) (st : hook_state)
  : option (outcome * hook_state) :=
  let thread :=
    match thread_ts with
    | Some t => if Str.truthy t then Some t else None
    | None => None
    end in
  let st := emit (PostMessage message_text thread) st in
  match post_result w with
  | None => Some (PostFailed, emit (Exit 0) st)
  | Some ts =>
      if negb (Str.truthy ts) then Some (PostFailed, emit (Exit 0) st)
      else
        let st := save_pending ts message_text st in
        poll_loop fuel w ts message_text 0 (lag w 0) st
  end.

(** *** How a session closes, in the words of the specification *)

(** The session reached one of its three terminal states. *)
Definition terminal (out : outcome) : Prop :=
  match out with
  | Allowed _ | Denied _ | TimedOut => True
  | AutoApproved | Blocked | PostFailed => False
  end.

(** What a session does last: the status update of the posted message
    and, when a decision was made, the clearing of the pending file and
    the decision printed for the caller. *)
Definition closing_events (ts updated : string) (out : outcome) : list event :=
  match out with
  | Allowed reason =>
      [UpdateMessage ts updated; ClearPending; PrintDecision Allow reason; Exit 0]
  | Denied reason =>
      [UpdateMessage ts updated; ClearPending; PrintDecision Deny reason; Exit 0]
  | TimedOut => [UpdateMessage ts updated; Exit 0]
  | AutoApproved | Blocked | PostFailed => []
  end.

(** The pending file after the session: cleared by a decision, kept by
    a timeout. *)
Definition pending_after (out : outcome) (p : option pending_info)
  : option pending_info :=
  match out with
  | Allowed _ | Denied _ => None
  | _ => p
  end.

Definition is_update (ts : string) (e : event) : bool :=
  match e with
  | UpdateMessage ts' _ => String.eqb ts' ts
  | _ => false
  end.

Definition is_clear (e : event) : bool :=
  match e with
  | ClearPending => true
  | _ => false
  end.

(** The number of status updates of message [ts] in a log. *)
Definition updates_of (ts : string) (l : list event) : nat :=
  length (List.filter (is_update ts) l).

(** The number of times the pending file is cleared in a log. *)
Definition clears_of (l : list event) : nat :=
  length (List.filter is_clear l).

(** Neither channel gives a decision in iteration [i]. *)
Definition no_signal (w : world) (i : nat) : Prop :=
  check_reactions (reactions_at w i) = None
  /\ fst (check_thread_replies (replies_at w i) (bot_user w)) = None.

(** The time [k] iterations sleep at least. *)
Fixpoint budget (k : nat) : Q :=
  match k with
  | O => 0
  | S k' => POLL_INTERVAL + budget k'
  end.

Section WithEngine.
Context {engine : RegexEngine}.

(** [main] after the configuration is validated, for a hook input that
    is a JSON object.  [command] is [tool_input.get("command")] and
    [message_text] is [format_tool_request(hook_input)]. *)
Definition main (fuel : nat) (tool_name : string) (command : option string)
  (f : Classifier.rules_file) (w : world) (thread_ts : option string)
  (message_text : string) (st : hook_state)
  : option (outcome * hook_state) :=
  let to_slack := approval_session fuel w thread_ts message_text st in
  if String.eqb tool_name "Bash" && Str.truthy (get command "") then
    match Classifier.classify_command f (get command "") with
    | Classifier.Safe =>
        Some (AutoApproved,
              print_and_exit Allow "Auto-approved: safe command" st)
    | Classifier.Deny =>
        Some (Blocked,
              print_and_exit Deny "Blocked: command matches deny rules" st)
    | Classifier.Risky => to_slack
    end
  else to_slack.

End WithEngine.

End Approval.

(** Two worlds for a posted request: one where nobody answers, one where
    a thumbs-up is there at the second poll. *)
Module ApprovalSamples.
Import Approval.

Definition request : message :=
  {| user := Some "UBOT"; subtype := None; text := Some "approval needed" |}.

Definition quiet_world : world :=
  {| post_result := Some "1700000000.000100";
     bot_user := Some "UBOT";
     reactions_at := fun _ => {| reactions_ok := true; reactions := [] |};
     replies_at := fun _ => {| replies_ok := true; messages := [request] |};
     lag := fun _ => 0%Q |}.

Definition thumbs_world : world :=
  {| post_result := Some "1700000000.000100";
     bot_user := Some "UBOT";
     reactions_at := fun i =>
       {| reactions_ok := true;
          reactions := match i with
                       | O => []
                       | S _ => [ {| name := Some "eyes" |};
                                  {| name := Some "+1::skin-tone-2" |} ]
                       end |};
     replies_at := fun _ => {| replies_ok := true; messages := [request] |};
     lag := fun _ => 0%Q |}.

Definition request_text : string :=
  "*Tool:* `Bash`" +:+ String "010" FOOTER_TEXT.

Definition fresh_state : hook_state := {| pending_file := None; log := [] |}.

End ApprovalSamples.

(* ===================================================================== *)
(** ** The chat daemon: session storage *)
(* ===================================================================== *)

Module Sessions.

Definition SESSION_MAX_AGE : Q := 86400.   (* 24 hours *)

(** One value of sessions.json.  [last_active] is read with
    [info.get("last_active", 0)]. *)
Record session_info := {
  session_id : string;
  project_dir : string;
  last_active : option Q
}.

Abbreviation table := (gmap string session_info).

(** sessions.json as [load_sessions] finds it. *)
Inductive sessions_file :=
| NoSessionsFile
| InvalidJson
| Stored (sessions : table).

Definition load_sessions (f : sessions_file) : table :=
  match f with
  | NoSessionsFile => ∅
  | InvalidJson => ∅
  | Stored sessions => sessions
  end.

Definition save_sessions (sessions : table) : sessions_file := Stored sessions.

Definition get_session (thread_ts : string) (f : sessions_file)
  : option session_info :=
  load_sessions f !! thread_ts.

(** [info.get("last_active", 0) > cutoff] *)
Definition fresh (cutoff : Q) (info : session_info) : bool :=
  Approval.Qltb cutoff (get (last_active info) 0%Q).

(** [set_session] reads the clock twice: [now] stamps the entry and
    [now'] gives the cutoff. *)
Definition set_session (now now' : Q) (thread_ts session_id project_dir : string)
  (f : sessions_file) : sessions_file :=
  let sessions := load_sessions f in
  let sessions :=
    <[thread_ts := {| session_id := session_id;
                      project_dir := project_dir;
                      last_active := Some now |}]> sessions in
  (* Clean old entries *)
  let cutoff := (now' - SESSION_MAX_AGE)%Q in
  let sessions :=
    filter (λ entry : string * session_info, fresh cutoff entry.2 = true)
      sessions in
  save_sessions sessions.

Definition touch_session (now : Q) (thread_ts : string) (f : sessions_file)
  : sessions_file :=
  let sessions := load_sessions f in
  match sessions !! thread_ts with
  | Some info =>
      save_sessions
        (<[thread_ts := {| session_id := session_id info;
                           project_dir := project_dir info;
                           last_active := Some now |}]> sessions)
  | None => f
  end.

End Sessions.

(** A table with a session that is two days old and one that is one
    hour old, read at time 200000. *)
Module SessionSamples.
Import Sessions.

Definition stale : session_info :=
  {| session_id := "s-old"; project_dir := "/srv/a"; last_active := Some 27200%Q |}.

Definition recent : session_info :=
  {| session_id := "s-new"; project_dir := "/srv/b"; last_active := Some 196400%Q |}.

Definition two_sessions : sessions_file :=
  Stored (<["1699990000.000100" := stale]> (<["1700000000.000200" := recent]> ∅)).

(** A table with the older session only. *)
Definition old_only : sessions_file :=
  Stored (<["1699990000.000100" := stale]> ∅).

End SessionSamples.

(* ===================================================================== *)
(** ** The chat daemon: running the agent and handling a message *)
(* ===================================================================== *)

Module Dispatcher.
Import Sessions.

(** The object the agent prints, with the keys [run_claude] reads.
    [out_session_id] is [None] when the key is absent and [Some None]
    when it is [null]; [dumped] is [json.dumps(output, indent=2)]. *)
Record agent_output := {
  out_session_id : option (option string);
  out_result : option string;
  out_content : option string;
  out_text : option string;
  dumped : string
}.

(** How [subprocess.run] ends, for every end [run_claude] returns from.
    [parsed] is [json.loads] of the stripped standard output: [None]
    when it raises, and an object otherwise.  An output that is valid
    JSON without being an object (a number, a list, [null]) is not among
    these ends: [output.get] raises on it, outside the [try], and
    [run_claude] does not return. *)
Inductive subprocess_result :=
| TimeoutExpired
| FileNotFound
| OtherError (exc : string)
| Completed (stdout stderr : string) (parsed : option agent_output).

(** A session id is truthy when it is a non-empty string. *)
Definition truthy_id (sid : option string) : bool :=
  match sid with
  | Some s => Str.truthy s
  | None => false
  end.

(** [run_claude], given how the subprocess ended: the response text
    and the new session id. *)
Definition run_claude (result : subprocess_result) (session_id : option string)
  : string * option string :=
  match result with
  | TimeoutExpired =>
      (":warning: Claude timed out after 10 minutes.", session_id)
  | FileNotFound =>
      (":x: `claude` CLI not found. Is it installed and on PATH?", session_id)
  | OtherError exc =>
      (":x: Error running Claude: " +:+ exc, session_id)
  | Completed out err parsed =>
      let stdout := Str.strip out in
      if negb (Str.truthy stdout) then
        let stderr := Str.strip err in
        if Str.truthy stderr
        then (":warning: Claude returned no output." +:+ String "010" "```"
              +:+ String "010" (Str.take 2000 stderr) +:+ String "010" "```",
              session_id)
        else (":warning: Claude returned no output.", session_id)
      else
        match parsed with
        | None => (Str.take 4000 stdout, session_id)
        | Some output =>
            let new_session_id := get (out_session_id output) session_id in
            let response_text := get (out_result output) "" in
            let response_text :=
              if negb (Str.truthy response_text)
              then get (out_content output) (get (out_text output) "")
              else response_text in
            let response_text :=
              if negb (Str.truthy response_text)
              then Str.take 4000 (dumped output)
              else response_text in
            (response_text, new_session_id)
        end
  end.

(** What a handler does to the outside, in order. *)
Inductive event :=
| PostMessage (text thread_ts : string)
| RunClaude (prompt project_dir : string) (session_id : option string)
| SetSession (thread_ts session_id project_dir : string)
| TouchSession (thread_ts : string)
| DeleteMessage (ts : string).

Record daemon_state := {
  sessions : sessions_file;
  log : list event
}.

Definition emit (e : event) (st : daemon_state) : daemon_state :=
  {| sessions := sessions st; log := log st ++ [e] |}.

(** What one handler meets outside: the answers of Slack and of the
    agent, the project a text resolves to, and the clock readings of
    [set_session] and [touch_session]. *)
Record world := {
  thinking_ts : option string;
  agent : string -> string -> option string -> subprocess_result;
  resolve_project_and_prompt : string -> string * string;
  now : Q;
  now' : Q
}.

Definition do_set_session (w : world) (thread_ts sid dir : string)
  (st : daemon_state) : daemon_state :=
  {| sessions := set_session (now w) (now' w) thread_ts sid dir (sessions st);
     log := log st ++ [SetSession thread_ts sid dir] |}.

Definition do_touch_session (w : world) (thread_ts : string)
  (st : daemon_state) : daemon_state :=
  {| sessions := touch_session (now w) thread_ts (sessions st);
     log := log st ++ [TouchSession thread_ts] |}.

(** [response, new_session_id = run_claude(...)] *)
Definition call_claude (w : world) (prompt dir : string) (sid : option string)
  (st : daemon_state) : string * option string * daemon_state :=
  (run_claude (agent w prompt dir sid) sid, emit (RunClaude prompt dir sid) st).

(** [if new_session_id: set_session(thread_ts, new_session_id, project_dir)] *)
Definition store_new (w : world) (thread_ts : string)
  (new_session_id : option string) (dir : string) (st : daemon_state)
  : daemon_state :=
  if truthy_id new_session_id
  then do_set_session w thread_ts (get new_session_id "") dir st
  else st.

(** [while remaining: post remaining[:4000]; remaining = remaining[4000:]] *)
Fixpoint post_chunks (fuel : nat) (remaining thread_ts : string)
  (st : daemon_state) : daemon_state :=
  match fuel with
  | O => st
  | S fuel' =>
      if Str.truthy remaining
      then post_chunks fuel' (Str.drop 4000 remaining) thread_ts
             (emit (PostMessage (Str.take 4000 remaining) thread_ts) st)
      else st
  end.

Definition _process_message (w : world) (text thread_ts : string)
  (is_thread_reply : bool) (st : daemon_state) : daemon_state :=
  let st := emit (PostMessage ":hourglass_flowing_sand: Claude is thinking..."
                    thread_ts) st in
  let '(response, st) :=
    if is_thread_reply then
      (* Continue existing session *)
      match get_session thread_ts (sessions st) with
      | Some session =>
          let session_id := session_id session in
          let project_dir := project_dir session in
          let '(response, new_session_id, st) :=
            call_claude w text project_dir (Some session_id) st in
          if truthy_id new_session_id
          then (response,
                do_set_session w thread_ts (get new_session_id "")
                  project_dir st)
          else (response, do_touch_session w thread_ts st)
      | None =>
          (* No session found for this thread: treat as new *)
          let '(project_dir, prompt) := resolve_project_and_prompt w text in
          let '(response, new_session_id, st) :=
            call_claude w prompt project_dir None st in
          (response, store_new w thread_ts new_session_id project_dir st)
      end
    else
      (* New conversation *)
      let '(project_dir, prompt) := resolve_project_and_prompt w text in
      let '(response, new_session_id, st) :=
        call_claude w prompt project_dir None st in
      (response, store_new w thread_ts new_session_id project_dir st) in
  let st :=
    if truthy_id (thinking_ts w)
    then emit (DeleteMessage (get (thinking_ts w) "")) st
    else st in
  post_chunks (String.length response) response thread_ts st.

(** *** What is stored, in the words of the specification *)

(** The agent run gave no new session id: the subprocess failed, printed
    nothing, or printed something that is not JSON. *)
Definition no_new_session (result : subprocess_result) : Prop :=
  match result with
  | TimeoutExpired | FileNotFound | OtherError _ => True
  | Completed out _ parsed => Str.strip out = "" \/ parsed = None
  end.

Definition is_session_op (e : event) : bool :=
  match e with
  | SetSession _ _ _ | TouchSession _ => true
  | _ => false
  end.

(** The calls of [set_session] and [touch_session] in a log. *)
Definition session_ops (l : list event) : list event :=
  List.filter is_session_op l.

End Dispatcher.

(** A handler that continues the one-hour-old session of
    [SessionSamples.two_sessions] while the agent times out. *)
Module DispatcherSamples.
Import Sessions SessionSamples Dispatcher.

Definition timeout_world : world :=
  {| thinking_ts := Some "1700000100.000300";
     agent := fun _ _ _ => TimeoutExpired;
     resolve_project_and_prompt := fun text => ("/mnt/c/projects", text);
     now := 200000%Q;
     now' := 200000%Q |}.

Definition before : daemon_state :=
  {| sessions := two_sessions; log := [] |}.

End DispatcherSamples.

(* ===================================================================== *)
(** ** The chat daemon: one handler per thread *)
(* ===================================================================== *)

(** [handle_message] runs in a thread of its own for every message the
    poll cycle picks up.  The handlers share [_active_threads]; the two
    [with _active_threads_lock] blocks are the atomic steps of a handler,
    and the scheduler interleaves the steps of the handlers freely. *)
Module SingleFlight.

(** Where a handler is in [handle_message]. *)
Inductive pc :=
| AtEntry      (* started, before the first locked block *)
| Processing   (* in the [try] block, [_process_message] not finished *)
| Leaving      (* in the [finally] block, before the second locked block *)
| Dropped      (* returned from the first locked block *)
| Done.        (* returned after the second locked block *)

Record handler := {
  thread_ts : string;
  at_pc : pc
}.

Record pool := {
  _active_threads : gset string;
  handlers : list handler;
  invoked : list string           (* thread_ts of every agent run, in order *)
}.

Definition init : pool :=
  {| _active_threads := ∅; handlers := []; invoked := [] |}.

(** A handler is inside from the moment it added its thread to
    [_active_threads] until it discards it. *)
Definition inside (h : handler) : bool :=
  match at_pc h with
  | Processing | Leaving => true
  | _ => false
  end.

(** A handler whose [_process_message] has run. *)
Definition processed (h : handler) : bool :=
  match at_pc h with
  | Leaving | Done => true
  | _ => false
  end.

Definition move (i : nat) (h : handler) (to : pc) (hs : list handler)
  : list handler :=
  <[i := {| thread_ts := thread_ts h; at_pc := to |}]> hs.

Inductive label :=
| Start (thread_ts : string)   (* threading.Thread(target=handle_message).start() *)
| Run (i : nat).               (* handler [i] takes its next step *)

Definition step (l : label) (p : pool) : pool :=
  match l with
  | Start t =>
      {| _active_threads := _active_threads p;
         handlers := handlers p ++ [{| thread_ts := t; at_pc := AtEntry |}];
         invoked := invoked p |}
  | Run i =>
      match handlers p !! i with
      | None => p
      | Some h =>
          match at_pc h with
          | AtEntry =>
              (* with _active_threads_lock: *)
              if decide (thread_ts h ∈ _active_threads p)
              then {| _active_threads := _active_threads p;
                      handlers := move i h Dropped (handlers p);
                      invoked := invoked p |}
              else {| _active_threads := {[thread_ts h]} ∪ _active_threads p;
                      handlers := move i h Processing (handlers p);
                      invoked := invoked p |}
          | Processing =>
              (* _process_message(text, thread_ts, is_thread_reply) *)
              {| _active_threads := _active_threads p;
                 handlers := move i h Leaving (handlers p);
                 invoked := invoked p ++ [thread_ts h] |}
          | Leaving =>
              (* with _active_threads_lock: _active_threads.discard(thread_ts) *)
              {| _active_threads := _active_threads p ∖ {[thread_ts h]};
                 handlers := move i h Done (handlers p);
                 invoked := invoked p |}
          | Dropped | Done => p
          end
      end
  end.

Definition run (ls : list label) (p : pool) : pool :=
  fold_left (fun p l => step l p) ls p.

(** The threads that have a handler inside, one entry per handler. *)
Definition held (hs : list handler) : list string :=
  map thread_ts (filter (fun h => inside h = true) hs).

Definition holding (p : pool) : list string := held (handlers p).

(** The number of agent runs for a thread. *)
Definition count_runs (t : string) (l : list string) : nat :=
  length (filter (fun t' => t' = t) l).

Definition runs_for (t : string) (p : pool) : nat := count_runs t (invoked p).

(** The number of handlers of a thread that passed the membership
    test and ran [_process_message]. *)
Definition count_processed (t : string) (hs : list handler) : nat :=
  length (filter (fun h => thread_ts h = t ∧ processed h = true) hs).

Definition processed_for (t : string) (p : pool) : nat :=
  count_processed t (handlers p).

(** What holds of the pool at every moment. *)
Definition invariant (p : pool) : Prop :=
  NoDup (holding p)
  /\ (forall t, t ∈ _active_threads p <-> t ∈ holding p)
  /\ (forall t, runs_for t p = processed_for t p).

(** A handler that passed the membership test. *)
Definition admitted (h : handler) : bool :=
  match at_pc h with
  | Processing | Leaving | Done => true
  | _ => false
  end.

(** A handler that returned at the membership test. *)
Definition dropped (h : handler) : bool :=
  match at_pc h with
  | Dropped => true
  | _ => false
  end.

(** A handler that has returned, one way or the other. *)
Definition returned (h : handler) : bool :=
  match at_pc h with
  | Dropped | Done => true
  | _ => false
  end.

(** The number of handlers of a thread that pass a test. *)
Definition count_where (test : handler -> bool) (t : string)
  (hs : list handler) : nat :=
  length (filter (fun h => thread_ts h = t ∧ test h = true) hs).

(** The handlers started for a thread, those of them that were dropped,
    and those that were admitted. *)
Definition started_for (t : string) (p : pool) : nat :=
  count_where (fun _ => true) t (handlers p).

Definition dropped_for (t : string) (p : pool) : nat :=
  count_where dropped t (handlers p).

Definition admitted_for (t : string) (p : pool) : nat :=
  count_where admitted t (handlers p).

(** Every handler that was started has returned. *)
Definition quiescent (p : pool) : Prop :=
  Forall (fun h => returned h = true) (handlers p).

(** A message is dropped only on behalf of a handler that was
    admitted. *)
Definition admission (p : pool) : Prop :=
  forall t, 0 < dropped_for t p -> 0 < admitted_for t p.

(** Two messages of one thread, the second arriving while the first is
    handled, and a message of another thread. *)
Definition overlap : list label :=
  [ Start "1700000000.000200"; Run 0;
    Start "1700000000.000200"; Start "1700000555.000900";
    Run 1; Run 2; Run 0; Run 1; Run 2; Run 0; Run 2 ].

End SingleFlight.

(* ===================================================================== *)
(** ** Verdicts as an order, and characters of a command *)
(* ===================================================================== *)

Module Verdicts.
Import Classifier.

(** The worse of two verdicts: deny beats risky beats safe. *)
Definition worst (a b : verdict) : verdict :=
  match a, b with
  | Deny, _ | _, Deny => Deny
  | Risky, _ | _, Risky => Risky
  | Safe, Safe => Safe
  end.

Definition worst_of (vs : list verdict) : verdict := fold_right worst Safe vs.

(** [c in s] for one character *)
Fixpoint has_char (c : ascii) (s : string) : bool :=
  match s with
  | EmptyString => false
  | String d r => Ascii.eqb d c || has_char c r
  end.

(** A piece of a command that holds none of the operators. *)
Definition operator_free (s : string) : Prop :=
  has_char ";" s = false /\ has_char "|" s = false
  /\ Str.contains "&&" s = false.

(** [p] put in front of the first piece. *)
Definition prepend (p : string) (pieces : list string) : list string :=
  match pieces with
  | [] => [p]
  | q :: qs => (p +:+ q) :: qs
  end.

(** The operators a chain is written with. *)
Definition OPERATORS : list string := ["&&"; "||"; ";"; "|"].

(** The two-character operators of the split. *)
Definition is_pair (c d : ascii) : bool :=
  (is_amp c && is_amp d) || (is_bar c && is_bar d).

End Verdicts.

(* ===================================================================== *)
(** ** The approval hook: reactions in words, and the post-tool resolver *)
(* ===================================================================== *)

Module Hook.
Import Approval.

(** The name of a reaction without its skin-tone suffix. *)
Definition base_name (r : reaction) : string :=
  before_colons (get (name r) "").

Definition approves (r : reaction) : Prop := In (base_name r) APPROVE_REACTIONS.
Definition denies (r : reaction) : Prop := In (base_name r) DENY_REACTIONS.
Definition unrecognised (r : reaction) : Prop := ~ approves r /\ ~ denies r.

(** The first recognised reaction decides. *)
Inductive reaction_decision : list reaction -> option decision -> Prop :=
| reactions_none (rs : list reaction) :
    Forall unrecognised rs -> reaction_decision rs None
| reactions_allow (pre post : list reaction) (r : reaction) :
    Forall unrecognised pre -> approves r ->
    reaction_decision (pre ++ r :: post) (Some Allow)
| reactions_deny (pre post : list reaction) (r : reaction) :
    Forall unrecognised pre -> denies r ->
    reaction_decision (pre ++ r :: post) (Some Deny).

(** The pending file as [resolve_pending] finds it: missing, not valid
    JSON, or an object read with [pending.get("msg_ts")] and
    [pending.get("original_text", "")]. *)
Inductive pending_read :=
| PendingMissing
| PendingInvalid
| PendingJson (msg_ts : option string) (original_text : option string).

(** What is read back from the file the hook wrote. *)
Definition read_pending (st : hook_state) : pending_read :=
  match pending_file st with
  | None => PendingMissing
  | Some p => PendingJson (Some (msg_ts p)) (Some (original_text p))
  end.

Definition TERMINAL_TEXT : string := ":white_check_mark: *Approved via terminal*".

(** [resolve_pending], given what it reads and [SLACK_BOT_TOKEN]. *)
Definition resolve_pending_on (r : pending_read) (token : string)
  (st : hook_state) : hook_state :=
  match r with
  | PendingMissing => st
  | PendingInvalid => clear_pending st
  | PendingJson msg_ts original_text =>
      let original_text := get original_text "" in
      let st :=
        if Str.truthy (get msg_ts "") && Str.truthy token
        then update_message (get msg_ts "")
               (Str.replace original_text FOOTER_TEXT TERMINAL_TEXT) st
        else st in
      clear_pending st
  end.

Definition resolve_pending (token : string) (st : hook_state) : hook_state :=
  resolve_pending_on (read_pending st) token st.

(** The exit codes in a log, in order. *)
Fixpoint exit_codes (l : list event) : list Z :=
  match l with
  | [] => []
  | Exit code :: rest => code :: exit_codes rest
  | _ :: rest => exit_codes rest
  end.

(** The events that reach Slack or the pending file. *)
Definition is_outward (e : event) : bool :=
  match e with
  | PostMessage _ _ | SavePending _ | UpdateMessage _ _ | ClearPending
  | Sleep _ => true
  | PrintDecision _ _ | Exit _ => false
  end.

End Hook.

(* ===================================================================== *)
(** ** The chat daemon: what a handler posts and runs *)
(* ===================================================================== *)

Module HandlerLog.
Import Dispatcher.

Definition THINKING : string := ":hourglass_flowing_sand: Claude is thinking...".

Definition is_run (e : event) : bool :=
  match e with
  | RunClaude _ _ _ => true
  | _ => false
  end.

Definition is_delete (e : event) : bool :=
  match e with
  | DeleteMessage _ => true
  | _ => false
  end.

(** The chunks put back together. *)
Definition join_chunks (chunks : list string) : string :=
  fold_right String.append "" chunks.

End HandlerLog.

(* ===================================================================== *)
(** ** The chat daemon: the project and the prompt of a message *)
(* ===================================================================== *)

Module Resolve.

(** The class [\w] of [re] on [str] patterns, on the code points below
    256: the characters that are alphanumeric for [str.isalnum], and
    the underscore. *)
Definition is_word (c : ascii) : bool :=
  let n := nat_of_ascii c in
  (((48 <=? n) && (n <=? 57)) || ((65 <=? n) && (n <=? 90))
   || ((97 <=? n) && (n <=? 122)) || (n =? 95)
   || (n =? 170) || (n =? 178) || (n =? 179) || (n =? 181) || (n =? 185)
   || (n =? 186) || (n =? 188) || (n =? 189) || (n =? 190)
   || ((192 <=? n) && (n <=? 214)) || ((216 <=? n) && (n <=? 246))
   || ((248 <=? n) && (n <=? 255)))%nat.

(** The class [\S]. *)
Definition is_nonspace (c : ascii) : bool := negb (Str.is_space c).

(** The longest run of characters of a class at the head of a string,
    and what follows it: a greedy [c*]. *)
Fixpoint span (test : ascii -> bool) (s : string) : string * string :=
  match s with
  | EmptyString => (EmptyString, EmptyString)
  | String c r =>
      if test c
      then let '(run, rest) := span test r in (String c run, rest)
      else (EmptyString, s)
  end.

(** Every character of the string is in the class. *)
Fixpoint all_chars (test : ascii -> bool) (s : string) : bool :=
  match s with
  | EmptyString => true
  | String c r => test c && all_chars test r
  end.

(** The last character of a string, as a string. *)
Fixpoint last_char (s : string) : string :=
  match s with
  | EmptyString => EmptyString
  | String c EmptyString => s
  | String _ r => last_char r
  end.

(** The group of [\s*(.+)] or, with [need_space], of [\s+(.+)] at the
    head of [s] (with DOTALL).  The whitespace is taken greedily; when
    nothing follows it, the match gives one whitespace character back
    to the group, as long as enough whitespace is left. *)
Definition spaces_then_group (need_space : bool) (s : string) : option string :=
  let '(ws, rest) := span Str.is_space s in
  match rest with
  | String _ _ =>
      if need_space && negb (Str.truthy ws) then None else Some rest
  | EmptyString =>
      if (String.length ws <? (if need_space then 2 else 1))%nat
      then None
      else Some (last_char ws)
  end.

(** [re.match(r'^(/\S+)\s+(.+)', text, re.DOTALL)]: the two groups. *)
Definition match_path (text : string) : option (string * string) :=
  match text with
  | String c r =>
      if Ascii.eqb c "/" then
        let '(run, rest) := span is_nonspace r in
        if Str.truthy run then
          match spaces_then_group true rest with
          | Some g2 => Some (String c run, g2)
          | None => None
          end
        else None
      else None
  | EmptyString => None
  end.

(** [re.match(r'^(\w+):\s*(.+)', text, re.DOTALL)] *)
Definition match_colon (text : string) : option (string * string) :=
  let '(word, rest) := span is_word text in
  if Str.truthy word then
    match rest with
    | String c r =>
        if Ascii.eqb c ":" then
          match spaces_then_group false r with
          | Some g2 => Some (word, g2)
          | None => None
          end
        else None
    | EmptyString => None
    end
  else None.

(** [re.match(r'^(\w+)\s+(.+)', text, re.DOTALL)] *)
Definition match_word (text : string) : option (string * string) :=
  let '(word, rest) := span is_word text in
  if Str.truthy word then
    match spaces_then_group true rest with
    | Some g2 => Some (word, g2)
    | None => None
    end
  else None.

(** What the resolution reads beside the text: [os.path.isdir], the
    shorthands of the PROJECT_* keys and the default directory. *)
Record projects := {
  isdir : string -> bool;
  PROJECT_MAP : gmap string string;
  DEFAULT_PROJECT_DIR : string
}.

(** [if shorthand in PROJECT_MAP: return PROJECT_MAP[shorthand], group2.strip()] *)
Definition by_shorthand (env : projects) (m : option (string * string))
  : option (string * string) :=
  match m with
  | Some (word, g2) =>
      let shorthand := Str.lower word in
      match PROJECT_MAP env !! shorthand with
      | Some dir => Some (dir, Str.strip g2)
      | None => None
      end
  | None => None
  end.

Definition resolve_project_and_prompt (env : projects) (text : string)
  : string * string :=
  let text := Str.strip text in
  (* Check for explicit absolute path prefix *)
  let by_path :=
    match match_path text with
    | Some (path_candidate, g2) =>
        if isdir env path_candidate
        then Some (path_candidate, Str.strip g2)
        else None
    | None => None
    end in
  match by_path with
  | Some r => r
  | None =>
      (* Check for shorthand prefix *)
      match by_shorthand env (match_colon text) with
      | Some r => r
      | None =>
          (* Also match without colon *)
          match by_shorthand env (match_word text) with
          | Some r => r
          | None =>
              (* Default *)
              (DEFAULT_PROJECT_DIR env, text)
          end
      end
  end.

(** A configuration with one shorthand and one directory. *)
Definition sample_projects : projects :=
  {| isdir := fun p => String.eqb p "/srv/app";
     PROJECT_MAP := <["calabrio" := "/mnt/c/projects/calabrio"]> ∅;
     DEFAULT_PROJECT_DIR := "/mnt/c/projects" |}.

End Resolve.

(* ===================================================================== *)
(** ** Both scripts: the .env file *)
(* ===================================================================== *)

Module Env.

(** [key, _, value = line.partition("=")]: what is before and what is
    after the first [=]. *)
Fixpoint partition_eq (line : string) : string * string :=
  match line with
  | EmptyString => (EmptyString, EmptyString)
  | String c r =>
      if Ascii.eqb c "="
      then (EmptyString, r)
      else let '(key, value) := partition_eq r in (String c key, value)
  end.

(** The body of the loop over the lines of the file. *)
Definition load_line (env : gmap string string) (line : string)
  : gmap string string :=
  let line := Str.strip line in
  if negb (Str.truthy line) || Str.startswith line "#" then env
  else if Verdicts.has_char "=" line
       then let '(key, value) := partition_eq line in
            <[Str.strip key := Str.strip value]> env
       else env.

(** [load_env(path)]: the file is [None] when [os.path.isfile(path)] is
    false, and its lines otherwise. *)
Definition load_env (file : option (list string)) : gmap string string :=
  match file with
  | None => ∅
  | Some lines => fold_left load_line lines ∅
  end.

(** A line that assigns nothing: blank, a comment, or without [=]. *)
Definition ignored (line : string) : Prop :=
  Str.strip line = "" \/ Str.startswith (Str.strip line) "#" = true
  \/ Verdicts.has_char "=" (Str.strip line) = false.

Definition sample_env : list string :=
  [ "# Slack"; ""; "SLACK_BOT_TOKEN = xoxb-1 "; "DAEMON_POLL_INTERVAL=3";
    "PROJECT_CALABRIO=/mnt/c/projects/calabrio"; "  # DAEMON_POLL_INTERVAL=9";
    "DAEMON_POLL_INTERVAL=5"; "NOTE=a=b" ].

End Env.

(* ===================================================================== *)
(** ** The chat daemon: one polling cycle *)
(* ===================================================================== *)

Module PollCycle.

(** One message of conversations.history or conversations.replies, with
    the keys the cycle reads. *)
Record channel_message := {
  user : option string;
  text : option string;
  ts : option string;
  thread_ts : option string;
  subtype : option string
}.

(** The arguments of a [handle_message] thread that is started. *)
Record start := {
  start_text : string;
  start_thread : string;
  start_is_reply : bool;
  start_user : string
}.

(** The class [[A-Z0-9]]. *)
Definition is_id (c : ascii) : bool :=
  let n := nat_of_ascii c in
  (((65 <=? n) && (n <=? 90)) || ((48 <=? n) && (n <=? 57)))%nat.

(** The length of a match of [<@[A-Z0-9]+>\s*] at the head of [s]. *)
Definition mention_length (s : string) : option nat :=
  match s with
  | String c (String d r) =>
      if Ascii.eqb c "<" && Ascii.eqb d "@" then
        let '(id, rest) := Resolve.span is_id r in
        if Str.truthy id then
          match rest with
          | String e r' =>
              if Ascii.eqb e ">"
              then Some (2 + String.length id + 1
                         + String.length (fst (Resolve.span Str.is_space r')))
              else None
          | EmptyString => None
          end
        else None
      else None
  | _ => None
  end.

(** [re.sub(r'<@[A-Z0-9]+>\s*', '', text)]: the matches are found from
    the left and do not overlap.  [skip] counts the characters of a
    match that are still to be passed over. *)
Fixpoint strip_mentions_from (skip : nat) (s : string) : string :=
  match s with
  | EmptyString => EmptyString
  | String c r =>
      match skip with
      | S k => strip_mentions_from k r
      | O =>
          match mention_length s with
          | Some n => strip_mentions_from (n - 1) r
          | None => String c (strip_mentions_from 0 r)
          end
      end
  end.

Definition strip_mentions (text : string) : string :=
  Str.strip (strip_mentions_from 0 text).

(** A value of a JSON object is truthy when it is a non-empty string. *)
Definition truthy_field (f : option string) : bool := Str.truthy (get f "").

(** [if not newest_ts or ts > newest_ts: newest_ts = ts] *)
Definition track_newest (newest_ts : option string) (ts : string)
  : option string :=
  if negb (truthy_field newest_ts) || String.ltb (get newest_ts "") ts
  then Some ts else newest_ts.

(** The state of the first loop: the threads started, [seen_messages]
    and [newest_ts]. *)
Record top_state := {
  started : list start;
  seen_messages : gset string;
  newest_ts : option string
}.

(** The body of the loop over the new top-level messages. *)
Definition top_step (bot_user_id : string) (st : top_state)
  (msg : channel_message) : top_state :=
  let user := get (user msg) "" in
  let text := Str.strip (get (text msg) "") in
  let ts := get (ts msg) "" in
  let newest := track_newest (newest_ts st) ts in
  let skip seen :=
    {| started := started st; seen_messages := seen; newest_ts := newest |} in
  (* Skip already-seen messages *)
  if decide (ts ∈ seen_messages st) then skip (seen_messages st)
  else
    let seen := {[ts]} ∪ seen_messages st in
    (* Skip bot's own messages *)
    if String.eqb user bot_user_id then skip seen
    (* Skip messages with subtypes *)
    else if truthy_field (subtype msg) then skip seen
    (* Skip empty messages *)
    else if negb (Str.truthy text) then skip seen
    (* Skip thread replies here *)
    else if truthy_field (thread_ts msg) then skip seen
    else
      (* Strip bot @mentions from the text *)
      let text := strip_mentions text in
      if negb (Str.truthy text) then skip seen
      else
        {| started := started st
                      ++ [{| start_text := text; start_thread := ts;
                             start_is_reply := false; start_user := user |}];
           seen_messages := seen;
           newest_ts := newest |}.

(** The first loop of [_poll_cycle], on an ok answer. *)
Definition scan_top (bot_user_id : string) (messages : list channel_message)
  (seen : gset string) : top_state :=
  fold_left (top_step bot_user_id) messages
    {| started := []; seen_messages := seen; newest_ts := None |}.

(** What holds of the first loop from a state on. *)
Definition top_invariant (bot : string) (seen0 : gset string) (st : top_state)
  : Prop :=
  NoDup (map start_thread (started st))
  /\ (forall s, In s (started st) ->
                (start_thread s ∉ seen0) /\ (start_thread s ∈ seen_messages st)
                /\ start_text s <> "" /\ start_user s <> bot
                /\ start_is_reply s = false)
  /\ seen0 ⊆ seen_messages st.

(** The state of the second loop: the threads started and
    [seen_thread_messages]. *)
Record reply_state := {
  reply_started : list start;
  seen_thread_messages : gset string
}.

Definition LOCK_MARK : string := ":lock: *Claude Code".

(** The body of the loop over [thread_messages[1:]]. *)
Definition reply_step (bot_user_id thread : string) (st : reply_state)
  (msg : channel_message) : reply_state :=
  let msg_ts := get (ts msg) "" in
  let user := get (user msg) "" in
  let text := Str.strip (get (text msg) "") in
  let seen := {[msg_ts]} ∪ seen_thread_messages st in
  let skip := {| reply_started := reply_started st;
                 seen_thread_messages := seen |} in
  (* Skip already-seen messages *)
  if decide (msg_ts ∈ seen_thread_messages st) then st
  (* Skip bot's own messages *)
  else if String.eqb user bot_user_id then skip
  (* Skip subtypes *)
  else if truthy_field (subtype msg) then skip
  (* Skip empty *)
  else if negb (Str.truthy text) then skip
  (* Skip messages that look like approval hook messages *)
  else if Str.contains LOCK_MARK text then skip
  else
    let text := strip_mentions text in
    if negb (Str.truthy text) then skip
    else
      {| reply_started := reply_started st
                          ++ [{| start_text := text; start_thread := thread;
                                 start_is_reply := true; start_user := user |}];
         seen_thread_messages := seen |}.

(** The loop over the threads with a session.  [replies_of t] is the
    answer of conversations.replies for thread [t], [None] when it is
    not ok. *)
Definition thread_step (bot_user_id : string)
  (replies_of : string -> option (list channel_message))
  (st : reply_state) (thread : string) : reply_state :=
  match replies_of thread with
  | None => st
  | Some thread_messages =>
      fold_left (reply_step bot_user_id thread) (tl thread_messages) st
  end.

Definition scan_threads (bot_user_id : string)
  (replies_of : string -> option (list channel_message))
  (active_threads : list string) (seen : gset string) : reply_state :=
  fold_left (thread_step bot_user_id replies_of) active_threads
    {| reply_started := []; seen_thread_messages := seen |}.

Definition human (u t ts' : string) : channel_message :=
  {| user := Some u; text := Some t; ts := Some ts'; thread_ts := None;
     subtype := None |}.

Definition sample_history : list channel_message :=
  [ human "U1" "<@UBOT1>  calabrio: list objects" "1700000002.000100";
    human "UBOT1" "Claude is thinking..." "1700000003.000100";
    human "U2" "<@UBOT1>" "1700000004.000100";
    human "U1" "<@UBOT1>  calabrio: list objects" "1700000002.000100";
    {| user := Some "U3"; text := Some "joined"; ts := Some "1700000005.000100";
       thread_ts := None; subtype := Some "channel_join" |} ].

End PollCycle.

(* ===================================================================== *)
(** ** The approval hook: Slack answers that fail or do not parse *)
(* ===================================================================== *)

(** [slack_post] and [slack_get] catch [URLError], [HTTPError] and
    [OSError] and answer [{"ok": False, "error": ...}] for them.  The
    body is parsed inside the same [try]: the [JSONDecodeError] that
    [json.loads] raises on a body that is not JSON is none of the three,
    so it leaves the helper and, nothing else catching it, [main]: the
    hook ends with a traceback and exit status 1.  This module is the
    session of [Approval] with that path in it. *)
Module Transport.
Import Approval.

(** What one request to Slack meets.  [Body a] is a body that parses,
    [a] being what the caller reads of it. *)
Inductive fetched (A : Type) :=
| Unreachable          (* urlopen raises URLError, HTTPError or OSError *)
| Garbled              (* the body is not JSON: json.loads raises *)
| Body (a : A).

Arguments Unreachable {A}.
Arguments Garbled {A}.
Arguments Body {A} a.

(** The result of the helper, [None] when the exception leaves it.
    [not_ok] is what the caller reads of [{"ok": False}]. *)
Definition slack_post {A} (not_ok : A) (got : fetched A) : option A :=
  match got with
  | Unreachable => Some not_ok
  | Garbled => None
  | Body a => Some a
  end.

Definition slack_get {A} (not_ok : A) (got : fetched A) : option A :=
  match got with
  | Unreachable => Some not_ok
  | Garbled => None
  | Body a => Some a
  end.

Definition not_ok_reactions : reactions_resp :=
  {| reactions_ok := false; reactions := [] |}.

Definition not_ok_replies : replies_resp :=
  {| replies_ok := false; messages := [] |}.

(** What the run meets outside.  An answer of chat.postMessage is read
    as its [ts] and one of auth.test as its [user_id], [None] when the
    answer is not ok; the answer of chat.update is not read.  [pause] is
    the [lag] of [Approval.world]. *)
Record raw_world := {
  post_got : fetched (option string);
  auth_got : fetched (option string);
  reactions_got : nat -> fetched reactions_resp;
  replies_got : nat -> fetched replies_resp;
  update_got : fetched unit;
  pause : nat -> Q
}.

(** How a run of the hook ends. *)
Inductive ending :=
| Raised (st : hook_state)                  (* an exception leaves main *)
| Exited (out : outcome) (st : hook_state). (* sys.exit *)

(** [update_message(msg_ts, updated); clear_pending();
     print(json.dumps(result)); sys.exit(0)] *)
Definition resolve (rw : raw_world) (ts updated : string) (d : decision)
  (reason : string) (st : hook_state) : ending :=
  let st := update_message ts updated st in
  match slack_post tt (update_got rw) with
  | None => Raised st
  | Some _ =>
      let st := clear_pending st in
      Exited (match d with
              | Allow => Allowed reason
              | Deny => Denied reason
              end)
        (print_and_exit d reason st)
  end.

(** Phase 2, as [Approval.poll_loop]. *)
Fixpoint poll (fuel : nat) (rw : raw_world) (ts message_text : string)
  (bot_user_id : option string) (i : nat) (elapsed : Q) (st : hook_state)
  : option ending :=
  match fuel with
  | O => None
  | S fuel' =>
      if Qltb elapsed TIMEOUT then
        let st := emit (Sleep POLL_INTERVAL) st in
        (* Check emoji reactions first *)
        match slack_get not_ok_reactions (reactions_got rw i) with
        | None => Some (Raised st)
        | Some resp =>
            match check_reactions resp with
            | Some Allow =>
                Some (resolve rw ts
                        (Str.replace message_text FOOTER_TEXT
                           ":white_check_mark: *Approved via Slack*")
                        Allow "Approved via Slack" st)
            | Some Deny =>
                Some (resolve rw ts
                        (Str.replace message_text FOOTER_TEXT
                           ":no_entry_sign: *Denied via Slack*")
                        Deny "Denied via Slack" st)
            | None =>
                (* Check thread replies for text-based feedback *)
                match slack_get not_ok_replies (replies_got rw i) with
                | None => Some (Raised st)
                | Some resp =>
                    match check_thread_replies resp bot_user_id with
                    | (Some Allow, reply_text) =>
                        let reason :=
                          if Str.truthy (get reply_text "")
                          then "Approved via Slack thread. User feedback: "
                               +:+ get reply_text ""
                          else "Approved via Slack thread" in
                        Some (resolve rw ts
                                (Str.replace message_text FOOTER_TEXT
                                   ":white_check_mark: *Approved via thread reply*")
                                Allow reason st)
                    | (Some Deny, reply_text) =>
                        Some (resolve rw ts
                                (Str.replace message_text FOOTER_TEXT
                                   (":speech_balloon: *Denied with feedback:* "
                                    +:+ get reply_text ""))
                                Deny ("User feedback: " +:+ get reply_text "") st)
                    | (None, _) =>
                        poll fuel' rw ts message_text bot_user_id (S i)
                          (elapsed + POLL_INTERVAL + pause rw (S i))%Q st
                    end
                end
            end
        end
      else
        (* Timeout: fall back to terminal prompt (keep pending file) *)
        let updated := Str.replace message_text FOOTER_TEXT
                         ":hourglass: *Waiting for terminal approval...*" in
        let st := update_message ts updated st in
        match slack_post tt (update_got rw) with
        | None => Some (Raised st)
        | Some _ => Some (Exited TimedOut (emit (Exit 0) st))
        end
  end.

(** [main] from "Post the approval request to Slack" on. *)
Definition session (fuel : nat) (rw : raw_world) (thread_ts : option string)
  (message_text : string) (st : hook_state) : option ending :=
  let thread :=
    match thread_ts with
    | Some t => if Str.truthy t then Some t else None
    | None => None
    end in
  let st := emit (PostMessage message_text thread) st in
  match slack_post None (post_got rw) with
  | None => Some (Raised st)
  | Some msg_ts =>
      if negb (Str.truthy (get msg_ts "")) then
        Some (Exited PostFailed (emit (Exit 0) st))
      else
        let st := save_pending (get msg_ts "") message_text st in
        (* Get bot user ID for filtering thread replies *)
        match slack_post None (auth_got rw) with
        | None => Some (Raised st)
        | Some bot_user_id =>
            poll fuel rw (get msg_ts "") message_text bot_user_id 0
              (pause rw 0) st
        end
  end.


(** Neither check gives a decision at poll [i]: each request fails in
    transport or is answered by a body that parses, and the check makes
    no decision of it. *)
Definition silent (rw : raw_world) (bot_user_id : option string) (i : nat)
  : Prop :=
  exists r p,
    slack_get not_ok_reactions (reactions_got rw i) = Some r
    /\ check_reactions r = None
    /\ slack_get not_ok_replies (replies_got rw i) = Some p
    /\ fst (check_thread_replies p bot_user_id) = None.

(** Some answer has a body that is not JSON. *)
Definition garbled (rw : raw_world) : Prop :=
  post_got rw = Garbled
  \/ auth_got rw = Garbled
  \/ update_got rw = Garbled
  \/ exists i, reactions_got rw i = Garbled \/ replies_got rw i = Garbled.


(** The answers as [Approval.world] has them: a request that fails in
    transport reads as an answer that is not ok. *)
Definition settled {A} (not_ok : A) (got : fetched A) : A :=
  match got with
  | Body a => a
  | _ => not_ok
  end.

Definition answers (rw : raw_world) : world :=
  {| post_result := settled None (post_got rw);
     bot_user := settled None (auth_got rw);
     reactions_at := fun i => settled not_ok_reactions (reactions_got rw i);
     replies_at := fun i => settled not_ok_replies (replies_got rw i);
     lag := pause rw |}.

(** A run of [Approval] read as an ending. *)
Definition exited (r : outcome * hook_state) : ending := Exited r.1 r.2.

(** The way back: every answer of a world arrives and parses. *)
Definition arriving (w : world) : raw_world :=
  {| post_got := Body (post_result w);
     auth_got := Body (bot_user w);
     reactions_got := fun i => Body (reactions_at w i);
     replies_got := fun i => Body (replies_at w i);
     update_got := Body tt;
     pause := lag w |}.

Section WithEngine.
Context {engine : RegexEngine}.

(** [main] after the configuration is validated, as [Approval.main]. *)
Definition main (fuel : nat) (tool_name : string) (command : option string)
  (f : Classifier.rules_file) (rw : raw_world) (thread_ts : option string)
  (message_text : string) (st : hook_state) : option ending :=
  let to_slack := session fuel rw thread_ts message_text st in
  if String.eqb tool_name "Bash" && Str.truthy (get command "") then
    match Classifier.classify_command f (get command "") with
    | Classifier.Safe =>
        Some (Exited AutoApproved
                (print_and_exit Allow "Auto-approved: safe command" st))
    | Classifier.Deny =>
        Some (Exited Blocked
                (print_and_exit Deny "Blocked: command matches deny rules" st))
    | Classifier.Risky => to_slack
    end
  else to_slack.

End WithEngine.

End Transport.

(** Slack out of reach for the reactions while nobody answers in the
    thread, and a session whose fourth poll of the reactions is answered
    by a page that is not JSON. *)
Module TransportSamples.
Import Approval ApprovalSamples Transport.

Definition outage : raw_world :=
  {| post_got := Body (Some "1700000000.000100");
     auth_got := Body (Some "UBOT");
     reactions_got := fun _ => Unreachable;
     replies_got := fun _ => Body {| replies_ok := true; messages := [request] |};
     update_got := Body tt;
     pause := fun _ => 0%Q |}.

Definition error_page : raw_world :=
  {| post_got := Body (Some "1700000000.000100");
     auth_got := Body (Some "UBOT");
     reactions_got := fun i =>
       match i with
       | 3%nat => Garbled
       | _ => Body {| reactions_ok := true; reactions := [] |}
       end;
     replies_got := fun _ => Body {| replies_ok := true; messages := [request] |};
     update_got := Body tt;
     pause := fun _ => 0%Q |}.

(** Nobody answers until a thumbs-up is there from the poll on that
    would be the 151st; with no delay on top of the sleeps that is after
    300 seconds. *)
Definition late_reaction : raw_world :=
  {| post_got := Body (Some "1700000000.000100");
     auth_got := Body (Some "UBOT");
     reactions_got := fun i =>
       Body {| reactions_ok := true;
               reactions := if (i <? 150)%nat then []
                            else [ {| name := Some "+1" |} ] |};
     replies_got := fun _ => Body {| replies_ok := true; messages := [request] |};
     update_got := Body tt;
     pause := fun _ => 0%Q |}.

End TransportSamples.

(* ===================================================================== *)
(** ** The chat daemon: agent output that is JSON and no object *)
(* ===================================================================== *)

(** [run_claude] parses the standard output inside a [try] that catches
    [JSONDecodeError], and reads the result with [output.get] outside
    of it.  A standard output that is valid JSON without being an object
    makes [output.get] raise [AttributeError]; nothing in
    [_process_message] catches it.  This module is the handler of
    [Dispatcher] with that path in it. *)
Module AgentOutput.
Import Sessions Dispatcher.

(** [json.loads] of a standard output that is not empty. *)
Inductive stdout_doc :=
| NotJson                             (* JSONDecodeError *)
| NotAnObject                         (* a number, a string, a list, null *)
| JsonObject (output : agent_output).

(** How [subprocess.run] ends. *)
Inductive subprocess_end :=
| EndTimeout
| EndNotFound
| EndError (exc : string)
| EndCompleted (stdout stderr : string) (doc : stdout_doc).

(** The end as [Dispatcher.run_claude] reads it, [None] when
    [output.get] raises.  The output is parsed only when it is not
    empty. *)
Definition readable (e : subprocess_end) : option subprocess_result :=
  match e with
  | EndTimeout => Some TimeoutExpired
  | EndNotFound => Some FileNotFound
  | EndError exc => Some (OtherError exc)
  | EndCompleted out err doc =>
      if negb (Str.truthy (Str.strip out)) then Some (Completed out err None)
      else
        match doc with
        | NotJson => Some (Completed out err None)
        | NotAnObject => None
        | JsonObject output => Some (Completed out err (Some output))
        end
  end.

(** [run_claude]: the response text and the new session id, [None]
    when the exception leaves it. *)
Definition run_claude (e : subprocess_end) (session_id : option string)
  : option (string * option string) :=
  match readable e with
  | Some result => Some (Dispatcher.run_claude result session_id)
  | None => None
  end.

(** How a handler ends. *)
Inductive handled :=
| Raised (st : daemon_state)      (* an exception leaves _process_message *)
| Finished (st : daemon_state).

(** The agent of a world, as ends of the subprocess. *)
Abbreviation agent_ends := (string -> string -> option string -> subprocess_end).

Definition call_claude (ends : agent_ends) (prompt dir : string)
  (sid : option string) (st : daemon_state)
  : option (string * option string) * daemon_state :=
  (run_claude (ends prompt dir sid) sid, emit (RunClaude prompt dir sid) st).

(** [_process_message], as [Dispatcher._process_message]. *)
Definition _process_message (ends : agent_ends) (w : world)
  (text thread_ts : string) (is_thread_reply : bool) (st : daemon_state)
  : handled :=
  let st := emit (PostMessage ":hourglass_flowing_sand: Claude is thinking..."
                    thread_ts) st in
  let answered : string * daemon_state + daemon_state :=
    if is_thread_reply then
      (* Continue existing session *)
      match get_session thread_ts (sessions st) with
      | Some session =>
          let session_id := session_id session in
          let project_dir := project_dir session in
          match call_claude ends text project_dir (Some session_id) st with
          | (None, st) => inr st
          | (Some (response, new_session_id), st) =>
              if truthy_id new_session_id
              then inl (response,
                        do_set_session w thread_ts (get new_session_id "")
                          project_dir st)
              else inl (response, do_touch_session w thread_ts st)
          end
      | None =>
          (* No session found for this thread: treat as new *)
          let '(project_dir, prompt) := resolve_project_and_prompt w text in
          match call_claude ends prompt project_dir None st with
          | (None, st) => inr st
          | (Some (response, new_session_id), st) =>
              inl (response,
                   store_new w thread_ts new_session_id project_dir st)
          end
      end
    else
      (* New conversation *)
      let '(project_dir, prompt) := resolve_project_and_prompt w text in
      match call_claude ends prompt project_dir None st with
      | (None, st) => inr st
      | (Some (response, new_session_id), st) =>
          inl (response,
               store_new w thread_ts new_session_id project_dir st)
      end in
  match answered with
  | inr st => Raised st
  | inl (response, st) =>
      let st :=
        if truthy_id (thinking_ts w)
        then emit (DeleteMessage (get (thinking_ts w) "")) st
        else st in
      Finished (post_chunks (String.length response) response thread_ts st)
  end.

(** The arguments of the call of [run_claude] a handler makes: the
    prompt, the project directory and the session to resume. *)
Definition agent_call (w : world) (text thread_ts : string)
  (is_thread_reply : bool) (st : daemon_state)
  : string * string * option string :=
  if is_thread_reply then
    match get_session thread_ts (sessions st) with
    | Some session => (text, project_dir session, Some (session_id session))
    | None =>
        let '(project_dir, prompt) := resolve_project_and_prompt w text in
        (prompt, project_dir, None)
    end
  else
    let '(project_dir, prompt) := resolve_project_and_prompt w text in
    (prompt, project_dir, None).

(** The world in which the agent ends in one way. *)
Definition answering (w : world) (result : subprocess_result) : world :=
  {| thinking_ts := thinking_ts w;
     agent := fun _ _ _ => result;
     resolve_project_and_prompt := resolve_project_and_prompt w;
     now := now w;
     now' := now' w |}.

(** An agent that prints a list. *)
Definition prints_a_list : agent_ends :=
  fun _ _ _ => EndCompleted "[1, 2]" "" NotAnObject.

End AgentOutput.

(* ===================================================================== *)
(** * Properties *)
(* ===================================================================== *)

(** ** Strings *)

Module StrFacts.
Import Str.

Lemma prefix_app (p s : string) :
  String.prefix p s = true <-> exists rest, s = p +:+ rest.
Proof.
  revert s; induction p as [|c p IH]; intros s; simpl.
  - split; [intros _; exists s; reflexivity | destruct s; reflexivity].
  - destruct s as [|d s]; simpl.
    + split; [discriminate | intros [rest H]; discriminate].
    + destruct (ascii_dec c d) as [->|Hne].
      * rewrite IH. split; intros [rest H]; exists rest.
        -- now rewrite H.
        -- now injection H.
      * split; [discriminate | intros [rest H]; injection H; congruence].
Qed.

Lemma append_cons (c : ascii) (s t : string) :
  String c s +:+ t = String c (s +:+ t).
Proof. reflexivity. Qed.

Lemma append_assoc (s t u : string) : (s +:+ t) +:+ u = s +:+ t +:+ u.
Proof.
  induction s as [|c s IH]; [reflexivity|].
  now rewrite !append_cons, IH.
Qed.

Lemma lstrip_idem (s : string) : lstrip (lstrip s) = lstrip s.
Proof.
  induction s as [|c s IH]; simpl; [reflexivity|].
  destruct (is_space c) eqn:E; [exact IH|]. simpl. now rewrite E.
Qed.

Lemma rstrip_idem (s : string) : rstrip (rstrip s) = rstrip s.
Proof.
  induction s as [|c s IH]; simpl; [reflexivity|].
  destruct (rstrip s) as [|d r] eqn:E.
  - destruct (is_space c) eqn:Ec; simpl; [reflexivity|]. now rewrite Ec.
  - change (rstrip (String c (String d r))) with
      (match rstrip (String d r) with
       | EmptyString => if is_space c then EmptyString else String c EmptyString
       | r' => String c r'
       end).
    now rewrite IH.
Qed.

Lemma rstrip_lstrip (s : string) : rstrip (lstrip s) = lstrip (rstrip s).
Proof.
  induction s as [|c s IH]; simpl; [reflexivity|].
  destruct (is_space c) eqn:Ec.
  - rewrite IH. destruct (rstrip s) as [|d r]; simpl; [reflexivity|].
    now rewrite Ec.
  - change (rstrip (String c s)) with
      (match rstrip s with
       | EmptyString => if is_space c then EmptyString else String c EmptyString
       | r' => String c r'
       end).
    destruct (rstrip s) as [|d r]; rewrite ?Ec; simpl; now rewrite Ec.
Qed.

Lemma strip_idem (s : string) : strip (strip s) = strip s.
Proof.
  unfold strip. now rewrite rstrip_lstrip, rstrip_idem, lstrip_idem.
Qed.

Lemma truthy_false (s : string) : truthy s = false <-> s = "".
Proof.
  unfold truthy. rewrite negb_false_iff. apply String.eqb_eq.
Qed.

Lemma truthy_true (s : string) : truthy s = true <-> s <> "".
Proof.
  unfold truthy. rewrite negb_true_iff. apply String.eqb_neq.
Qed.

End StrFacts.

(** ** Command classification *)

Module ClassifierFacts.
Import Str StrFacts Classifier.

Section WithEngine.
Context {engine : RegexEngine}.

Lemma for_return_existsb {A R} (items : list A) (test : A -> bool) (v : R) :
  for_return items test v = if existsb test items then Some v else None.
Proof.
  induction items as [|x items IH]; simpl; [reflexivity|].
  destruct (test x); [reflexivity | exact IH].
Qed.

Lemma matches_some_existsb (ps : list regex) (s : string) :
  existsb (fun p => re_search p s) ps = true <-> matches_some ps s.
Proof. unfold matches_some. now rewrite existsb_exists. Qed.

Lemma has_prefix_spec (s p : string) :
  has_prefix s p = true <-> s = p \/ exists rest, s = p +:+ " " +:+ rest.
Proof.
  unfold has_prefix, startswith.
  rewrite orb_true_iff, String.eqb_eq, prefix_app.
  split; (intros [H|[rest H]]; [now left | right; exists rest]).
  - now rewrite H, append_assoc.
  - now rewrite H, append_assoc.
Qed.

Lemma begins_with_some_existsb (prefixes : list string) (s : string) :
  existsb (fun p => has_prefix s p) prefixes = true
  <-> begins_with_some prefixes s.
Proof.
  unfold begins_with_some. rewrite existsb_exists.
  split; intros [p [Hin H]]; exists p; split; auto; now apply has_prefix_spec.
Qed.

(** [_classify_single] as a chain of tests. *)
Lemma classify_single_tests (seg : string) (rules : command_rules) :
  _classify_single seg rules =
  let s := strip seg in
  if existsb (fun p => re_search p s) (deny_patterns rules) then Deny
  else if existsb (fun p => has_prefix s p) (risky_prefixes rules) then Risky
  else if existsb (fun p => re_search p s) (risky_patterns rules) then Risky
  else if existsb (fun p => has_prefix s p) (safe_prefixes rules) then Safe
  else Risky.
Proof.
  unfold _classify_single, deny_patterns, risky_prefixes, risky_patterns,
    safe_prefixes.
  cbv zeta. rewrite !for_return_existsb.
  repeat match goal with
         | |- context [existsb ?f ?l] => destruct (existsb f l); try reflexivity
         end.
Qed.

Lemma classify_single_deny (seg : string) (rules : command_rules) :
  _classify_single seg rules = Deny
  <-> matches_some (deny_patterns rules) (strip seg).
Proof.
  rewrite classify_single_tests. cbv zeta.
  rewrite <- matches_some_existsb.
  repeat match goal with
         | |- context [existsb ?f ?l] => destruct (existsb f l)
         end; split; congruence.
Qed.

Lemma split_segments_stripped (cmd s : string) :
  In s (_split_chained_commands cmd) -> strip s = s.
Proof.
  unfold _split_chained_commands. intros H.
  apply in_map_iff in H as [x [<- _]]. apply strip_idem.
Qed.

(** The loop stops at the first segment rated deny. *)
Lemma classify_segments_first_deny (rules : command_rules)
  (segments : list string) (worst : verdict) :
  Exists (fun s => _classify_single s rules = Deny) segments ->
  exists pre s post,
    segments = pre ++ s :: post
    /\ Forall (fun x => _classify_single x rules <> Deny) pre
    /\ _classify_single s rules = Deny
    /\ classify_segments segments worst rules = (Deny, pre ++ [s]).
Proof.
  revert worst. induction segments as [|x rest IH]; intros worst Hex.
  - inversion Hex.
  - destruct (verdict_eq_dec (_classify_single x rules) Deny) as [Hd|Hnd].
    + exists [], x, rest. simpl. rewrite Hd. auto.
    + assert (Hrest : Exists (fun s => _classify_single s rules = Deny) rest)
        by (inversion Hex; subst; [contradiction | assumption]).
      simpl. destruct (_classify_single x rules) eqn:Ex; [| |congruence].
      * destruct (IH worst Hrest) as (pre & s & post & -> & Hpre & Hs & Hrun).
        exists (x :: pre), s, post. rewrite Hrun.
        repeat split; auto. constructor; [congruence | assumption].
      * destruct (IH Risky Hrest) as (pre & s & post & -> & Hpre & Hs & Hrun).
        exists (x :: pre), s, post. rewrite Hrun.
        repeat split; auto. constructor; [congruence | assumption].
Qed.

(** C1. A command with a segment that a deny pattern matches is
    classified deny, whatever the other segments are, and the loop
    returns at the first segment rated deny: the segments scored are
    those up to and including it, none of the earlier ones being
    rated deny. *)
Theorem classify_command_deny_wins
  (f : rules_file) (rules : command_rules) (cmd s : string) (p : regex) :
  load_command_rules f = Some rules ->
  In s (_split_chained_commands cmd) ->
  In p (deny_patterns rules) ->
  re_search p s = true ->
  classify_command f cmd = Deny
  /\ exists pre d post,
       _split_chained_commands cmd = pre ++ d :: post
       /\ Forall (fun x => _classify_single x rules <> Deny) pre
       /\ matches_some (deny_patterns rules) d
       /\ scored_segments f cmd = pre ++ [d].
Proof.
  intros Hload Hs Hp Hm.
  assert (Hex : Exists (fun x => _classify_single x rules = Deny)
                  (_split_chained_commands cmd)).
  { apply List.Exists_exists. exists s. split; [assumption|].
    apply classify_single_deny. exists p.
    rewrite (split_segments_stripped cmd s Hs). auto. }
  destruct (classify_segments_first_deny rules _ Safe Hex)
    as (pre & d & post & Hsplit & Hpre & Hd & Hrun).
  unfold classify_command, scored_segments, classify_run.
  rewrite Hload, Hrun. simpl. split; [reflexivity|].
  exists pre, d, post. repeat split; auto.
  apply classify_single_deny in Hd.
  rewrite (split_segments_stripped cmd d) in Hd; [assumption|].
  rewrite Hsplit. apply in_elt.
Qed.

(** C2. When the rules file is missing or is not valid JSON, every
    command is classified risky. *)
Theorem classify_command_fail_closed (f : rules_file) (cmd : string) :
  f = NoRulesFile \/ f = InvalidJson ->
  classify_command f cmd = Risky.
Proof. intros [-> | ->]; reflexivity. Qed.

(** A rules file that holds [null] is treated the same way. *)
Lemma classify_command_null_rules (cmd : string) :
  classify_command (RulesDocument JsonNull) cmd = Risky.
Proof. reflexivity. Qed.

(** Whenever no rules are loaded the verdict is risky and no segment
    is scored. *)
Lemma classify_command_unloaded (f : rules_file) (cmd : string) :
  load_command_rules f = None ->
  classify_command f cmd = Risky /\ scored_segments f cmd = [].
Proof.
  intros H. unfold classify_command, scored_segments, classify_run.
  now rewrite H.
Qed.

(** C3. One segment is classified by the checks in this order: a
    deny pattern that matches gives deny; else a risky prefix that
    the segment equals or extends by a space gives risky; else a
    risky pattern that matches gives risky; else a safe prefix gives
    safe; else the segment is risky.  The patterns under "safe" are
    never consulted. *)
Theorem classify_single_order (rules : command_rules) (seg : string) :
  (forall v,
      classification_order rules (strip seg) v
      <-> _classify_single seg rules = v)
  /\ (forall ps,
        _classify_single seg (with_safe_patterns ps rules)
        = _classify_single seg rules).
Proof.
  split.
  - intros v. rewrite classify_single_tests. cbv zeta.
    pose proof (matches_some_existsb (deny_patterns rules) (strip seg)) as H1.
    pose proof (begins_with_some_existsb (risky_prefixes rules) (strip seg)) as H2.
    pose proof (matches_some_existsb (risky_patterns rules) (strip seg)) as H3.
    pose proof (begins_with_some_existsb (safe_prefixes rules) (strip seg)) as H4.
    destruct (existsb _ (deny_patterns rules)) eqn:E1;
      destruct (existsb _ (risky_prefixes rules)) eqn:E2;
      destruct (existsb _ (risky_patterns rules)) eqn:E3;
      destruct (existsb _ (safe_prefixes rules)) eqn:E4;
      (split;
       [ intros Hc; inversion Hc; subst; try reflexivity;
         repeat match goal with
                | H : ~ _, I : _ <-> _ |- _ =>
                    exfalso; apply H; apply I; reflexivity
                | H : matches_some _ _, I : false = true <-> _ |- _ =>
                    apply I in H; discriminate
                | H : begins_with_some _ _, I : false = true <-> _ |- _ =>
                    apply I in H; discriminate
                end
       | intros <- ]).
    all: try (apply order_deny; apply H1; reflexivity).
    all: try (apply order_risky_prefix;
              [ intros X; apply H1 in X; discriminate
              | apply H2; reflexivity ]).
    all: try (apply order_risky_pattern;
              [ intros X; apply H1 in X; discriminate
              | intros X; apply H2 in X; discriminate
              | apply H3; reflexivity ]).
    all: try (apply order_safe_prefix;
              [ intros X; apply H1 in X; discriminate
              | intros X; apply H2 in X; discriminate
              | intros X; apply H3 in X; discriminate
              | apply H4; reflexivity ]).
    all: apply order_default;
      [ intros X; apply H1 in X; discriminate
      | intros X; apply H2 in X; discriminate
      | intros X; apply H3 in X; discriminate
      | intros X; apply H4 in X; discriminate ].
  - intros ps. rewrite !classify_single_tests. reflexivity.
Qed.

Lemma filter_all_false {A} (test : A -> bool) (l : list A) :
  Forall (fun x => test x = false) l -> filter (fun x => test x) l = [].
Proof.
  induction 1 as [|x l Hx _ IH]; [reflexivity|].
  rewrite filter_cons, IH. destruct (decide (test x)) as [Ht|]; [|reflexivity].
  rewrite Hx in Ht. contradiction.
Qed.

(** C10, as the code has it.  A command whose pieces are all empty once
    split and stripped (whitespace, bare operators) has no segment, and
    no segment is ever scored.  With the rules loaded the loop body
    never runs and the initial verdict, safe, is returned; when the rules
    cannot be loaded the same command is risky, as every command is. *)
Theorem classify_command_no_segments (f : rules_file) (cmd : string) :
  Forall (fun piece => strip piece = "") (re_split cmd) ->
  _split_chained_commands cmd = []
  /\ scored_segments f cmd = []
  /\ (forall rules,
        load_command_rules f = Some rules -> classify_command f cmd = Safe)
  /\ (load_command_rules f = None -> classify_command f cmd = Risky).
Proof.
  intros Hall.
  assert (Hnil : _split_chained_commands cmd = []).
  { unfold _split_chained_commands. cbv zeta.
    rewrite (filter_all_false (fun s => truthy (strip s))); [reflexivity|].
    eapply List.Forall_impl; [|exact Hall]. intros piece Hp. simpl in Hp.
    now apply truthy_false. }
  unfold classify_command, scored_segments, classify_run.
  rewrite Hnil. split; [reflexivity|].
  destruct (load_command_rules f) as [rules|]; simpl;
    (split; [reflexivity|]); split; congruence.
Qed.

End WithEngine.

(** *** The properties at concrete rules *)

#[local] Existing Instance literal_engine.
Import Samples.

Example classify_git_status :
  classify_command sample_file "git status" = Safe.
Proof. reflexivity. Qed.

Example classify_rm_rf :
  classify_command sample_file "rm -rf /" = Deny.
Proof. reflexivity. Qed.

Example classify_push_then_rm :
  classify_command sample_file "git push && rm -rf /tmp/x" = Deny.
Proof. reflexivity. Qed.

Example classify_rm_then_status_scores_one :
  scored_segments sample_file "rm -rf /tmp/x; git status" = ["rm -rf /tmp/x"].
Proof. reflexivity. Qed.

Example classify_risky_before_safe :
  classify_command sample_file "git status | git push origin" = Risky.
Proof. reflexivity. Qed.

Example classify_unknown :
  classify_command sample_file "make install" = Risky.
Proof. reflexivity. Qed.

Example classify_lone_ampersand :
  _split_chained_commands "ls & ls" = ["ls & ls"].
Proof. reflexivity. Qed.

Lemma classify_command_deny_wins_witness :
  load_command_rules sample_file = Some sample_rules
  /\ In "rm -rf /tmp/x" (_split_chained_commands "git push && rm -rf /tmp/x")
  /\ In "rm -rf" (deny_patterns sample_rules)
  /\ re_search (RegexEngine := literal_engine) "rm -rf" "rm -rf /tmp/x" = true
  /\ classify_command sample_file "git push && rm -rf /tmp/x" = Deny.
Proof.
  assert (H1 : load_command_rules sample_file = Some sample_rules)
    by reflexivity.
  assert (H2 : In "rm -rf /tmp/x"
                 (_split_chained_commands "git push && rm -rf /tmp/x"))
    by (vm_compute; auto).
  assert (H3 : In "rm -rf" (deny_patterns sample_rules))
    by (vm_compute; auto).
  assert (H4 : re_search (RegexEngine := literal_engine)
                 "rm -rf" "rm -rf /tmp/x" = true)
    by reflexivity.
  refine (conj H1 (conj H2 (conj H3 (conj H4 _)))).
  exact (proj1 (classify_command_deny_wins sample_file sample_rules
                  "git push && rm -rf /tmp/x" "rm -rf /tmp/x" "rm -rf"
                  H1 H2 H3 H4)).
Defined.

Lemma classify_command_fail_closed_witness :
  (@NoRulesFile literal_engine = NoRulesFile
   \/ @NoRulesFile literal_engine = InvalidJson)
  /\ classify_command (@NoRulesFile literal_engine) "git status" = Risky.
Proof.
  split; [left; reflexivity|].
  apply classify_command_fail_closed. left; reflexivity.
Defined.

Lemma classify_command_no_segments_witness :
  Forall (fun piece => strip piece = "") (re_split " ; ")
  /\ classify_command sample_file " ; " = Safe.
Proof.
  assert (H : Forall (fun piece => strip piece = "") (re_split " ; "))
    by (vm_compute; repeat constructor).
  refine (conj H _).
  exact (proj1 (proj2 (proj2 (classify_command_no_segments sample_file " ; " H)))
           sample_rules eq_refl).
Defined.

(** The commands the claim names: whitespace and bare operators. *)
Example no_segments_examples :
  map (classify_command sample_file) [" "; ";"; "|"; "&&"; "||"; " ; | && "]
  = [Safe; Safe; Safe; Safe; Safe; Safe].
Proof. reflexivity. Qed.

(** C10 as stated fails when the rules cannot be loaded: the command of
    a bare operator is not empty and has no segment, and it is risky. *)
Lemma no_segments_without_rules :
  " ; " <> ""
  /\ _split_chained_commands " ; " = []
  /\ load_command_rules (@NoRulesFile literal_engine) = None
  /\ classify_command (@NoRulesFile literal_engine) " ; " = Risky
  /\ classify_command (@NoRulesFile literal_engine) " ; " <> Safe.
Proof.
  split; [discriminate|]. split; [reflexivity|]. split; [reflexivity|].
  split; [reflexivity|discriminate].
Qed.

End ClassifierFacts.

(** ** The two decision channels *)

Module ReplyFacts.
Import Str StrFacts Approval.

Lemma is_space_lower (c : ascii) : is_space (lower_char c) = is_space c.
Proof. destruct c as [[] [] [] [] [] [] [] []]; reflexivity. Qed.

Lemma lstrip_lower (s : string) : lstrip (lower s) = lower (lstrip s).
Proof.
  induction s as [|c s IH]; simpl; [reflexivity|].
  rewrite is_space_lower. destruct (is_space c); [exact IH | reflexivity].
Qed.

Lemma rstrip_lower (s : string) : rstrip (lower s) = lower (rstrip s).
Proof.
  induction s as [|c s IH]; simpl; [reflexivity|].
  rewrite IH, is_space_lower.
  destruct (rstrip s); simpl; [destruct (is_space c)|]; reflexivity.
Qed.

Lemma strip_lower (s : string) : strip (lower s) = lower (strip s).
Proof. unfold strip. now rewrite rstrip_lower, lstrip_lower. Qed.

(** The second [strip] of [text.lower().strip()] changes nothing. *)
Lemma text_lower_eq (m : message) :
  strip (lower (reply_text m)) = lower (reply_text m).
Proof. unfold reply_text. now rewrite strip_lower, strip_idem. Qed.

Lemma keyword_hit_spec (t k : string) :
  keyword_hit t k = true
  <-> t = k \/ (exists rest, t = k +:+ " " +:+ rest)
      \/ (exists rest, t = k +:+ "," +:+ rest).
Proof.
  unfold keyword_hit, startswith.
  rewrite !orb_true_iff, String.eqb_eq, !prefix_app.
  split.
  - intros [[H|[rest H]]|[rest H]]; [now left | right; left | right; right];
      exists rest; now rewrite H, append_assoc.
  - intros [H|[[rest H]|[rest H]]]; [now left; left | left; right | right];
      exists rest; now rewrite H, append_assoc.
Qed.

Lemma scan_keywords_spec (ks : list string) (t : string) :
  scan_keywords ks t = true <-> exists k, In k ks /\ keyword_hit t k = true.
Proof.
  induction ks as [|k ks IH]; simpl.
  - split; [discriminate | intros [k [[] _]]].
  - destruct (keyword_hit t k) eqn:E.
    + split; [intros _; exists k; auto | reflexivity].
    + rewrite IH. split.
      * intros [k' [Hin H]]. exists k'. auto.
      * intros [k' [[<-|Hin] H]]; [congruence | exists k'; auto].
Qed.

(** [APPROVE_KEYWORDS] is a set: the order in which the loop meets the
    keywords does not change what it finds. *)
Lemma scan_keywords_order (ks ks' : list string) (t : string) :
  (forall k, In k ks <-> In k ks') ->
  scan_keywords ks t = scan_keywords ks' t.
Proof.
  intros Hsame. apply eq_true_iff_eq. rewrite !scan_keywords_spec.
  split; intros [k [Hin H]]; exists k; (split; [now apply Hsame | exact H]).
Qed.

Lemma affirmative_scan (m : message) :
  scan_keywords APPROVE_KEYWORDS (strip (lower (reply_text m))) = true
  <-> affirmative (reply_text m).
Proof.
  rewrite text_lower_eq, scan_keywords_spec. unfold affirmative.
  split; intros [k [Hin H]]; exists k; (split; [exact Hin|]);
    now apply keyword_hit_spec.
Qed.

Lemma is_bot_user_spec (bot : option string) (m : message) :
  is_bot_user bot (get (user m) "") = true <-> own_reply bot m.
Proof.
  unfold is_bot_user, own_reply. destruct bot as [b|].
  - rewrite andb_true_iff, truthy_true, String.eqb_eq. split.
    + intros [Hb Hu]. exists b. auto.
    + intros [b' [Hb' [Hne Hu]]]. injection Hb' as <-. auto.
  - split; [discriminate | intros [b [Hb _]]; discriminate].
Qed.

Lemma is_bot_message_spec (m : message) :
  is_bot_message m = true <-> bot_subtype m.
Proof.
  unfold is_bot_message, bot_subtype. destruct (subtype m) as [t|].
  - rewrite String.eqb_eq. split; [now intros -> | now intros [= ->]].
  - split; discriminate.
Qed.

Lemma scan_replies_skip (bot : option string) (m : message) (rest : list message) :
  skipped bot m -> scan_replies (m :: rest) bot = scan_replies rest bot.
Proof.
  intros Hs. simpl.
  destruct (is_bot_user bot (get (user m) "")) eqn:E1; [reflexivity|].
  destruct (is_bot_message m) eqn:E2; [reflexivity|].
  destruct (truthy (strip (get (text m) ""))) eqn:E3; [|reflexivity].
  exfalso. destruct Hs as [H|[H|H]].
  - apply is_bot_user_spec in H. congruence.
  - apply is_bot_message_spec in H. congruence.
  - apply truthy_true in E3. contradiction.
Qed.

Lemma scan_replies_decides (bot : option string) (m : message)
  (rest : list message) :
  ~ skipped bot m ->
  scan_replies (m :: rest) bot =
  if scan_keywords APPROVE_KEYWORDS (strip (lower (reply_text m)))
  then (Some Allow, Some (reply_text m))
  else (Some Deny, Some (reply_text m)).
Proof.
  intros Hn. simpl.
  destruct (is_bot_user bot (get (user m) "")) eqn:E1.
  { exfalso. apply Hn. left. now apply is_bot_user_spec. }
  destruct (is_bot_message m) eqn:E2.
  { exfalso. apply Hn. right. left. now apply is_bot_message_spec. }
  destruct (truthy (strip (get (text m) ""))) eqn:E3; [reflexivity|].
  exfalso. apply Hn. right. right. now apply truthy_false.
Qed.

Lemma skipped_dec (bot : option string) (m : message) :
  {skipped bot m} + {~ skipped bot m}.
Proof.
  destruct (is_bot_user bot (get (user m) "")) eqn:E1.
  { left. left. now apply is_bot_user_spec. }
  destruct (is_bot_message m) eqn:E2.
  { left. right. left. now apply is_bot_message_spec. }
  destruct (truthy (reply_text m)) eqn:E3.
  - right. intros [H|[H|H]].
    + apply is_bot_user_spec in H. congruence.
    + apply is_bot_message_spec in H. congruence.
    + apply truthy_true in E3. contradiction.
  - left. right. right. now apply truthy_false.
Qed.

Lemma scan_replies_prefix (bot : option string) (pre rest : list message) :
  Forall (skipped bot) pre ->
  scan_replies (pre ++ rest) bot = scan_replies rest bot.
Proof.
  induction 1 as [|m pre Hm _ IH]; [reflexivity|].
  rewrite <- app_comm_cons, scan_replies_skip; assumption.
Qed.

(** The loop finds the decision of the specification. *)
Lemma scan_replies_decision (bot : option string) (replies : list message) :
  reply_decision bot replies (scan_replies replies bot).
Proof.
  induction replies as [|m rest IH].
  - apply decision_none. constructor.
  - destruct (skipped_dec bot m) as [Hs|Hn].
    + rewrite scan_replies_skip by assumption.
      inversion IH as [r Hall|pre post m' Hpre Hm' Haff Heq|pre post m' Hpre Hm' Hneg Heq];
        subst.
      * apply decision_none. constructor; assumption.
      * rewrite app_comm_cons. apply decision_allow; auto.
      * rewrite app_comm_cons. apply decision_deny; auto.
    + rewrite scan_replies_decides by assumption.
      destruct (scan_keywords _ _) eqn:E.
      * apply (decision_allow bot [] rest m); auto. now apply affirmative_scan.
      * apply (decision_deny bot [] rest m); auto.
        intros H. apply affirmative_scan in H. congruence.
Qed.

(** The decision of the specification is the one the loop finds. *)
Lemma reply_decision_scan (bot : option string) (replies : list message)
  (r : option decision * option string) :
  reply_decision bot replies r -> scan_replies replies bot = r.
Proof.
  intros H. destruct H as [replies Hall|pre post m Hpre Hm Haff|pre post m Hpre Hm Hneg].
  - rewrite <- (app_nil_r replies). now rewrite scan_replies_prefix.
  - rewrite scan_replies_prefix, scan_replies_decides by assumption.
    apply affirmative_scan in Haff. now rewrite Haff.
  - rewrite scan_replies_prefix, scan_replies_decides by assumption.
    destruct (scan_keywords _ _) eqn:E; [|reflexivity].
    apply affirmative_scan in E. contradiction.
Qed.

(** C4. [check_thread_replies] passes over the first message (the
    request), the bot's own replies, replies of the bot subtype and
    replies whose text is empty, and decides on the first reply that
    remains: allow with the reply text when the text, case ignored,
    equals an affirmative keyword or starts with one followed by a space
    or a comma; deny with the reply text otherwise; and no decision when
    no reply remains. *)
Theorem check_thread_replies_first_human
  (msgs : list message) (bot_user_id : option string)
  (r : option decision * option string) :
  reply_decision bot_user_id (tl msgs) r
  <-> check_thread_replies {| replies_ok := true; messages := msgs |}
        bot_user_id = r.
Proof.
  unfold check_thread_replies. simpl. split.
  - apply reply_decision_scan.
  - intros <-. apply scan_replies_decision.
Qed.

(** When Slack answers with an error there is no decision. *)
Lemma check_thread_replies_not_ok (msgs : list message) (bot : option string) :
  check_thread_replies {| replies_ok := false; messages := msgs |} bot
  = (None, None).
Proof. reflexivity. Qed.

Example reply_yes_allows :
  check_thread_replies
    {| replies_ok := true;
       messages :=
         [ {| user := Some "UBOT"; subtype := None; text := Some "request" |};
           {| user := Some "UBOT"; subtype := None; text := Some "thinking" |};
           {| user := Some "U1"; subtype := Some "bot_message"; text := Some "yes" |};
           {| user := Some "U2"; subtype := None; text := Some "   " |};
           {| user := Some "U3"; subtype := None; text := Some " Yes, go on " |};
           {| user := Some "U4"; subtype := None; text := Some "no" |} ] |}
    (Some "UBOT")
  = (Some Allow, Some "Yes, go on").
Proof. reflexivity. Qed.

Example reply_yesterday_denies :
  check_thread_replies
    {| replies_ok := true;
       messages :=
         [ {| user := Some "UBOT"; subtype := None; text := Some "request" |};
           {| user := Some "U3"; subtype := None; text := Some "yesterday" |} ] |}
    (Some "UBOT")
  = (Some Deny, Some "yesterday").
Proof. reflexivity. Qed.

Example reply_none :
  check_thread_replies
    {| replies_ok := true;
       messages :=
         [ {| user := Some "U1"; subtype := None; text := Some "yes" |} ] |}
    None
  = (None, None).
Proof. reflexivity. Qed.

End ReplyFacts.

(** ** The approval session *)

Module SessionFacts.
Import Str StrFacts Approval.

Lemma Qltb_true (a b : Q) : Qltb a b = true <-> (a < b)%Q.
Proof.
  unfold Qltb. rewrite negb_true_iff. split.
  - intros H. apply Qnot_le_lt. intros Hle.
    apply Qle_bool_iff in Hle. congruence.
  - intros H. destruct (Qle_bool b a) eqn:E; [|reflexivity].
    apply Qle_bool_iff in E. lra.
Qed.

Lemma Qltb_false (a b : Q) : Qltb a b = false <-> (b <= a)%Q.
Proof.
  unfold Qltb. rewrite negb_false_iff. apply Qle_bool_iff.
Qed.

Lemma budget_150 : budget 150 = 300%Q.
Proof. reflexivity. Qed.

Lemma filter_sleeps (test : event -> bool) (n : nat) :
  test (Sleep POLL_INTERVAL) = false ->
  List.filter test (repeat (Sleep POLL_INTERVAL) n) = [].
Proof. intros H. induction n as [|n IH]; simpl; [|rewrite H]; auto. Qed.

Lemma updates_of_closing (ts updated : string) (out : outcome) :
  terminal out -> updates_of ts (closing_events ts updated out) = 1%nat.
Proof.
  unfold updates_of. destruct out; simpl; try contradiction;
    intros _; now rewrite String.eqb_refl.
Qed.

Lemma clears_of_closing (ts updated : string) (out : outcome) :
  terminal out ->
  clears_of (closing_events ts updated out)
  = match out with TimedOut => 0%nat | _ => 1%nat end.
Proof. destruct out; simpl; try contradiction; reflexivity. Qed.

(** The log of a session that starts in [st]: the sleeps of the loop,
    then the closing events. *)
Lemma log_of_sleeps (st : hook_state) (n : nat) (tail : list event) :
  (log st ++ [Sleep POLL_INTERVAL]) ++ repeat (Sleep POLL_INTERVAL) n ++ tail
  = log st ++ repeat (Sleep POLL_INTERVAL) (S n) ++ tail.
Proof. now rewrite <- app_assoc. Qed.

Ltac close_now out updated :=
  eexists out, _, 1%nat, updated;
  split; [reflexivity|];
  split; [lia|];
  split; [exact I|];
  split; [simpl; rewrite <- ?app_assoc; reflexivity | reflexivity].

(** The loop ends: every iteration that gives no decision takes at
    least [POLL_INTERVAL] of the time that is left. *)
Lemma poll_loop_ends (w : world) (ts message_text : string) :
  (forall i, (0 <= lag w i)%Q) ->
  forall (k fuel i : nat) (elapsed : Q) (st : hook_state),
    (TIMEOUT <= elapsed + budget k)%Q ->
    (k < fuel)%nat ->
    exists out st' n updated,
      poll_loop fuel w ts message_text i elapsed st = Some (out, st')
      /\ (n <= k)%nat
      /\ terminal out
      /\ log st' = log st ++ repeat (Sleep POLL_INTERVAL) n
                    ++ closing_events ts updated out
      /\ pending_file st' = pending_after out (pending_file st).
Proof.
  intros Hlag. induction k as [|k IH]; intros fuel i elapsed st Hk Hfuel;
    (destruct fuel as [|fuel]; [lia|]); simpl poll_loop;
    destruct (Qltb elapsed TIMEOUT) eqn:Et.
  - apply Qltb_true in Et. simpl in Hk. lra.
  - eexists TimedOut, _, 0%nat, _. repeat split; try reflexivity; try lia.
    simpl. now rewrite <- app_assoc.
  - destruct (check_reactions (reactions_at w i)) as [[|]|].
    + close_now (Allowed "Approved via Slack")
        (replace message_text FOOTER_TEXT ":white_check_mark: *Approved via Slack*").
    + close_now (Denied "Denied via Slack")
        (replace message_text FOOTER_TEXT ":no_entry_sign: *Denied via Slack*").
    + destruct (check_thread_replies (replies_at w i) (bot_user w))
        as [[[|]|] reply_text].
      * eexists (Allowed _), _, 1%nat, _.
        split; [reflexivity|]. split; [lia|]. split; [exact I|].
        split; [simpl; rewrite <- ?app_assoc; reflexivity | reflexivity].
      * eexists (Denied _), _, 1%nat, _.
        split; [reflexivity|]. split; [lia|]. split; [exact I|].
        split; [simpl; rewrite <- ?app_assoc; reflexivity | reflexivity].
      * destruct (IH fuel (S i) (elapsed + POLL_INTERVAL + lag w (S i))%Q
                    (emit (Sleep POLL_INTERVAL) st))
          as (out & st' & n & updated & Hrun & Hn & Hterm & Hlog & Hpend).
        { specialize (Hlag (S i)). simpl in Hk.
          unfold POLL_INTERVAL, TIMEOUT in *. lra. }
        { lia. }
        exists out, st', (S n), updated.
        split; [exact Hrun|]. split; [lia|]. split; [exact Hterm|].
        split; [|exact Hpend].
        rewrite Hlog. apply log_of_sleeps.
  - eexists TimedOut, _, 0%nat, _. repeat split; try reflexivity; try lia.
    simpl. now rewrite <- app_assoc.
Qed.

(** Without a signal the loop runs into the timeout. *)
Lemma poll_loop_quiet (w : world) (ts message_text : string) :
  (forall i, (0 <= lag w i)%Q) ->
  (forall i, no_signal w i) ->
  forall (k fuel i : nat) (elapsed : Q) (st : hook_state),
    (TIMEOUT <= elapsed + budget k)%Q ->
    (k < fuel)%nat ->
    exists st' n,
      poll_loop fuel w ts message_text i elapsed st = Some (TimedOut, st')
      /\ (n <= k)%nat
      /\ log st' = log st ++ repeat (Sleep POLL_INTERVAL) n
                    ++ [UpdateMessage ts
                          (replace message_text FOOTER_TEXT
                             ":hourglass: *Waiting for terminal approval...*");
                        Exit 0]
      /\ pending_file st' = pending_file st.
Proof.
  intros Hlag Hquiet. induction k as [|k IH]; intros fuel i elapsed st Hk Hfuel;
    (destruct fuel as [|fuel]; [lia|]); simpl poll_loop;
    destruct (Qltb elapsed TIMEOUT) eqn:Et.
  - apply Qltb_true in Et. simpl in Hk. lra.
  - eexists _, 0%nat. repeat split; try reflexivity; try lia.
    simpl. now rewrite <- app_assoc.
  - destruct (Hquiet i) as [Hr Hm]. rewrite Hr.
    destruct (check_thread_replies (replies_at w i) (bot_user w))
      as [d reply_text]. simpl in Hm. subst d.
    destruct (IH fuel (S i) (elapsed + POLL_INTERVAL + lag w (S i))%Q
                (emit (Sleep POLL_INTERVAL) st))
      as (st' & n & Hrun & Hn & Hlog & Hpend).
    { specialize (Hlag (S i)). simpl in Hk.
      unfold POLL_INTERVAL, TIMEOUT in *. lra. }
    { lia. }
    exists st', (S n).
    split; [exact Hrun|]. split; [lia|]. split; [|exact Hpend].
    rewrite Hlog. apply log_of_sleeps.
  - eexists _, 0%nat. repeat split; try reflexivity; try lia.
    simpl. now rewrite <- app_assoc.
Qed.

Lemma truthy_nonempty (s : string) : s <> "" -> truthy s = true.
Proof. apply truthy_true. Qed.

(** C5, as the code has it.  A session whose request was posted ends in
    one of the three terminal states, and what it does from the post to
    the end is: the post, the pending file saved, the sleeps of the
    loop, and the closing events.  These hold exactly one status update
    of the posted message.  After an allow or a deny the update is
    directly followed by the clearing of the pending file, which is then
    absent, and nothing of the timeout path follows; after a timeout the
    pending file is not cleared and is still the one saved. *)
Theorem terminal_transition_effects
  (w : world) (thread_ts : option string) (message_text ts : string)
  (st : hook_state) (fuel : nat) :
  (forall i, (0 <= lag w i)%Q) ->
  post_result w = Some ts ->
  ts <> "" ->
  (150 < fuel)%nat ->
  exists out st' thread n updated,
    let saved := {| msg_ts := ts; original_text := message_text |} in
    let events :=
      [PostMessage message_text thread; SavePending saved]
      ++ repeat (Sleep POLL_INTERVAL) n
      ++ closing_events ts updated out in
    approval_session fuel w thread_ts message_text st = Some (out, st')
    /\ terminal out
    /\ (n <= 150)%nat
    /\ log st' = log st ++ events
    /\ updates_of ts events = 1%nat
    /\ clears_of events = match out with TimedOut => 0%nat | _ => 1%nat end
    /\ pending_file st' = pending_after out (Some saved).
Proof.
  intros Hlag Hpost Hts Hfuel.
  unfold approval_session. rewrite Hpost, (truthy_nonempty ts Hts). simpl negb.
  cbv iota zeta.
  set (thread := match thread_ts with
                 | Some t => if truthy t then Some t else None
                 | None => None
                 end).
  set (st0 := save_pending ts message_text
                (emit (PostMessage message_text thread) st)).
  destruct (poll_loop_ends w ts message_text Hlag 150 fuel 0%nat (lag w 0) st0)
    as (out & st' & n & updated & Hrun & Hn & Hterm & Hlog & Hpend).
  { specialize (Hlag 0%nat). rewrite budget_150. unfold TIMEOUT. lra. }
  { exact Hfuel. }
  exists out, st', thread, n, updated. cbv zeta.
  split; [exact Hrun|]. split; [exact Hterm|]. split; [exact Hn|].
  split; [|split; [|split]].
  - rewrite Hlog. unfold st0. simpl. now rewrite <- !app_assoc.
  - unfold updates_of. rewrite !List.filter_app, filter_sleeps by reflexivity.
    simpl. apply (updates_of_closing ts updated out Hterm).
  - unfold clears_of. rewrite !List.filter_app, filter_sleeps by reflexivity.
    simpl. apply (clears_of_closing ts updated out Hterm).
  - exact Hpend.
Qed.

(** *** The session when a request can fail or its answer not parse *)




Import ApprovalSamples.

Lemma quiet_world_lag (i : nat) : (0 <= lag quiet_world i)%Q.
Proof. simpl. lra. Qed.

Lemma quiet_world_no_signal (i : nat) : no_signal quiet_world i.
Proof. split; reflexivity. Qed.

Lemma terminal_transition_effects_witness :
  (forall i, (0 <= lag thumbs_world i)%Q)
  /\ post_result thumbs_world = Some "1700000000.000100"
  /\ "1700000000.000100" <> ""
  /\ (150 < 151)%nat
  /\ exists out st',
       approval_session 151 thumbs_world None request_text fresh_state
       = Some (out, st')
       /\ terminal out.
Proof.
  assert (H1 : forall i, (0 <= lag thumbs_world i)%Q) by (intros i; simpl; lra).
  assert (H2 : post_result thumbs_world = Some "1700000000.000100")
    by reflexivity.
  assert (H3 : "1700000000.000100" <> "") by discriminate.
  assert (H4 : (150 < 151)%nat) by lia.
  refine (conj H1 (conj H2 (conj H3 (conj H4 _)))).
  destruct (terminal_transition_effects thumbs_world None request_text
              "1700000000.000100" fresh_state 151 H1 H2 H3 H4)
    as (out & st' & thread & n & updated & Hrun & Hterm & _).
  exists out, st'. split; assumption.
Defined.





(** The thumbs-up that comes after 300 seconds is not seen: 150 polls,
    then the timeout.  One poll earlier it would have been. *)
Example late_reaction_times_out :
  option_map (fun e => match e with
                       | Transport.Exited out st' => (Some out, length (log st'))
                       | Transport.Raised st' => (None, length (log st'))
                       end)
    (Transport.session 151 TransportSamples.late_reaction None request_text
       fresh_state)
  = Some (Some TimedOut, 154%nat).
Proof. vm_compute. reflexivity. Qed.

Lemma outage_silent (i : nat) :
  Transport.silent TransportSamples.outage (Some "UBOT") i.
Proof.
  exists Transport.not_ok_reactions,
    {| replies_ok := true; messages := [request] |}.
  repeat split; reflexivity.
Qed.


(** With no delay on top of the sleeps the session that hears nothing
    polls exactly 150 times. *)
Example outage_polls :
  option_map (fun e => match e with
                       | Transport.Exited _ st' | Transport.Raised st' =>
                           length (log st')
                       end)
    (Transport.session 151 TransportSamples.outage None request_text
       fresh_state)
  = Some 154%nat.
Proof. vm_compute. reflexivity. Qed.

(** C5 as stated fails on the timeout: the session ends, the message is
    updated once, and the pending file is neither cleared nor absent. *)
Lemma timeout_keeps_pending_file :
  exists st',
    approval_session 151 quiet_world None request_text fresh_state
    = Some (TimedOut, st')
    /\ updates_of "1700000000.000100" (log st') = 1%nat
    /\ clears_of (log st') = 0%nat
    /\ pending_file st' <> None.
Proof.
  eexists. split; [vm_compute; reflexivity|].
  split; [vm_compute; reflexivity|].
  split; [vm_compute; reflexivity|].
  discriminate.
Qed.

(** A thumbs-up at the second poll: allowed, one rewrite of the message,
    the pending file gone. *)
Example thumbs_up_allows :
  approval_session 151 thumbs_world None request_text fresh_state
  = Some (Allowed "Approved via Slack",
          {| pending_file := None;
             log :=
               [ PostMessage request_text None;
                 SavePending {| msg_ts := "1700000000.000100";
                                original_text := request_text |};
                 Sleep POLL_INTERVAL; Sleep POLL_INTERVAL;
                 UpdateMessage "1700000000.000100"
                   ("*Tool:* `Bash`"
                    +:+ String "010" ":white_check_mark: *Approved via Slack*");
                 ClearPending;
                 PrintDecision Allow "Approved via Slack";
                 Exit 0 ] |}).
Proof. reflexivity. Qed.

(** With no lag the quiet session polls exactly 150 times. *)
Example quiet_world_polls :
  option_map (fun r => length (log (snd r)))
    (approval_session 151 quiet_world None request_text fresh_state)
  = Some 154%nat.
Proof. vm_compute. reflexivity. Qed.

(** A command of bare operators is approved without a post. *)
Example bare_operators_auto_approved :
  main (engine := literal_engine) 151 "Bash" (Some " ; ")
    Samples.sample_file quiet_world None request_text fresh_state
  = Some (AutoApproved,
          {| pending_file := None;
             log := [PrintDecision Allow "Auto-approved: safe command"; Exit 0] |}).
Proof. reflexivity. Qed.

End SessionFacts.

(** ** The session table *)

Module SessionTableFacts.
Import Sessions.

Lemma fresh_true (cutoff : Q) (info : session_info) :
  fresh cutoff info = true <-> (cutoff < get (last_active info) 0)%Q.
Proof. apply SessionFacts.Qltb_true. Qed.

Lemma fresh_false (cutoff : Q) (info : session_info) :
  fresh cutoff info = false <-> (get (last_active info) 0 <= cutoff)%Q.
Proof. apply SessionFacts.Qltb_false. Qed.

(** The table [set_session] writes. *)
Lemma set_session_lookup (now now' : Q) (thread_ts sid dir : string)
  (f : sessions_file) (k : string) (info : session_info) :
  load_sessions (set_session now now' thread_ts sid dir f) !! k = Some info
  <-> fresh (now' - SESSION_MAX_AGE) info = true
      /\ ((k = thread_ts
           /\ info = {| session_id := sid; project_dir := dir;
                        last_active := Some now |})
          \/ (k ≠ thread_ts /\ load_sessions f !! k = Some info)).
Proof.
  unfold set_session. simpl.
  rewrite map_lookup_filter_Some, lookup_insert_Some. simpl.
  intuition (subst; auto).
Qed.

Lemma set_session_twice (now now' : Q) (thread_ts sid dir : string)
  (f : sessions_file) :
  set_session now now' thread_ts sid dir
    (set_session now now' thread_ts sid dir f)
  = set_session now now' thread_ts sid dir f.
Proof.
  unfold set_session, save_sessions. simpl. f_equal.
  apply map_eq. intros k. apply option_eq. intros info.
  rewrite !map_lookup_filter_Some, !lookup_insert_Some,
    map_lookup_filter_Some, lookup_insert_Some. simpl.
  intuition (subst; auto).
Qed.

(** A later call with the same arguments absorbs an earlier one when
    the clock does not run backwards. *)
Lemma set_session_absorbs (t1 t1' t2 t2' : Q) (thread_ts sid dir : string)
  (f : sessions_file) :
  (t1' <= t2')%Q ->
  set_session t2 t2' thread_ts sid dir
    (set_session t1 t1' thread_ts sid dir f)
  = set_session t2 t2' thread_ts sid dir f.
Proof.
  intros Hle. unfold set_session, save_sessions. simpl. f_equal.
  apply map_eq. intros k. apply option_eq. intros info.
  rewrite !map_lookup_filter_Some, !lookup_insert_Some,
    map_lookup_filter_Some, lookup_insert_Some. simpl.
  split; [intuition (subst; auto)|].
  intros [[[-> ->]|[Hne Hk]] Hfresh]; (split; [|exact Hfresh]); [now left|].
  right. split; [exact Hne|]. split; [now right|].
  apply fresh_true. apply fresh_true in Hfresh. lra.
Qed.

Lemma touch_session_lookup (now : Q) (thread_ts : string) (f : sessions_file)
  (k : string) :
  k ≠ thread_ts ->
  load_sessions (touch_session now thread_ts f) !! k = load_sessions f !! k.
Proof.
  intros Hne. unfold touch_session.
  destruct (load_sessions f !! thread_ts) as [info|] eqn:E; [|reflexivity].
  simpl. now rewrite lookup_insert_ne.
Qed.

Lemma touch_session_own (now : Q) (thread_ts : string) (f : sessions_file)
  (info : session_info) :
  load_sessions f !! thread_ts = Some info ->
  load_sessions (touch_session now thread_ts f) !! thread_ts
  = Some {| session_id := session_id info;
            project_dir := project_dir info;
            last_active := Some now |}.
Proof.
  intros H. unfold touch_session. rewrite H. simpl. apply lookup_insert_eq.
Qed.

Lemma touch_session_unknown (now : Q) (thread_ts : string) (f : sessions_file) :
  load_sessions f !! thread_ts = None -> touch_session now thread_ts f = f.
Proof. intros H. unfold touch_session. now rewrite H. Qed.

(** C8, as the code has it.  [set_session] stamps its entry with the
    clock and evicts by the clock.  Repeated with the same clock
    readings it changes nothing; repeated later, with a clock that did
    not run backwards, the two calls leave the table that the later call
    alone would leave.  Every table [set_session] writes holds no entry
    whose last activity is 24 hours or more before the clock reading:
    such entries of other threads are evicted and the fresher ones are
    kept.  [touch_session] writes the table without evicting: of a known
    thread it changes the last activity and nothing else, the entries of
    the other threads stay as they are, and for an unknown thread the
    file is left alone. *)
Theorem set_session_idempotent_evicts
  (now now' later later' : Q) (thread_ts sid dir : string) (f : sessions_file) :
  (now' <= later')%Q ->
  let written := set_session now now' thread_ts sid dir f in
  set_session now now' thread_ts sid dir written = written
  /\ set_session later later' thread_ts sid dir written
     = set_session later later' thread_ts sid dir f
  /\ (forall k info,
        load_sessions written !! k = Some info ->
        (now' - SESSION_MAX_AGE < get (last_active info) 0)%Q)
  /\ (forall k info,
        k ≠ thread_ts ->
        load_sessions f !! k = Some info ->
        (get (last_active info) 0 <= now' - SESSION_MAX_AGE)%Q ->
        load_sessions written !! k = None)
  /\ (forall k info,
        k ≠ thread_ts ->
        load_sessions f !! k = Some info ->
        (now' - SESSION_MAX_AGE < get (last_active info) 0)%Q ->
        load_sessions written !! k = Some info)
  /\ (forall t k,
        k ≠ thread_ts ->
        load_sessions (touch_session t thread_ts f) !! k = load_sessions f !! k)
  /\ (forall t info,
        load_sessions f !! thread_ts = Some info ->
        load_sessions (touch_session t thread_ts f) !! thread_ts
        = Some {| session_id := session_id info;
                  project_dir := project_dir info;
                  last_active := Some t |})
  /\ (forall t,
        load_sessions f !! thread_ts = None ->
        touch_session t thread_ts f = f).
Proof.
  intros Hclock. cbv zeta. split; [apply set_session_twice|].
  split; [now apply set_session_absorbs|].
  split; [|split; [|split; [|split; [|split]]]].
  - intros k info H. apply set_session_lookup in H as [H _].
    now apply fresh_true.
  - intros k info Hne Hk Hold.
    destruct (load_sessions (set_session now now' thread_ts sid dir f) !! k)
      as [info'|] eqn:E; [|reflexivity].
    apply set_session_lookup in E as [Hfresh [[-> _]|[_ Hk']]]; [congruence|].
    rewrite Hk in Hk'. injection Hk' as <-.
    apply fresh_true in Hfresh. lra.
  - intros k info Hne Hk Hnew. apply set_session_lookup.
    split; [now apply fresh_true | now right].
  - intros t k Hne. now apply touch_session_lookup.
  - intros t info. apply touch_session_own.
  - intros t. apply touch_session_unknown.
Qed.

Import SessionSamples.

(** C8 as stated fails on [touch_session]: it writes the table, and the
    session that is two days old is still in it. *)
Lemma touch_session_keeps_stale :
  let written := touch_session 200000 "1700000000.000200" two_sessions in
  load_sessions written !! "1700000000.000200"
  = Some {| session_id := "s-new"; project_dir := "/srv/b";
            last_active := Some 200000%Q |}
  /\ load_sessions written !! "1699990000.000100" = Some stale
  /\ (get (last_active stale) 0 <= 200000 - SESSION_MAX_AGE)%Q.
Proof.
  cbv zeta. split; [vm_compute; reflexivity|].
  split; [vm_compute; reflexivity|].
  vm_compute. discriminate.
Qed.

(** The same table through [set_session]: the old session is gone. *)
Example set_session_evicts_stale :
  let written :=
    set_session 200000 200000 "1700000000.000200" "s-new" "/srv/b" two_sessions in
  load_sessions written !! "1699990000.000100" = None
  /\ load_sessions written !! "1700000000.000200"
     = Some {| session_id := "s-new"; project_dir := "/srv/b";
               last_active := Some 200000%Q |}.
Proof. cbv zeta. split; vm_compute; reflexivity. Qed.

Lemma set_session_idempotent_evicts_witness :
  (100000 <= 200000)%Q
  /\ set_session 200000 200000 "1700000000.000200" "s-new" "/srv/b"
       (set_session 100000 100000 "1700000000.000200" "s-new" "/srv/b" old_only)
     = set_session 200000 200000 "1700000000.000200" "s-new" "/srv/b" old_only.
Proof.
  assert (H : (100000 <= 200000)%Q) by (vm_compute; discriminate).
  refine (conj H _).
  exact (proj1 (proj2 (set_session_idempotent_evicts 100000 100000 200000 200000
                         "1700000000.000200" "s-new" "/srv/b" old_only H))).
Defined.

(** The same call made twice while the clock moves on is not the same
    as the call made once: the entry is stamped anew, and the session
    that was fresh at the first call is stale, and gone, at the second. *)
Example set_session_repeat_moves_on :
  let once :=
    set_session 100000 100000 "1700000000.000200" "s-new" "/srv/b" old_only in
  let twice :=
    set_session 200000 200000 "1700000000.000200" "s-new" "/srv/b" once in
  load_sessions once !! "1699990000.000100" = Some stale
  /\ load_sessions twice !! "1699990000.000100" = None
  /\ load_sessions once !! "1700000000.000200"
     = Some {| session_id := "s-new"; project_dir := "/srv/b";
               last_active := Some 100000%Q |}
  /\ load_sessions twice !! "1700000000.000200"
     = Some {| session_id := "s-new"; project_dir := "/srv/b";
               last_active := Some 200000%Q |}
  /\ twice <> once.
Proof.
  cbv zeta. split; [vm_compute; reflexivity|].
  split; [vm_compute; reflexivity|].
  split; [vm_compute; reflexivity|].
  split; [vm_compute; reflexivity|].
  intros H.
  assert (X : load_sessions
                (set_session 200000 200000 "1700000000.000200" "s-new" "/srv/b"
                   (set_session 100000 100000 "1700000000.000200" "s-new"
                      "/srv/b" old_only)) !! "1699990000.000100"
              = Some stale) by (rewrite H; vm_compute; reflexivity).
  vm_compute in X. discriminate.
Qed.

End SessionTableFacts.

(** ** Handling a message *)

Module DispatcherFacts.
Import Str StrFacts Sessions Dispatcher.

(** On every path without a new session id [run_claude] hands back the
    session id it was given. *)
Lemma run_claude_keeps_id (result : subprocess_result) (sid : option string) :
  no_new_session result -> snd (run_claude result sid) = sid.
Proof.
  destruct result as [| | exc | out err parsed]; simpl; try reflexivity.
  intros [Hblank | Hparse].
  - rewrite Hblank. simpl. destruct (truthy (strip err)); reflexivity.
  - subst parsed. destruct (truthy (strip out)); simpl; [reflexivity|].
    destruct (truthy (strip err)); reflexivity.
Qed.

Lemma session_ops_emit (e : event) (st : daemon_state) :
  session_ops (log (emit e st))
  = session_ops (log st) ++ (if is_session_op e then [e] else []).
Proof.
  unfold session_ops, emit. simpl. rewrite List.filter_app. simpl.
  destruct (is_session_op e); reflexivity.
Qed.

Lemma post_chunks_step (fuel : nat) (remaining thread_ts : string)
  (st : daemon_state) :
  post_chunks (S fuel) remaining thread_ts st
  = if truthy remaining
    then post_chunks fuel (drop 4000 remaining) thread_ts
           (emit (PostMessage (take 4000 remaining) thread_ts) st)
    else st.
Proof. reflexivity. Qed.

(** Posting the response changes neither the table nor the calls on it. *)
Lemma post_chunks_sessions (fuel : nat) (remaining thread_ts : string)
  (st : daemon_state) :
  sessions (post_chunks fuel remaining thread_ts st) = sessions st
  /\ session_ops (log (post_chunks fuel remaining thread_ts st))
     = session_ops (log st).
Proof.
  revert remaining st. induction fuel as [|fuel IH]; intros remaining st;
    [now split|].
  rewrite post_chunks_step. destruct (truthy remaining); [|now split].
  destruct (IH (drop 4000 remaining)
              (emit (PostMessage (take 4000 remaining) thread_ts) st))
    as [Hs Hl].
  rewrite Hs, Hl, session_ops_emit. cbn [is_session_op].
  rewrite app_nil_r. now split.
Qed.

(** C9, as the code has it.  When the dispatcher continues an existing
    session it stores by the session id [run_claude] returns: a
    non-empty id is upserted, and only an empty or absent id makes it
    touch the existing session.  On every path on which the agent gives
    no new session id, [run_claude] returns the id it was given, that of
    the stored session. *)
Theorem continue_session_stores
  (w : world) (text thread_ts : string) (st : daemon_state)
  (session : session_info) :
  get_session thread_ts (sessions st) = Some session ->
  let sid := session_id session in
  let dir := project_dir session in
  let result := agent w text dir (Some sid) in
  let new_session_id := snd (run_claude result (Some sid)) in
  let st' := _process_message w text thread_ts true st in
  (no_new_session result -> new_session_id = Some sid)
  /\ (truthy_id new_session_id = true ->
      session_ops (log st')
      = session_ops (log st) ++ [SetSession thread_ts (get new_session_id "") dir]
      /\ sessions st'
         = set_session (now w) (now' w) thread_ts (get new_session_id "") dir
             (sessions st))
  /\ (truthy_id new_session_id = false ->
      session_ops (log st')
      = session_ops (log st) ++ [TouchSession thread_ts]
      /\ sessions st' = touch_session (now w) thread_ts (sessions st)).
Proof.
  intros Hget. cbv zeta.
  split; [apply run_claude_keeps_id|].
  unfold _process_message, call_claude. simpl sessions. rewrite Hget.
  destruct (run_claude (agent w text (project_dir session)
                          (Some (session_id session)))
              (Some (session_id session))) as [response new_id] eqn:Hrun.
  simpl snd.
  split; intros Hid; rewrite Hid;
    match goal with
    | |- context [post_chunks ?n ?r ?t ?s] =>
        destruct (post_chunks_sessions n r t s) as [Hs Hl]
    end; rewrite Hs, Hl;
    destruct (truthy_id (thinking_ts w));
    rewrite ?session_ops_emit; simpl;
    unfold session_ops; rewrite !List.filter_app; simpl;
    rewrite ?app_nil_r; auto.
Qed.

Import SessionSamples DispatcherSamples.

Lemma continue_session_stores_witness :
  get_session "1700000000.000200" (sessions before) = Some recent
  /\ session_ops (log (_process_message timeout_world "go on"
                         "1700000000.000200" true before))
     = [SetSession "1700000000.000200" "s-new" "/srv/b"].
Proof.
  assert (H : get_session "1700000000.000200" (sessions before) = Some recent)
    by (vm_compute; reflexivity).
  refine (conj H _).
  exact (proj1 (proj1 (proj2 (continue_session_stores timeout_world "go on"
                                "1700000000.000200" before recent H))
                  eq_refl)).
Defined.

(** C9 as stated fails when the agent run fails: the handler continues
    the stored session, the agent times out and gives no new session
    id, and the handler upserts the stored id; it does not touch.  The
    upsert also evicts the stale session, which a touch would keep. *)
Lemma failed_run_upserts :
  let after :=
    _process_message timeout_world "go on" "1700000000.000200" true before in
  no_new_session (agent timeout_world "go on" "/srv/b" (Some "s-new"))
  /\ log after
     = [ PostMessage ":hourglass_flowing_sand: Claude is thinking..."
           "1700000000.000200";
         RunClaude "go on" "/srv/b" (Some "s-new");
         SetSession "1700000000.000200" "s-new" "/srv/b";
         DeleteMessage "1700000100.000300";
         PostMessage ":warning: Claude timed out after 10 minutes."
           "1700000000.000200" ]
  /\ ~ In (TouchSession "1700000000.000200") (log after)
  /\ load_sessions (sessions after) !! "1699990000.000100" = None.
Proof.
  cbv zeta. split; [exact I|].
  assert (Hlog : log (_process_message timeout_world "go on"
                        "1700000000.000200" true before)
                 = [ PostMessage ":hourglass_flowing_sand: Claude is thinking..."
                       "1700000000.000200";
                     RunClaude "go on" "/srv/b" (Some "s-new");
                     SetSession "1700000000.000200" "s-new" "/srv/b";
                     DeleteMessage "1700000100.000300";
                     PostMessage ":warning: Claude timed out after 10 minutes."
                       "1700000000.000200" ])
    by (vm_compute; reflexivity).
  split; [exact Hlog|]. split.
  - rewrite Hlog. simpl. intuition discriminate.
  - vm_compute. reflexivity.
Qed.

End DispatcherFacts.

(** ** One handler per thread *)

Module SingleFlightFacts.
Import SingleFlight.

Lemma held_app (l1 l2 : list handler) : held (l1 ++ l2) = held l1 ++ held l2.
Proof. unfold held. now rewrite filter_app, map_app. Qed.

Lemma held_cons (h : handler) (l : list handler) :
  held (h :: l) = (if inside h then [thread_ts h] else []) ++ held l.
Proof.
  unfold held. rewrite filter_cons.
  destruct (inside h); destruct (decide _); simpl; congruence.
Qed.

Lemma count_processed_app (t : string) (l1 l2 : list handler) :
  count_processed t (l1 ++ l2) = count_processed t l1 + count_processed t l2.
Proof. unfold count_processed. now rewrite filter_app, length_app. Qed.

Lemma count_processed_cons (t : string) (h : handler) (l : list handler) :
  count_processed t (h :: l)
  = (if decide (thread_ts h = t) then if processed h then 1 else 0 else 0)
    + count_processed t l.
Proof.
  unfold count_processed. rewrite filter_cons.
  destruct (decide (thread_ts h = t)) as [Ht|Ht]; destruct (processed h);
    destruct (decide _) as [[? ?]|Hn]; simpl; try congruence;
    exfalso; apply Hn; auto.
Qed.

Lemma count_runs_snoc (t t' : string) (l : list string) :
  count_runs t (l ++ [t'])
  = count_runs t l + (if decide (t' = t) then 1 else 0).
Proof.
  unfold count_runs. rewrite filter_app, length_app, filter_cons.
  destruct (decide (t' = t)); reflexivity.
Qed.

(** Moving handler [i] changes its entry and no other. *)
Lemma move_split (hs : list handler) (i : nat) (h : handler) (to : pc) :
  hs !! i = Some h ->
  exists l1 l2,
    hs = l1 ++ h :: l2
    /\ move i h to hs = l1 ++ {| thread_ts := thread_ts h; at_pc := to |} :: l2.
Proof.
  intros H. exists (take i hs), (drop (S i) hs). split.
  - symmetry. now apply take_drop_middle.
  - unfold move. apply insert_take_drop. now apply lookup_lt_Some with h.
Qed.

Lemma init_invariant : invariant init.
Proof.
  unfold invariant, holding, runs_for, processed_for. simpl.
  split; [constructor|]. split; [|reflexivity].
  intros t. split; intros H; [set_solver | inversion H].
Qed.

Ltac unfold_pool :=
  unfold invariant, holding, runs_for, processed_for in *; simpl in *.

Ltac at_handler Hat :=
  rewrite ?held_app, ?held_cons in *;
  unfold inside in *; simpl in *; rewrite ?Hat in *; simpl in *.

(** The count of processed handlers when one handler moves. *)
Lemma count_processed_move (t : string) (l1 l2 : list handler) (h : handler)
  (to : pc) :
  count_processed t (l1 ++ {| thread_ts := thread_ts h; at_pc := to |} :: l2)
  + (if decide (thread_ts h = t) then if processed h then 1 else 0 else 0)
  = count_processed t (l1 ++ h :: l2)
    + (if decide (thread_ts h = t)
       then if processed {| thread_ts := thread_ts h; at_pc := to |}
            then 1 else 0
       else 0).
Proof.
  rewrite !count_processed_app, !count_processed_cons. simpl.
  destruct (decide (thread_ts h = t)); lia.
Qed.

Ltac count_moved Hruns Hat to :=
  let t := fresh "t" in
  intros t; specialize (Hruns t);
  match type of Hruns with
  | _ = count_processed _ (?l1 ++ ?h :: ?l2) =>
      pose proof (count_processed_move t l1 l2 h to) as Hmv;
      unfold processed in Hmv; simpl in Hmv; rewrite Hat in Hmv;
      rewrite ?count_runs_snoc;
      destruct (decide (thread_ts h = t)); lia
  end.

Lemma step_invariant (l : label) (p : pool) :
  invariant p -> invariant (step l p).
Proof.
  intros Hinv. destruct l as [t|i]; simpl.
  - (* a handler is started *)
    unfold_pool. destruct Hinv as (Hnd & Hact & Hruns).
    rewrite held_app, held_cons. simpl. rewrite !app_nil_r.
    split; [exact Hnd|]. split; [exact Hact|].
    intros t'. rewrite count_processed_app, count_processed_cons. simpl.
    rewrite Hruns. destruct (decide (t = t')); unfold count_processed; simpl; lia.
  - destruct (handlers p !! i) as [h|] eqn:Hi; [|exact Hinv].
    destruct (at_pc h) eqn:Hat; try exact Hinv.
    + (* the membership test *)
      destruct (decide (thread_ts h ∈ _active_threads p)) as [Hin|Hout].
      * destruct (move_split (handlers p) i h Dropped Hi)
          as (l1 & l2 & Hhs & Hmove).
        unfold_pool. rewrite Hmove. rewrite Hhs in Hinv.
        destruct Hinv as (Hnd & Hact & Hruns). at_handler Hat.
        split; [exact Hnd|]. split; [exact Hact|].
        count_moved Hruns Hat Dropped.
      * destruct (move_split (handlers p) i h Processing Hi)
          as (l1 & l2 & Hhs & Hmove).
        unfold_pool. rewrite Hmove. rewrite Hhs in Hinv.
        destruct Hinv as (Hnd & Hact & Hruns). at_handler Hat.
        assert (Hfresh : thread_ts h ∉ held l1 ++ held l2)
          by (intros X; apply Hout; now apply Hact).
        split; [|split].
        -- apply NoDup_app in Hnd as (Hn1 & Hn12 & Hn2).
           apply NoDup_app. split; [exact Hn1|]. split.
           ++ intros x Hx Hx'. apply elem_of_cons in Hx' as [->|Hx'].
              ** apply Hfresh. apply elem_of_app. now left.
              ** now apply (Hn12 x).
           ++ apply NoDup_cons. split; [|exact Hn2].
              intros X. apply Hfresh. apply elem_of_app. now right.
        -- intros t. rewrite elem_of_union, elem_of_singleton, Hact.
           rewrite !elem_of_app, elem_of_cons. tauto.
        -- count_moved Hruns Hat Processing.
    + (* _process_message *)
      destruct (move_split (handlers p) i h Leaving Hi)
        as (l1 & l2 & Hhs & Hmove).
      unfold_pool. rewrite Hmove. rewrite Hhs in Hinv.
      destruct Hinv as (Hnd & Hact & Hruns). at_handler Hat.
      split; [exact Hnd|]. split; [exact Hact|].
      count_moved Hruns Hat Leaving.
    + (* the discard *)
      destruct (move_split (handlers p) i h Done Hi)
        as (l1 & l2 & Hhs & Hmove).
      unfold_pool. rewrite Hmove. rewrite Hhs in Hinv.
      destruct Hinv as (Hnd & Hact & Hruns). at_handler Hat.
      apply NoDup_app in Hnd as (Hn1 & Hn12 & Hn2).
      apply NoDup_cons in Hn2 as (Hn2' & Hn2).
      split; [|split].
      * apply NoDup_app. split; [exact Hn1|]. split; [|exact Hn2].
        intros x Hx Hx'. apply (Hn12 x Hx). now apply elem_of_cons; right.
      * intros t. rewrite elem_of_difference, elem_of_singleton, Hact.
        rewrite !elem_of_app, elem_of_cons. split.
        -- intros [[H|[H|H]] Hne]; tauto.
        -- intros [H|H]; (split ; [tauto|]); intros ->.
           ++ apply (Hn12 (thread_ts h) H). now apply elem_of_cons; left.
           ++ contradiction.
      * count_moved Hruns Hat Done.
Qed.

Lemma run_invariant (ls : list label) (p : pool) :
  invariant p -> invariant (run ls p).
Proof.
  revert p. induction ls as [|l ls IH]; intros p Hinv; [exact Hinv|].
  apply IH. now apply step_invariant.
Qed.

(** *** Who is dropped, and how often the agent runs *)

Lemma count_where_app (test : handler -> bool) (t : string)
  (l1 l2 : list handler) :
  count_where test t (l1 ++ l2) = count_where test t l1 + count_where test t l2.
Proof. unfold count_where. now rewrite filter_app, length_app. Qed.

Lemma count_where_cons (test : handler -> bool) (t : string) (h : handler)
  (l : list handler) :
  count_where test t (h :: l)
  = (if decide (thread_ts h = t) then if test h then 1 else 0 else 0)
    + count_where test t l.
Proof.
  unfold count_where. rewrite filter_cons.
  destruct (decide (thread_ts h = t)) as [Ht|Ht]; destruct (test h);
    destruct (decide _) as [[? ?]|Hn]; simpl; try congruence;
    exfalso; apply Hn; auto.
Qed.

(** The count of the handlers that pass a test when one handler moves. *)
Lemma count_where_move (test : handler -> bool) (t : string)
  (l1 l2 : list handler) (h : handler) (to : pc) :
  count_where test t (l1 ++ {| thread_ts := thread_ts h; at_pc := to |} :: l2)
  + (if decide (thread_ts h = t) then if test h then 1 else 0 else 0)
  = count_where test t (l1 ++ h :: l2)
    + (if decide (thread_ts h = t)
       then if test {| thread_ts := thread_ts h; at_pc := to |}
            then 1 else 0
       else 0).
Proof.
  rewrite !count_where_app, !count_where_cons. simpl.
  destruct (decide (thread_ts h = t)); lia.
Qed.

(** A thread that is held has a handler that was admitted. *)
Lemma held_admitted (t : string) (hs : list handler) :
  t ∈ held hs -> 0 < count_where admitted t hs.
Proof.
  induction hs as [|h hs IH]; [intros H; inversion H|].
  rewrite held_cons, count_where_cons. intros H.
  apply elem_of_app in H as [H|H]; [|specialize (IH H); lia].
  unfold inside, admitted in *.
  destruct (at_pc h); try (inversion H; fail);
    apply list_elem_of_singleton in H; subst t;
    (destruct (decide (thread_ts h = thread_ts h)); [lia|congruence]).
Qed.

Ltac moved Hadm Hat to :=
  let t := fresh "t" in
  intros t; specialize (Hadm t);
  match type of Hadm with
  | _ < count_where _ _ (?l1 ++ ?h :: ?l2) -> _ =>
      pose proof (count_where_move dropped t l1 l2 h to) as Hd;
      pose proof (count_where_move admitted t l1 l2 h to) as Ha;
      replace (dropped h) with false in Hd
        by (unfold dropped; now rewrite Hat);
      first [ replace (admitted h) with false in Ha
                by (unfold admitted; now rewrite Hat)
            | replace (admitted h) with true in Ha
                by (unfold admitted; now rewrite Hat) ];
      let vd := eval cbv in (dropped {| thread_ts := ""; at_pc := to |}) in
      change (dropped {| thread_ts := thread_ts h; at_pc := to |})
        with vd in Hd;
      let va := eval cbv in (admitted {| thread_ts := ""; at_pc := to |}) in
      change (admitted {| thread_ts := thread_ts h; at_pc := to |})
        with va in Ha;
      destruct (decide (thread_ts h = t)); [subst t|]; lia
  end.

Lemma step_admission (l : label) (p : pool) :
  invariant p -> admission p -> admission (step l p).
Proof.
  intros Hinv Hadm. destruct l as [t|i]; simpl.
  - intros t'. specialize (Hadm t').
    unfold dropped_for, admitted_for in *. simpl.
    rewrite !count_where_app, !count_where_cons. simpl.
    unfold dropped at 2, admitted at 2. simpl.
    destruct (decide (t = t')); unfold count_where at 2 4; simpl; lia.
  - destruct (handlers p !! i) as [h|] eqn:Hi; [|exact Hadm].
    destruct (at_pc h) eqn:Hat; try exact Hadm.
    + destruct (decide (thread_ts h ∈ _active_threads p)) as [Hin|Hout].
      * destruct (move_split (handlers p) i h Dropped Hi)
          as (l1 & l2 & Hhs & Hmove).
        assert (Hheld : 0 < count_where admitted (thread_ts h) (handlers p)).
        { apply held_admitted. destruct Hinv as (_ & Hact & _).
          now apply Hact. }
        unfold admission, dropped_for, admitted_for in *. simpl.
        rewrite Hmove. rewrite Hhs in Hadm, Hheld.
        moved Hadm Hat Dropped.
      * destruct (move_split (handlers p) i h Processing Hi)
          as (l1 & l2 & Hhs & Hmove).
        unfold admission, dropped_for, admitted_for in *. simpl.
        rewrite Hmove. rewrite Hhs in Hadm.
        moved Hadm Hat Processing.
    + destruct (move_split (handlers p) i h Leaving Hi)
        as (l1 & l2 & Hhs & Hmove).
      unfold admission, dropped_for, admitted_for in *. simpl.
      rewrite Hmove. rewrite Hhs in Hadm.
      moved Hadm Hat Leaving.
    + destruct (move_split (handlers p) i h Done Hi)
        as (l1 & l2 & Hhs & Hmove).
      unfold admission, dropped_for, admitted_for in *. simpl.
      rewrite Hmove. rewrite Hhs in Hadm.
      moved Hadm Hat Done.
Qed.

Lemma run_admission (ls : list label) (p : pool) :
  invariant p -> admission p -> admission (run ls p).
Proof.
  revert p. induction ls as [|l ls IH]; intros p Hinv Hadm; [exact Hadm|].
  apply IH; [now apply step_invariant | now apply step_admission].
Qed.

Lemma init_admission : admission init.
Proof. intros t. unfold dropped_for, count_where. simpl. lia. Qed.

(** Once every handler has returned, a handler was dropped or has run
    the agent. *)
Lemma returned_counts (t : string) (hs : list handler) :
  Forall (fun h => returned h = true) hs ->
  count_where (fun _ => true) t hs
  = count_processed t hs + count_where dropped t hs
  /\ count_where admitted t hs = count_processed t hs.
Proof.
  induction 1 as [|h hs Hh _ [IH1 IH2]]; [split; reflexivity|].
  rewrite !count_where_cons, count_processed_cons, IH1, IH2.
  unfold returned, dropped, admitted, processed in *.
  destruct (decide (thread_ts h = t)); destruct (at_pc h);
    try discriminate; split; lia.
Qed.

(** C7. However the handlers are started and interleaved, no thread has
    two handlers inside [_process_message] at once.  A handler that
    arrives while another handler of its thread is inside returns at the
    membership test, and nothing of it is kept: the pool is otherwise
    unchanged and the handler never moves again.  A handler that arrives
    for a thread that nobody holds is admitted; an admitted handler runs
    the agent once, for its own thread, and then gives the thread up; a
    handler that has returned does nothing more.  So the agent has run
    for a thread exactly as often as a handler of that thread was
    admitted and ran it, a message is dropped only on behalf of an
    admitted handler, and once every handler has returned the agent has
    run once for each handler that was not dropped, hence at least once
    for every thread that had a message: of two overlapping messages of
    a thread, exactly one leads to an agent run. *)
Theorem one_handler_per_thread (ls : list label) :
  let p := run ls init in
  NoDup (holding p)
  /\ (forall j h,
        handlers p !! j = Some h ->
        at_pc h = AtEntry ->
        thread_ts h ∈ holding p ->
        let p' := step (Run j) p in
        handlers p' !! j = Some {| thread_ts := thread_ts h; at_pc := Dropped |}
        /\ holding p' = holding p
        /\ invoked p' = invoked p
        /\ _active_threads p' = _active_threads p
        /\ forall l, step l (step (Run j) p') = step l p')
  /\ (forall j h,
        handlers p !! j = Some h ->
        at_pc h = AtEntry ->
        thread_ts h ∉ holding p ->
        let p' := step (Run j) p in
        handlers p' !! j
        = Some {| thread_ts := thread_ts h; at_pc := Processing |}
        /\ thread_ts h ∈ holding p'
        /\ invoked p' = invoked p)
  /\ (forall j h,
        handlers p !! j = Some h ->
        at_pc h = Processing ->
        let p' := step (Run j) p in
        handlers p' !! j = Some {| thread_ts := thread_ts h; at_pc := Leaving |}
        /\ holding p' = holding p
        /\ invoked p' = invoked p ++ [thread_ts h])
  /\ (forall j h,
        handlers p !! j = Some h ->
        at_pc h = Leaving ->
        let p' := step (Run j) p in
        handlers p' !! j = Some {| thread_ts := thread_ts h; at_pc := Done |}
        /\ (thread_ts h ∉ holding p')
        /\ invoked p' = invoked p)
  /\ (forall j h,
        handlers p !! j = Some h ->
        returned h = true ->
        step (Run j) p = p)
  /\ (forall t, runs_for t p = processed_for t p)
  /\ (forall t, 0 < dropped_for t p -> 0 < admitted_for t p)
  /\ (quiescent p ->
      forall t,
        runs_for t p + dropped_for t p = started_for t p
        /\ (0 < started_for t p -> 1 <= runs_for t p)).
Proof.
  cbv zeta. pose proof (run_invariant ls init init_invariant) as Hinv.
  pose proof (run_admission ls init init_invariant init_admission) as Hadm.
  set (p := run ls init) in *. destruct Hinv as (Hnd & Hact & Hruns).
  assert (Hlook : forall j h to,
             handlers p !! j = Some h ->
             move j h to (handlers p) !! j
             = Some {| thread_ts := thread_ts h; at_pc := to |}).
  { intros j h to Hj. unfold move. apply list_lookup_insert_eq.
    now apply lookup_lt_Some with h. }
  split; [exact Hnd|].
  split; [|split; [|split; [|split; [|split; [|split; [exact Hruns|split]]]]]].
  - intros j h Hj Hat Hheld. simpl. rewrite Hj, Hat.
    destruct (decide (thread_ts h ∈ _active_threads p)) as [Hin|Hout];
      [|exfalso; apply Hout; now apply Hact].
    simpl. split; [now apply Hlook|].
    split; [|split; [reflexivity|split; [reflexivity|]]].
    + destruct (move_split (handlers p) j h Dropped Hj)
        as (l1 & l2 & Hhs & Hdrop).
      unfold holding. simpl. rewrite Hdrop, Hhs.
      rewrite !held_app, !held_cons. unfold inside. simpl. now rewrite Hat.
    + intros l. f_equal. simpl. now rewrite (Hlook j h Dropped Hj).
  - intros j h Hj Hat Hfree. simpl. rewrite Hj, Hat.
    destruct (decide (thread_ts h ∈ _active_threads p)) as [Hin|Hout];
      [exfalso; apply Hfree; now apply Hact|].
    simpl. split; [now apply Hlook|]. split; [|reflexivity].
    destruct (move_split (handlers p) j h Processing Hj)
      as (l1 & l2 & Hhs & Hmove).
    unfold holding. simpl. rewrite Hmove, held_app, held_cons.
    unfold inside. simpl. apply elem_of_app. right. apply elem_of_cons.
    now left.
  - intros j h Hj Hat. simpl. rewrite Hj, Hat. simpl.
    split; [now apply Hlook|]. split; [|reflexivity].
    destruct (move_split (handlers p) j h Leaving Hj)
      as (l1 & l2 & Hhs & Hmove).
    unfold holding. simpl. rewrite Hmove, Hhs.
    rewrite !held_app, !held_cons. unfold inside. simpl. now rewrite Hat.
  - intros j h Hj Hat. simpl. rewrite Hj, Hat. simpl.
    split; [now apply Hlook|]. split; [|reflexivity].
    destruct (move_split (handlers p) j h Done Hj)
      as (l1 & l2 & Hhs & Hmove).
    unfold holding in *. simpl. rewrite Hmove. rewrite Hhs in Hnd.
    rewrite held_app, held_cons in *. unfold inside in *. simpl in *.
    rewrite Hat in Hnd. simpl in Hnd.
    apply NoDup_app in Hnd as (Hn1 & Hn12 & Hn2).
    apply NoDup_cons in Hn2 as (Hn2' & Hn2).
    intros X. apply elem_of_app in X as [X|X]; [|contradiction].
    apply (Hn12 _ X). apply elem_of_cons. now left.
  - intros j h Hj Hret. simpl. rewrite Hj. unfold returned in Hret.
    destruct (at_pc h); try discriminate; reflexivity.
  - exact Hadm.
  - intros Hq t. unfold quiescent in Hq.
    destruct (returned_counts t (handlers p) Hq) as [Hall Hsame].
    specialize (Hruns t). specialize (Hadm t).
    unfold runs_for, processed_for, started_for, dropped_for, admitted_for in *.
    split; [lia|]. intros Hpos.
    destruct (count_where dropped t (handlers p)) eqn:Ed; lia.
Qed.

(** Two messages of one thread that overlap: one agent run for the
    thread, the second handler dropped. *)
Example overlap_runs_once :
  let p := run overlap init in
  invoked p = ["1700000000.000200"; "1700000555.000900"]
  /\ map at_pc (handlers p) = [Done; Dropped; Done]
  /\ _active_threads p = ∅.
Proof. cbv zeta. split; [|split]; vm_compute; reflexivity. Qed.

(** The overlap, counted: two handlers were started for the thread, one
    of them was dropped, and the agent ran once for it. *)
Lemma one_handler_per_thread_witness :
  quiescent (run overlap init)
  /\ started_for "1700000000.000200" (run overlap init) = 2
  /\ dropped_for "1700000000.000200" (run overlap init) = 1
  /\ runs_for "1700000000.000200" (run overlap init) = 1.
Proof.
  assert (Hq : quiescent (run overlap init))
    by (vm_compute; repeat constructor).
  assert (Hs : started_for "1700000000.000200" (run overlap init) = 2)
    by (vm_compute; reflexivity).
  assert (Hd : dropped_for "1700000000.000200" (run overlap init) = 1)
    by (vm_compute; reflexivity).
  refine (conj Hq (conj Hs (conj Hd _))).
  destruct (one_handler_per_thread overlap)
    as (_ & _ & _ & _ & _ & _ & _ & _ & Hcount).
  destruct (Hcount Hq "1700000000.000200") as [H _].
  rewrite Hs, Hd in H. lia.
Defined.

End SingleFlightFacts.

(** ** Splitting a command, and the verdict of a chain *)

Module SplitFacts.
Import Str StrFacts Classifier Verdicts.

Lemma string_ind2 (P : string -> Prop) :
  P "" ->
  (forall c, P (String c "")) ->
  (forall c d r, P r -> P (String d r) -> P (String c (String d r))) ->
  forall s, P s.
Proof.
  intros H0 H1 H2 s.
  assert (H : P s /\ forall c, P (String c s)).
  { induction s as [|d r [IHr IHc]]; [split; auto|].
    split; [apply IHc|]. intros c. apply H2; auto. }
  exact (proj1 H).
Qed.

Lemma split_ops_one (c : ascii) :
  split_ops (String c "")
  = if is_semi c || is_bar c then [""; ""] else [String c ""].
Proof. simpl. destruct (is_semi c || is_bar c); reflexivity. Qed.

Lemma split_ops_two (c d : ascii) (r : string) :
  split_ops (String c (String d r))
  = if is_pair c d then "" :: split_ops r
    else if is_semi c || is_bar c then "" :: split_ops (String d r)
         else cons_char c (split_ops (String d r)).
Proof. reflexivity. Qed.

Lemma split_ops_nonempty (s : string) : split_ops s <> [].
Proof.
  induction s as [| c | c d r IHr IHd] using string_ind2.
  - discriminate.
  - rewrite split_ops_one. destruct (_ || _); discriminate.
  - rewrite split_ops_two. destruct (is_pair c d); [discriminate|].
    destruct (_ || _); [discriminate|].
    destruct (split_ops (String d r)); [contradiction | discriminate].
Qed.

(** The trimming of [re.split] is absorbed by the [strip] that follows. *)
Lemma strip_rstrip (s : string) : strip (rstrip s) = strip s.
Proof. unfold strip. now rewrite rstrip_idem. Qed.

Lemma strip_lstrip (s : string) : strip (lstrip s) = strip s.
Proof. unfold strip. now rewrite rstrip_lstrip, lstrip_idem. Qed.

Lemma strip_trim_following (pieces : list string) :
  map strip (trim_following pieces) = map strip pieces.
Proof.
  induction pieces as [|p rest IH]; [reflexivity|].
  destruct rest as [|q rest].
  - simpl. now rewrite strip_lstrip.
  - change (trim_following (p :: q :: rest))
      with (rstrip (lstrip p) :: trim_following (q :: rest)).
    rewrite !map_cons, IH, strip_rstrip, strip_lstrip. reflexivity.
Qed.

Lemma strip_re_split (s : string) :
  map strip (re_split s) = map strip (split_ops s).
Proof.
  unfold re_split. destruct (split_ops s) as [|p [|q rest]]; try reflexivity.
  change (map strip (rstrip p :: trim_following (q :: rest)))
    with (strip (rstrip p) :: map strip (trim_following (q :: rest))).
  now rewrite strip_trim_following, strip_rstrip.
Qed.

Lemma filter_strip (l : list string) :
  map strip (filter (fun s => truthy (strip s)) l)
  = List.filter truthy (map strip l).
Proof.
  induction l as [|x l IH]; [reflexivity|].
  rewrite filter_cons.
  change (map strip (x :: l)) with (strip x :: map strip l).
  cbn [List.filter].
  destruct (decide _) as [Ht|Hf].
  - apply Is_true_true in Ht. rewrite Ht, map_cons, IH. reflexivity.
  - apply Is_true_false in Hf. rewrite Hf. exact IH.
Qed.

(** The segments are the non-empty stripped pieces between operators. *)
Lemma segments_of_pieces (cmd : string) :
  _split_chained_commands cmd
  = List.filter truthy (map strip (split_ops cmd)).
Proof.
  unfold _split_chained_commands. cbv zeta.
  now rewrite filter_strip, strip_re_split.
Qed.

Section WithEngine.
Context {engine : RegexEngine}.

Lemma worst_safe_r (v : verdict) : worst v Safe = v.
Proof. destruct v; reflexivity. Qed.

Lemma worst_assoc (a b c : verdict) : worst a (worst b c) = worst (worst a b) c.
Proof. destruct a, b, c; reflexivity. Qed.

Lemma worst_of_app (l1 l2 : list verdict) :
  worst_of (l1 ++ l2) = worst (worst_of l1) (worst_of l2).
Proof.
  induction l1 as [|v l1 IH]; simpl.
  - destruct (worst_of l2); reflexivity.
  - now rewrite IH, worst_assoc.
Qed.

Lemma classify_segments_worst (rules : command_rules) (segments : list string)
  (w : verdict) :
  w <> Deny ->
  fst (classify_segments segments w rules)
  = worst w (worst_of (map (fun s => _classify_single s rules) segments)).
Proof.
  revert w. induction segments as [|s rest IH]; intros w Hw; simpl.
  - now rewrite worst_safe_r.
  - destruct (_classify_single s rules) eqn:E.
    + specialize (IH w Hw). destruct (classify_segments rest w rules).
      simpl in *. rewrite IH. destruct w, (worst_of _); reflexivity.
    + assert (Hr : Risky <> Deny) by discriminate.
      specialize (IH Risky Hr). destruct (classify_segments rest Risky rules).
      simpl in *. rewrite IH. destruct w, (worst_of _); try reflexivity;
        congruence.
    + simpl. destruct w; reflexivity.
Qed.

Lemma classify_worst_of
  (f : rules_file) (rules : command_rules) (cmd : string) :
  load_command_rules f = Some rules ->
  classify_command f cmd
  = worst_of (map (fun s => _classify_single s rules)
                (_split_chained_commands cmd)).
Proof.
  intros Hload. unfold classify_command, classify_run. rewrite Hload.
  rewrite classify_segments_worst by discriminate.
  destruct (worst_of _); reflexivity.
Qed.

(** X1. With the rules loaded, the verdict of a command is the worst
    verdict of its segments, deny beating risky beating safe, and safe
    when there is no segment. *)
Theorem classify_command_worst
  (f : rules_file) (rules : command_rules) (cmd : string) :
  load_command_rules f = Some rules ->
  classify_command f cmd
  = worst_of (map (fun s => _classify_single s rules)
                (_split_chained_commands cmd)).
Proof.
  intros Hload. unfold classify_command, classify_run. rewrite Hload.
  rewrite classify_segments_worst by discriminate.
  now rewrite worst_safe_r || (destruct (worst_of _); reflexivity).
Qed.

End WithEngine.

Lemma classify_command_worst_witness :
  Classifier.load_command_rules Samples.sample_file = Some Samples.sample_rules
  /\ classify_command (engine := literal_engine) Samples.sample_file
       "git status | git push origin; ls"
     = worst_of [Safe; Risky; Safe].
Proof.
  assert (H : Classifier.load_command_rules Samples.sample_file
              = Some Samples.sample_rules) by reflexivity.
  refine (conj H _).
  exact (classify_command_worst (engine := literal_engine) Samples.sample_file
           Samples.sample_rules "git status | git push origin; ls" H).
Defined.

(** *** What a segment never holds *)

Lemma has_char_app (c : ascii) (a b : string) :
  has_char c (a +:+ b) = has_char c a || has_char c b.
Proof.
  induction a as [|d a IH]; [reflexivity|].
  rewrite append_cons. simpl. now rewrite IH, orb_assoc.
Qed.

Lemma contains_cons (p : string) (d : ascii) (a : string) :
  contains p (String d a) = String.prefix p (String d a) || contains p a.
Proof. reflexivity. Qed.

Lemma contains_app_l (p a b : string) :
  contains p a = true -> contains p (a +:+ b) = true.
Proof.
  induction a as [|d a IH].
  - simpl. rewrite orb_false_r. intros H. destruct p; [|discriminate].
    destruct b; reflexivity.
  - rewrite append_cons, !contains_cons, !orb_true_iff.
    intros [H|H]; [left | right; auto].
    apply prefix_app in H as [rest H].
    apply prefix_app. exists (rest +:+ b).
    rewrite <- append_assoc, <- H. reflexivity.
Qed.

Lemma contains_app_r (p a b : string) :
  contains p b = true -> contains p (a +:+ b) = true.
Proof.
  intros H. induction a as [|d a IH]; [exact H|].
  rewrite append_cons, contains_cons, IH. apply orb_true_r.
Qed.

Lemma operator_free_app (a b : string) :
  operator_free (a +:+ b) -> operator_free a /\ operator_free b.
Proof.
  unfold operator_free. rewrite !has_char_app, !orb_false_iff.
  intros ((Ha1 & Hb1) & (Ha2 & Hb2) & Hc). repeat split; auto.
  - destruct (contains "&&" a) eqn:E; [|reflexivity].
    apply (contains_app_l _ _ b) in E. congruence.
  - destruct (contains "&&" b) eqn:E; [|reflexivity].
    apply (contains_app_r _ a) in E. congruence.
Qed.

Lemma lstrip_suffix (s : string) : exists pre, s = pre +:+ lstrip s.
Proof.
  induction s as [|c s [pre IH]]; [exists ""; reflexivity|].
  simpl. destruct (is_space c).
  - exists (String c pre). rewrite append_cons. now f_equal.
  - exists "". reflexivity.
Qed.

Lemma rstrip_prefix (s : string) : exists post, s = rstrip s +:+ post.
Proof.
  induction s as [|c s [post IH]]; [exists ""; reflexivity|].
  simpl. destruct (rstrip s) as [|d r] eqn:E.
  - destruct (is_space c).
    + exists (String c s). reflexivity.
    + exists post. rewrite append_cons. f_equal. exact IH.
  - exists post. rewrite append_cons. f_equal. exact IH.
Qed.

Lemma operator_free_strip (s : string) :
  operator_free s -> operator_free (strip s).
Proof.
  intros H. unfold strip.
  destruct (rstrip_prefix s) as [post Hs]. rewrite Hs in H.
  apply operator_free_app in H as [H _].
  destruct (lstrip_suffix (rstrip s)) as [pre Hr]. rewrite Hr in H.
  now apply operator_free_app in H as [_ H].
Qed.

Lemma prefix_refl (s : string) : String.prefix s s = true.
Proof.
  apply prefix_app. exists "".
  induction s; [reflexivity|]. rewrite append_cons. now f_equal.
Qed.

Lemma prefix_cons (c d : ascii) (p s : string) :
  String.prefix (String c p) (String d s) = Ascii.eqb c d && String.prefix p s.
Proof.
  simpl. destruct (ascii_dec c d) as [->|Hne].
  - now rewrite Ascii.eqb_refl.
  - apply Ascii.eqb_neq in Hne. now rewrite Hne.
Qed.

Lemma prefix_amp (p : string) :
  String.prefix "&" p = true -> exists p', p = String "&" p'.
Proof.
  destruct p as [|e p]; [discriminate|]. rewrite prefix_cons.
  intros H. apply andb_true_iff in H as [H _].
  apply Ascii.eqb_eq in H. subst e. now exists p.
Qed.

Lemma operator_free_nil : operator_free "".
Proof. repeat split. Qed.

Lemma operator_free_cons (c : ascii) (p : string) :
  operator_free (String c p)
  <-> is_semi c = false /\ is_bar c = false
      /\ is_amp c && String.prefix "&" p = false
      /\ operator_free p.
Proof.
  unfold operator_free, is_semi, is_bar, is_amp.
  rewrite contains_cons, prefix_cons. cbn [has_char].
  rewrite !orb_false_iff, (Ascii.eqb_sym "&" c). tauto.
Qed.

(** The pieces between the operators hold no operator, and the first
    piece is a prefix of the string. *)
Lemma split_ops_pieces (s : string) :
  String.prefix (hd "" (split_ops s)) s = true
  /\ Forall operator_free (split_ops s).
Proof.
  induction s as [| c | c d r IHr IHd] using string_ind2.
  - split; [reflexivity|]. repeat constructor.
  - rewrite split_ops_one. destruct (is_semi c || is_bar c) eqn:E.
    + split; [reflexivity|]. repeat constructor.
    + apply orb_false_iff in E as [Es Eb]. split; [apply prefix_refl|].
      constructor; [|constructor]. apply operator_free_cons.
      split; [exact Es|]. split; [exact Eb|].
      split; [apply andb_false_r | apply operator_free_nil].
  - rewrite split_ops_two. destruct (is_pair c d) eqn:Ep.
    + split; [reflexivity|].
      constructor; [apply operator_free_nil | apply IHr].
    + destruct (is_semi c || is_bar c) eqn:E.
      * split; [reflexivity|].
        constructor; [apply operator_free_nil | apply IHd].
      * apply orb_false_iff in E as [Es Eb]. destruct IHd as [Hpre Hall].
        destruct (split_ops (String d r)) as [|p ps] eqn:Hsp.
        { now apply split_ops_nonempty in Hsp. }
        cbn [hd cons_char] in *.
        apply Forall_cons in Hall as [Hp Hps]. split.
        -- rewrite prefix_cons, Ascii.eqb_refl. exact Hpre.
        -- constructor; [|exact Hps]. apply operator_free_cons.
           split; [exact Es|]. split; [exact Eb|]. split; [|exact Hp].
           destruct (is_amp c) eqn:Ec; [|reflexivity].
           destruct (String.prefix "&" p) eqn:Ea; [|reflexivity].
           apply prefix_amp in Ea as [p' ->].
           rewrite prefix_cons in Hpre. apply andb_true_iff in Hpre as [Hd _].
           unfold is_pair in Ep. rewrite Ec in Ep. unfold is_amp in Ep.
           rewrite Ascii.eqb_sym in Hd. rewrite Hd in Ep. discriminate.
Qed.

(** X2. Every segment of a command is non-empty, has no whitespace
    around it, and holds none of the operators: no [;], no [|] and no
    [&&]. *)
Theorem segments_are_operator_free (cmd s : string) :
  In s (_split_chained_commands cmd) ->
  s <> "" /\ strip s = s /\ operator_free s.
Proof.
  rewrite segments_of_pieces. intros H.
  apply List.filter_In in H as [Hin Ht].
  apply in_map_iff in Hin as [p [<- Hp]].
  split; [now apply truthy_true|]. split; [apply strip_idem|].
  apply operator_free_strip.
  destruct (split_ops_pieces cmd) as [_ Hall].
  rewrite List.Forall_forall in Hall. now apply Hall.
Qed.

Lemma segments_are_operator_free_witness :
  In "rm -rf /tmp/x" (_split_chained_commands "git push && rm -rf /tmp/x")
  /\ operator_free "rm -rf /tmp/x".
Proof.
  assert (H : In "rm -rf /tmp/x"
                (_split_chained_commands "git push && rm -rf /tmp/x"))
    by (vm_compute; auto).
  refine (conj H _).
  exact (proj2 (proj2 (segments_are_operator_free _ _ H))).
Defined.

(** *** A command without operators *)

Lemma split_ops_plain (s : string) : operator_free s -> split_ops s = [s].
Proof.
  induction s as [| c | c d r IHr IHd] using string_ind2; intros H.
  - reflexivity.
  - apply operator_free_cons in H as (Hs & Hb & _ & _).
    rewrite split_ops_one, Hs, Hb. reflexivity.
  - pose proof H as H'. apply operator_free_cons in H' as (Hs & Hb & Ha & Hd).
    rewrite split_ops_two, Hs, Hb, (IHd Hd). simpl orb. cbn [cons_char].
    destruct (is_pair c d) eqn:Ep; [|reflexivity].
    exfalso. unfold is_pair in Ep. rewrite Hb in Ep.
    rewrite andb_false_l, orb_false_r in Ep.
    apply andb_true_iff in Ep as [Ec Ed].
    rewrite Ec, prefix_cons in Ha. unfold is_amp in Ed.
    rewrite Ascii.eqb_sym in Ed. rewrite Ed in Ha.
    destruct r; discriminate.
Qed.

Section WithEngine.
Context {engine : RegexEngine}.

Lemma classify_single_strip (s : string) (rules : command_rules) :
  _classify_single (strip s) rules = _classify_single s rules.
Proof.
  rewrite !ClassifierFacts.classify_single_tests. cbv zeta.
  now rewrite strip_idem.
Qed.

(** X3. A command that holds no operator and is not blank is one
    segment, the command stripped, and with the rules loaded its verdict
    is that of the single-segment checks. *)
Theorem plain_command_single_segment
  (f : rules_file) (rules : command_rules) (cmd : string) :
  load_command_rules f = Some rules ->
  operator_free cmd ->
  strip cmd <> "" ->
  _split_chained_commands cmd = [strip cmd]
  /\ classify_command f cmd = _classify_single cmd rules.
Proof.
  intros Hload Hfree Hne.
  assert (Hseg : _split_chained_commands cmd = [strip cmd]).
  { rewrite segments_of_pieces, (split_ops_plain cmd Hfree). simpl.
    apply truthy_true in Hne. now rewrite Hne. }
  split; [exact Hseg|].
  rewrite (classify_worst_of f rules cmd Hload), Hseg. simpl.
  rewrite classify_single_strip. apply worst_safe_r.
Qed.

End WithEngine.

Lemma plain_command_single_segment_witness :
  Classifier.load_command_rules Samples.sample_file = Some Samples.sample_rules
  /\ operator_free "  git status -sb & "
  /\ strip "  git status -sb & " <> ""
  /\ classify_command (engine := literal_engine) Samples.sample_file
       "  git status -sb & " = Safe.
Proof.
  assert (H1 : Classifier.load_command_rules Samples.sample_file
               = Some Samples.sample_rules) by reflexivity.
  assert (H2 : operator_free "  git status -sb & ") by (repeat split).
  assert (H3 : strip "  git status -sb & " <> "") by (vm_compute; discriminate).
  refine (conj H1 (conj H2 (conj H3 _))).
  rewrite (proj2 (plain_command_single_segment Samples.sample_file
                    Samples.sample_rules _ H1 H2 H3)).
  reflexivity.
Defined.

(** *** Chaining two commands *)

Lemma rstrip_app_space (p : string) : rstrip (p +:+ " ") = rstrip p.
Proof.
  induction p as [|c p IH]; [reflexivity|].
  rewrite append_cons.
  change (rstrip (String c (p +:+ " ")))
    with (match rstrip (p +:+ " ") with
          | EmptyString => if is_space c then EmptyString else String c EmptyString
          | r' => String c r'
          end).
  rewrite IH. reflexivity.
Qed.

Lemma strip_app_space (p : string) : strip (p +:+ " ") = strip p.
Proof. unfold strip. now rewrite rstrip_app_space. Qed.

Lemma strip_cons_space (q : string) : strip (String " " q) = strip q.
Proof.
  unfold strip. rewrite <- !rstrip_lstrip. reflexivity.
Qed.

Lemma split_ops_space (b : string) :
  split_ops (String " " b) = cons_char " " (split_ops b).
Proof. destruct b; reflexivity. Qed.

Lemma is_pair_space (c : ascii) : is_pair c " " = false.
Proof. unfold is_pair. simpl. now rewrite !andb_false_r. Qed.

Lemma prepend_nil (pieces : list string) :
  pieces <> [] -> prepend "" pieces = pieces.
Proof. destruct pieces; [congruence | reflexivity]. Qed.

Lemma cons_char_prepend (c : ascii) (last : string) (pieces : list string) :
  pieces <> [] ->
  cons_char c (prepend last pieces) = prepend (String c last) pieces.
Proof. destruct pieces; [congruence | reflexivity]. Qed.

Lemma cons_char_nil_prepend (c : ascii) (pieces : list string) :
  pieces <> [] -> cons_char c pieces = prepend (String c "") pieces.
Proof. destruct pieces; [congruence | reflexivity]. Qed.

(** Cutting a string in front of a space cuts its pieces there. *)
Lemma split_ops_before_space (a : string) :
  exists init last,
    split_ops a = init ++ [last]
    /\ forall t, split_ops (a +:+ String " " t)
                 = init ++ prepend last (split_ops (String " " t)).
Proof.
  induction a as [| c | c d r IHr IHd] using string_ind2.
  - exists [], "". split; [reflexivity|]. intros t.
    change ("" +:+ String " " t) with (String " " t).
    now rewrite app_nil_l, prepend_nil by apply split_ops_nonempty.
  - rewrite split_ops_one. destruct (is_semi c || is_bar c) eqn:E.
    + exists [""], "". split; [reflexivity|]. intros t.
      rewrite append_cons. change ("" +:+ String " " t) with (String " " t).
      rewrite split_ops_two, is_pair_space, E.
      now rewrite prepend_nil by apply split_ops_nonempty.
    + exists [], (String c ""). split; [reflexivity|]. intros t.
      rewrite append_cons. change ("" +:+ String " " t) with (String " " t).
      rewrite split_ops_two, is_pair_space, E, app_nil_l.
      apply cons_char_nil_prepend, split_ops_nonempty.
  - destruct IHr as (ir & lr & Hr & Hrt). destruct IHd as (id & ld & Hd & Hdt).
    rewrite split_ops_two. destruct (is_pair c d) eqn:Ep.
    + exists ("" :: ir), lr. split; [now rewrite Hr|]. intros t.
      rewrite !append_cons, split_ops_two, Ep, Hrt. reflexivity.
    + destruct (is_semi c || is_bar c) eqn:E.
      * exists ("" :: id), ld. split; [now rewrite Hd|]. intros t.
        rewrite !append_cons, split_ops_two, Ep, E, <- append_cons, Hdt.
        reflexivity.
      * rewrite Hd. destruct id as [|i id].
        -- exists [], (String c ld). split; [reflexivity|]. intros t.
           rewrite !append_cons, split_ops_two, Ep, E, <- append_cons, Hdt.
           rewrite !app_nil_l.
           apply cons_char_prepend, split_ops_nonempty.
        -- exists (String c i :: id), ld. split; [reflexivity|]. intros t.
           rewrite !append_cons, split_ops_two, Ep, E, <- append_cons, Hdt.
           reflexivity.
Qed.

Lemma split_ops_operator (op b : string) :
  In op OPERATORS ->
  split_ops (String " " (op +:+ String " " b))
  = " " :: cons_char " " (split_ops b).
Proof.
  intros Hop. rewrite <- split_ops_space.
  destruct Hop as [<-|[<-|[<-|[<-|[]]]]]; reflexivity.
Qed.

Lemma map_strip_cons_char_space (pieces : list string) :
  pieces <> [] ->
  map strip (cons_char " " pieces) = map strip pieces.
Proof.
  destruct pieces as [|q qs]; [congruence|]. intros _.
  cbn [cons_char map]. now rewrite strip_cons_space.
Qed.

Section Chains.
Context {engine : RegexEngine}.

(** X4. Two commands chained with [&&], [||], [;] or [|] between
    spaces have the segments of the first followed by those of the
    second, and with the rules loaded the verdict of the chain is the
    worse of the two verdicts. *)
Theorem chain_is_worst_of_both
  (f : rules_file) (rules : command_rules) (a b op : string) :
  load_command_rules f = Some rules ->
  In op OPERATORS ->
  let chain := a +:+ String " " (op +:+ String " " b) in
  _split_chained_commands chain
  = _split_chained_commands a ++ _split_chained_commands b
  /\ classify_command f chain
     = worst (classify_command f a) (classify_command f b).
Proof.
  intros Hload Hop. cbv zeta.
  assert (Hseg : _split_chained_commands
                   (a +:+ String " " (op +:+ String " " b))
                 = _split_chained_commands a ++ _split_chained_commands b).
  { rewrite !segments_of_pieces.
    destruct (split_ops_before_space a) as (init & last & Ha & Hat).
    rewrite Hat, Ha, (split_ops_operator op b Hop). cbn [prepend].
    rewrite !map_app, !List.filter_app. cbn [map].
    rewrite strip_app_space.
    rewrite (map_strip_cons_char_space _ (split_ops_nonempty b)).
    rewrite <- app_assoc. f_equal.
    change (strip last :: map strip (split_ops b))
      with ([strip last] ++ map strip (split_ops b)).
    now rewrite List.filter_app. }
  split; [exact Hseg|].
  rewrite !(classify_worst_of f rules _ Hload), Hseg, map_app.
  apply worst_of_app.
Qed.

End Chains.

Lemma chain_is_worst_of_both_witness :
  Classifier.load_command_rules Samples.sample_file = Some Samples.sample_rules
  /\ In "&&" OPERATORS
  /\ classify_command (engine := literal_engine) Samples.sample_file
       "git push && rm -rf /tmp/x"
     = worst (classify_command Samples.sample_file "git push")
         (classify_command Samples.sample_file "rm -rf /tmp/x").
Proof.
  assert (H1 : Classifier.load_command_rules Samples.sample_file
               = Some Samples.sample_rules) by reflexivity.
  assert (H2 : In "&&" OPERATORS) by (simpl; auto).
  refine (conj H1 (conj H2 _)).
  exact (proj2 (chain_is_worst_of_both Samples.sample_file Samples.sample_rules
                  "git push" "rm -rf /tmp/x" "&&" H1 H2)).
Defined.

End SplitFacts.

(** ** Reactions, the resolver and the phases of the hook *)

Module HookFacts.
Import Str StrFacts Approval Hook.

Lemma mem_In (x : string) (xs : list string) : mem x xs = true <-> In x xs.
Proof.
  unfold mem. rewrite existsb_exists. split.
  - intros [y [Hin Heq]]. apply String.eqb_eq in Heq. now subst.
  - intros H. exists x. split; [exact H | apply String.eqb_refl].
Qed.

Lemma unrecognised_dec (r : reaction) :
  {approves r} + {~ approves r /\ denies r} + {unrecognised r}.
Proof.
  unfold unrecognised, approves, denies.
  destruct (mem (base_name r) APPROVE_REACTIONS) eqn:Ea.
  - left. left. now apply mem_In.
  - assert (Hn : ~ In (base_name r) APPROVE_REACTIONS)
      by (intros H; apply mem_In in H; congruence).
    destruct (mem (base_name r) DENY_REACTIONS) eqn:Ed.
    + left. right. split; [exact Hn | now apply mem_In].
    + right. split; [exact Hn|]. intros H. apply mem_In in H. congruence.
Qed.

Lemma approves_not_denies (r : reaction) : approves r -> ~ denies r.
Proof.
  unfold approves, denies. simpl.
  intros [<-|[<-|[]]] [H|[H|[]]]; discriminate.
Qed.

Lemma scan_reactions_cons (r : reaction) (rest : list reaction) :
  scan_reactions (r :: rest)
  = if mem (base_name r) APPROVE_REACTIONS then Some Allow
    else if mem (base_name r) DENY_REACTIONS then Some Deny
    else scan_reactions rest.
Proof. reflexivity. Qed.

Lemma scan_reactions_unrecognised (pre rest : list reaction) :
  Forall unrecognised pre ->
  scan_reactions (pre ++ rest) = scan_reactions rest.
Proof.
  induction 1 as [|r pre [Ha Hd] _ IH]; [reflexivity|].
  rewrite <- app_comm_cons, scan_reactions_cons.
  destruct (mem (base_name r) APPROVE_REACTIONS) eqn:Ea.
  { apply mem_In in Ea. contradiction. }
  destruct (mem (base_name r) DENY_REACTIONS) eqn:Ed.
  { apply mem_In in Ed. contradiction. }
  exact IH.
Qed.

Lemma scan_reactions_decision (rs : list reaction) :
  reaction_decision rs (scan_reactions rs).
Proof.
  induction rs as [|r rest IH]; [apply reactions_none; constructor|].
  rewrite scan_reactions_cons.
  destruct (unrecognised_dec r) as [[Ha|[Hn Hd]]|Hu].
  - apply mem_In in Ha as Ha'. unfold base_name in *. rewrite Ha'.
    apply (reactions_allow [] rest r); [constructor | exact Ha].
  - destruct (mem (base_name r) APPROVE_REACTIONS) eqn:Ea.
    { apply mem_In in Ea. contradiction. }
    apply mem_In in Hd as Hd'. rewrite Hd'.
    apply (reactions_deny [] rest r); [constructor | exact Hd].
  - destruct Hu as [Ha Hd].
    destruct (mem (base_name r) APPROVE_REACTIONS) eqn:Ea.
    { apply mem_In in Ea. contradiction. }
    destruct (mem (base_name r) DENY_REACTIONS) eqn:Ed.
    { apply mem_In in Ed. contradiction. }
    inversion IH as [rs Hall|pre post r' Hpre Hr'|pre post r' Hpre Hr']; subst.
    + apply reactions_none. constructor; [split|]; assumption.
    + rewrite app_comm_cons. apply reactions_allow; [|exact Hr'].
      constructor; [split|]; assumption.
    + rewrite app_comm_cons. apply reactions_deny; [|exact Hr'].
      constructor; [split|]; assumption.
Qed.

Lemma reaction_decision_scan (rs : list reaction) (d : option decision) :
  reaction_decision rs d -> scan_reactions rs = d.
Proof.
  intros H. destruct H as [rs Hall|pre post r Hpre Hr|pre post r Hpre Hr].
  - rewrite <- (app_nil_r rs). now rewrite scan_reactions_unrecognised.
  - rewrite scan_reactions_unrecognised, scan_reactions_cons by assumption.
    apply mem_In in Hr. now rewrite Hr.
  - rewrite scan_reactions_unrecognised, scan_reactions_cons by assumption.
    destruct (mem (base_name r) APPROVE_REACTIONS) eqn:Ea.
    { apply mem_In in Ea. now apply approves_not_denies in Ea. }
    apply mem_In in Hr. now rewrite Hr.
Qed.

(** X5. On an ok answer [check_reactions] decides by the first reaction
    whose name, without a skin-tone suffix, is recognised: allow for +1
    or thumbsup, deny for -1 or thumbsdown, and no decision when no
    reaction is recognised.  On an answer that is not ok there is no
    decision, whatever the reactions. *)
Theorem check_reactions_first_recognised
  (rs : list reaction) (d : option decision) :
  (reaction_decision rs d
   <-> check_reactions {| reactions_ok := true; reactions := rs |} = d)
  /\ check_reactions {| reactions_ok := false; reactions := rs |} = None.
Proof.
  split; [|reflexivity]. unfold check_reactions. simpl. split.
  - apply reaction_decision_scan.
  - intros <-. apply scan_reactions_decision.
Qed.

(** X6. The skin-tone suffix is cut at the first [::]: a name without a
    colon followed by [::] and anything is read as that name, and a name
    without [::] is read as it is. *)
Theorem before_colons_cuts_suffix (n rest : string) :
  (Verdicts.has_char ":" n = false ->
   before_colons (n +:+ "::" +:+ rest) = n)
  /\ (contains "::" n = false -> before_colons n = n).
Proof.
  split.
  - induction n as [|c n IH]; intros H.
    + destruct rest; reflexivity.
    + simpl in H. apply orb_false_iff in H as [Hc Hn].
      rewrite append_cons.
      change (before_colons (String c (n +:+ "::" +:+ rest)))
        with (if String.prefix "::" (String c (n +:+ "::" +:+ rest))
              then "" else String c (before_colons (n +:+ "::" +:+ rest))).
      rewrite SplitFacts.prefix_cons, Ascii.eqb_sym, Hc. simpl.
      now rewrite IH.
  - induction n as [|c n IH]; intros H; [reflexivity|].
    rewrite SplitFacts.contains_cons in H. apply orb_false_iff in H as [Hp Hn].
    change (before_colons (String c n))
      with (if String.prefix "::" (String c n)
            then "" else String c (before_colons n)).
    now rewrite Hp, IH.
Qed.

Lemma before_colons_cuts_suffix_witness :
  Verdicts.has_char ":" "+1" = false
  /\ before_colons ("+1" +:+ "::" +:+ "skin-tone-2") = "+1".
Proof.
  assert (H : Verdicts.has_char ":" "+1" = false) by reflexivity.
  refine (conj H _).
  exact (proj1 (before_colons_cuts_suffix "+1" "skin-tone-2") H).
Defined.

(** *** The resolver *)

Lemma resolve_pending_missing (token : string) (st : hook_state) :
  pending_file st = None -> resolve_pending token st = st.
Proof.
  intros H. unfold resolve_pending, read_pending. now rewrite H.
Qed.

Lemma resolve_pending_saved
  (token : string) (st : hook_state) (p : pending_info) :
  pending_file st = Some p ->
  msg_ts p <> "" ->
  token <> "" ->
  resolve_pending token st
  = clear_pending
      (update_message (msg_ts p)
         (replace (original_text p) FOOTER_TEXT TERMINAL_TEXT) st).
Proof.
  intros Hp Hts Htok.
  unfold resolve_pending, read_pending, resolve_pending_on. rewrite Hp.
  cbn [get]. apply truthy_true in Hts. apply truthy_true in Htok.
  now rewrite Hts, Htok.
Qed.

(** X7. With a pending file and a bot token, [resolve_pending] rewrites
    the pending message once to the terminal approval and removes the
    file; run again it does nothing. *)
Theorem resolve_pending_once
  (token : string) (st : hook_state) (p : pending_info) :
  pending_file st = Some p ->
  msg_ts p <> "" ->
  token <> "" ->
  let st' := resolve_pending token st in
  log st'
  = log st ++ [UpdateMessage (msg_ts p)
                 (replace (original_text p) FOOTER_TEXT TERMINAL_TEXT);
               ClearPending]
  /\ pending_file st' = None
  /\ resolve_pending token st' = st'.
Proof.
  intros Hp Hts Htok. cbv zeta.
  rewrite (resolve_pending_saved token st p Hp Hts Htok). split; [|split].
  - simpl. now rewrite <- app_assoc.
  - reflexivity.
  - now apply resolve_pending_missing.
Qed.

Lemma resolve_pending_once_witness :
  pending_file (save_pending "1700000000.000100" ApprovalSamples.request_text
                  ApprovalSamples.fresh_state)
  = Some {| msg_ts := "1700000000.000100";
            original_text := ApprovalSamples.request_text |}
  /\ "1700000000.000100" <> ""
  /\ "xoxb-1" <> ""
  /\ pending_file
       (resolve_pending "xoxb-1"
          (save_pending "1700000000.000100" ApprovalSamples.request_text
             ApprovalSamples.fresh_state)) = None.
Proof.
  assert (H1 : pending_file (save_pending "1700000000.000100"
                               ApprovalSamples.request_text
                               ApprovalSamples.fresh_state)
               = Some {| msg_ts := "1700000000.000100";
                         original_text := ApprovalSamples.request_text |})
    by reflexivity.
  assert (H2 : "1700000000.000100" <> "") by discriminate.
  assert (H3 : "xoxb-1" <> "") by discriminate.
  refine (conj H1 (conj H2 (conj H3 _))).
  exact (proj1 (proj2 (resolve_pending_once "xoxb-1" _ _ H1 H2 H3))).
Defined.

(** X8. The resolver after a session.  When the session ended with a
    decision the pending file is gone and the resolver changes nothing:
    the message keeps the status of the decision.  When the session
    timed out, the resolver rewrites the same message from its original
    text to the terminal approval and removes the pending file. *)
Theorem resolver_after_session
  (w : world) (thread_ts : option string) (message_text ts token : string)
  (st : hook_state) (fuel : nat) :
  (forall i, (0 <= lag w i)%Q) ->
  post_result w = Some ts ->
  ts <> "" ->
  token <> "" ->
  (150 < fuel)%nat ->
  exists out st',
    approval_session fuel w thread_ts message_text st = Some (out, st')
    /\ terminal out
    /\ (out <> TimedOut -> resolve_pending token st' = st')
    /\ (out = TimedOut ->
        log (resolve_pending token st')
        = log st' ++ [UpdateMessage ts
                        (replace message_text FOOTER_TEXT TERMINAL_TEXT);
                      ClearPending]
        /\ pending_file (resolve_pending token st') = None).
Proof.
  intros Hlag Hpost Hts Htok Hfuel.
  unfold approval_session.
  rewrite Hpost, (SessionFacts.truthy_nonempty ts Hts). simpl negb.
  cbv iota zeta.
  match goal with
  | |- context [poll_loop fuel w ts message_text 0 (lag w 0) ?s] =>
      set (st0 := s)
  end.
  destruct (SessionFacts.poll_loop_ends w ts message_text Hlag 150 fuel 0%nat
              (lag w 0) st0)
    as (out & st' & n & updated & Hrun & Hn & Hterm & Hlog & Hpend).
  { specialize (Hlag 0%nat). rewrite SessionFacts.budget_150.
    unfold TIMEOUT. lra. }
  { exact Hfuel. }
  exists out, st'. split; [exact Hrun|]. split; [exact Hterm|]. split.
  - intros Hne. apply resolve_pending_missing. rewrite Hpend.
    destruct out; try reflexivity; contradiction.
  - intros ->. simpl in Hpend.
    rewrite (resolve_pending_saved token st'
               {| msg_ts := ts; original_text := message_text |}
               Hpend Hts Htok).
    split; [|reflexivity]. simpl. now rewrite <- app_assoc.
Qed.

Lemma resolver_after_session_witness :
  (forall i, (0 <= lag ApprovalSamples.quiet_world i)%Q)
  /\ post_result ApprovalSamples.quiet_world = Some "1700000000.000100"
  /\ "1700000000.000100" <> ""
  /\ "xoxb-1" <> ""
  /\ (150 < 151)%nat
  /\ exists out st',
       approval_session 151 ApprovalSamples.quiet_world None
         ApprovalSamples.request_text ApprovalSamples.fresh_state
       = Some (out, st')
       /\ terminal out.
Proof.
  assert (H2 : post_result ApprovalSamples.quiet_world
               = Some "1700000000.000100") by reflexivity.
  assert (H3 : "1700000000.000100" <> "") by discriminate.
  assert (H4 : "xoxb-1" <> "") by discriminate.
  assert (H5 : (150 < 151)%nat) by lia.
  refine (conj SessionFacts.quiet_world_lag
            (conj H2 (conj H3 (conj H4 (conj H5 _))))).
  destruct (resolver_after_session ApprovalSamples.quiet_world None
              ApprovalSamples.request_text "1700000000.000100" "xoxb-1"
              ApprovalSamples.fresh_state 151
              SessionFacts.quiet_world_lag H2 H3 H4 H5)
    as (out & st' & Hrun & Hterm & _).
  exists out, st'. split; assumption.
Defined.

(** *** The phases of [main] *)

Lemma exit_codes_app (l1 l2 : list event) :
  exit_codes (l1 ++ l2) = exit_codes l1 ++ exit_codes l2.
Proof.
  induction l1 as [|e l1 IH]; [reflexivity|].
  destruct e; simpl; rewrite IH; reflexivity.
Qed.

Lemma exit_codes_sleeps (n : nat) :
  exit_codes (repeat (Sleep POLL_INTERVAL) n) = [].
Proof. induction n; simpl; auto. Qed.

Lemma exit_codes_closing (ts updated : string) (out : outcome) :
  terminal out -> exit_codes (closing_events ts updated out) = [0%Z].
Proof. destruct out; simpl; intros H; try contradiction; reflexivity. Qed.

(** A session ends, and it exits once, with code 0. *)
Lemma approval_session_exit
  (w : world) (thread_ts : option string) (message_text : string)
  (st : hook_state) (fuel : nat) :
  (forall i, (0 <= lag w i)%Q) ->
  (150 < fuel)%nat ->
  exists out st',
    approval_session fuel w thread_ts message_text st = Some (out, st')
    /\ exit_codes (log st') = exit_codes (log st) ++ [0%Z].
Proof.
  intros Hlag Hfuel. unfold approval_session.
  destruct (post_result w) as [ts|].
  - destruct (truthy ts) eqn:Ets; simpl negb; cbv iota.
    + match goal with
      | |- context [poll_loop fuel w ts message_text 0 (lag w 0) ?s] =>
          set (st0 := s)
      end.
      destruct (SessionFacts.poll_loop_ends w ts message_text Hlag 150 fuel
                  0%nat (lag w 0) st0)
        as (out & st' & n & updated & Hrun & Hn & Hterm & Hlog & Hpend).
      { specialize (Hlag 0%nat). rewrite SessionFacts.budget_150.
        unfold TIMEOUT. lra. }
      { exact Hfuel. }
      exists out, st'. split; [exact Hrun|].
      rewrite Hlog, !exit_codes_app, exit_codes_sleeps,
        (exit_codes_closing _ _ _ Hterm).
      unfold st0. simpl. now rewrite !exit_codes_app, !app_nil_r.
    + eexists _, _. split; [reflexivity|]. simpl.
      now rewrite !exit_codes_app, <- app_assoc.
  - eexists _, _. split; [reflexivity|]. simpl.
    now rewrite !exit_codes_app, <- app_assoc.
Qed.

(** *** Every way [main] ends *)






Section WithEngine.
Context {engine : RegexEngine}.


(** X10. A Bash command with a segment that a deny pattern matches is
    blocked at once: the hook prints the deny and exits, with no post to
    Slack, no poll and no change of the pending file, whatever Slack
    would answer and with no fuel at all. *)
Theorem denied_command_is_blocked_silently
  (fuel : nat) (cmd s : string) (p : regex)
  (f : Classifier.rules_file) (rules : Classifier.command_rules)
  (w : world) (thread_ts : option string) (message_text : string)
  (st : hook_state) :
  Classifier.load_command_rules f = Some rules ->
  In s (Classifier._split_chained_commands cmd) ->
  In p (Classifier.deny_patterns rules) ->
  re_search p s = true ->
  exists st',
    main fuel "Bash" (Some cmd) f w thread_ts message_text st
    = Some (Blocked, st')
    /\ log st'
       = log st ++ [PrintDecision Deny "Blocked: command matches deny rules";
                    Exit 0]
    /\ pending_file st' = pending_file st.
Proof.
  intros Hload Hs Hp Hm.
  assert (Hne : truthy cmd = true).
  { apply truthy_true. intros ->. vm_compute in Hs. exact Hs. }
  assert (Hst : strip s = s)
    by exact (ClassifierFacts.split_segments_stripped cmd s Hs).
  assert (Hsingle : Classifier._classify_single s rules = Classifier.Deny).
  { apply ClassifierFacts.classify_single_deny. exists p.
    rewrite Hst. auto. }
  assert (Hd : Classifier.classify_command f cmd = Classifier.Deny).
  { rewrite (SplitFacts.classify_worst_of f rules cmd Hload).
    apply in_split in Hs as (l1 & l2 & Hsplit).
    rewrite Hsplit, map_app, SplitFacts.worst_of_app. simpl.
    rewrite Hsingle. destruct (Verdicts.worst_of _); reflexivity. }
  unfold main. cbv zeta. cbn [get]. rewrite Hne, Hd. simpl andb. cbv iota.
  eexists. split; [reflexivity|]. split; [|reflexivity].
  simpl. now rewrite <- app_assoc.
Qed.

(** X11. The hook decides by itself only for a Bash command under
    loaded rules: for any other tool, and for any command when the rules
    cannot be loaded, it runs the Slack approval. *)
Theorem other_tools_and_missing_rules_ask
  (fuel : nat) (tool_name : string) (command : option string)
  (f : Classifier.rules_file) (w : world) (thread_ts : option string)
  (message_text : string) (st : hook_state) :
  tool_name <> "Bash" \/ Classifier.load_command_rules f = None ->
  main fuel tool_name command f w thread_ts message_text st
  = approval_session fuel w thread_ts message_text st.
Proof.
  intros [Htool | Hload]; unfold main; cbv zeta.
  - apply String.eqb_neq in Htool. now rewrite Htool.
  - destruct (String.eqb tool_name "Bash" && truthy (get command ""));
      [|reflexivity].
    unfold Classifier.classify_command, Classifier.classify_run.
    now rewrite Hload.
Qed.

(** X12. A Bash command all of whose segments are rated safe is approved
    at once: the hook prints the allow and exits, with no post to Slack,
    no poll and no change of the pending file. *)
Theorem safe_command_is_approved_silently
  (fuel : nat) (cmd : string)
  (f : Classifier.rules_file) (rules : Classifier.command_rules)
  (w : world) (thread_ts : option string) (message_text : string)
  (st : hook_state) :
  Classifier.load_command_rules f = Some rules ->
  cmd <> "" ->
  Forall (fun s => Classifier._classify_single s rules = Classifier.Safe)
    (Classifier._split_chained_commands cmd) ->
  exists st',
    main fuel "Bash" (Some cmd) f w thread_ts message_text st
    = Some (AutoApproved, st')
    /\ log st'
       = log st ++ [PrintDecision Allow "Auto-approved: safe command"; Exit 0]
    /\ pending_file st' = pending_file st.
Proof.
  intros Hload Hne Hall. apply truthy_true in Hne.
  assert (Hs : Classifier.classify_command f cmd = Classifier.Safe).
  { rewrite (SplitFacts.classify_worst_of f rules cmd Hload).
    induction Hall as [|s l Hs _ IH]; [reflexivity|].
    simpl. now rewrite Hs, IH. }
  unfold main. cbv zeta. cbn [get]. rewrite Hne, Hs. simpl andb. cbv iota.
  eexists. split; [reflexivity|]. split; [|reflexivity].
  simpl. now rewrite <- app_assoc.
Qed.

End WithEngine.


(** A deny that is printed, and a page that is not JSON: the exit code
    is 0 in the one run, and the other has none. *)
Example exit_code_of_a_deny :
  option_map (fun e => match e with
                       | Transport.Exited _ st' => (true, exit_codes (log st'))
                       | Transport.Raised st' => (false, exit_codes (log st'))
                       end)
    (Transport.main (engine := literal_engine) 151 "Bash" (Some "rm -rf /")
       Samples.sample_file TransportSamples.error_page None
       ApprovalSamples.request_text ApprovalSamples.fresh_state)
  = Some (true, [0%Z])
  /\ option_map (fun e => match e with
                          | Transport.Exited _ st' => (true, exit_codes (log st'))
                          | Transport.Raised st' => (false, exit_codes (log st'))
                          end)
       (Transport.main (engine := literal_engine) 151 "Bash"
          (Some "git push origin") Samples.sample_file
          TransportSamples.error_page None
          ApprovalSamples.request_text ApprovalSamples.fresh_state)
     = Some (false, []).
Proof. split; vm_compute; reflexivity. Qed.

Lemma denied_command_is_blocked_silently_witness :
  Classifier.load_command_rules Samples.sample_file = Some Samples.sample_rules
  /\ In "rm -rf /tmp/x"
       (Classifier._split_chained_commands "git push && rm -rf /tmp/x")
  /\ In "rm -rf" (Classifier.deny_patterns Samples.sample_rules)
  /\ re_search (RegexEngine := literal_engine) "rm -rf" "rm -rf /tmp/x" = true
  /\ exists st',
       main (engine := literal_engine) 0 "Bash"
         (Some "git push && rm -rf /tmp/x") Samples.sample_file
         ApprovalSamples.thumbs_world None ApprovalSamples.request_text
         ApprovalSamples.fresh_state
       = Some (Blocked, st').
Proof.
  assert (H1 : Classifier.load_command_rules Samples.sample_file
               = Some Samples.sample_rules) by reflexivity.
  assert (H2 : In "rm -rf /tmp/x"
                 (Classifier._split_chained_commands
                    "git push && rm -rf /tmp/x")) by (vm_compute; auto).
  assert (H3 : In "rm -rf" (Classifier.deny_patterns Samples.sample_rules))
    by (vm_compute; auto).
  assert (H4 : re_search (RegexEngine := literal_engine)
                 "rm -rf" "rm -rf /tmp/x" = true) by reflexivity.
  refine (conj H1 (conj H2 (conj H3 (conj H4 _)))).
  destruct (denied_command_is_blocked_silently (engine := literal_engine) 0
              "git push && rm -rf /tmp/x" "rm -rf /tmp/x" "rm -rf"
              Samples.sample_file Samples.sample_rules
              ApprovalSamples.thumbs_world None ApprovalSamples.request_text
              ApprovalSamples.fresh_state H1 H2 H3 H4)
    as (st' & Hrun & _).
  exists st'. exact Hrun.
Defined.

Lemma other_tools_and_missing_rules_ask_witness :
  ("Write" <> "Bash"
   \/ Classifier.load_command_rules Samples.sample_file = None)
  /\ main (engine := literal_engine) 151 "Write" None Samples.sample_file
       ApprovalSamples.thumbs_world None ApprovalSamples.request_text
       ApprovalSamples.fresh_state
     = approval_session 151 ApprovalSamples.thumbs_world None
         ApprovalSamples.request_text ApprovalSamples.fresh_state.
Proof.
  assert (H : "Write" <> "Bash"
              \/ Classifier.load_command_rules Samples.sample_file = None)
    by (left; discriminate).
  refine (conj H _).
  exact (other_tools_and_missing_rules_ask (engine := literal_engine) 151
           "Write" None Samples.sample_file ApprovalSamples.thumbs_world None
           ApprovalSamples.request_text ApprovalSamples.fresh_state H).
Defined.

Lemma safe_command_is_approved_silently_witness :
  Classifier.load_command_rules Samples.sample_file = Some Samples.sample_rules
  /\ "git status | ls -la" <> ""
  /\ Forall (fun s => Classifier._classify_single s Samples.sample_rules
                      = Classifier.Safe)
       (Classifier._split_chained_commands "git status | ls -la")
  /\ exists st',
       main (engine := literal_engine) 0 "Bash" (Some "git status | ls -la")
         Samples.sample_file ApprovalSamples.quiet_world None
         ApprovalSamples.request_text ApprovalSamples.fresh_state
       = Some (AutoApproved, st').
Proof.
  assert (H1 : Classifier.load_command_rules Samples.sample_file
               = Some Samples.sample_rules) by reflexivity.
  assert (H2 : "git status | ls -la" <> "") by discriminate.
  assert (H3 : Forall (fun s => Classifier._classify_single s
                                  Samples.sample_rules = Classifier.Safe)
                 (Classifier._split_chained_commands "git status | ls -la"))
    by (vm_compute; repeat constructor).
  refine (conj H1 (conj H2 (conj H3 _))).
  destruct (safe_command_is_approved_silently (engine := literal_engine) 0
              "git status | ls -la" Samples.sample_file Samples.sample_rules
              ApprovalSamples.quiet_world None ApprovalSamples.request_text
              ApprovalSamples.fresh_state H1 H2 H3)
    as (st' & Hrun & _).
  exists st'. exact Hrun.
Defined.

End HookFacts.

(** ** More on the session table *)

Module SessionTableMore.
Import Sessions.

(** X13. What [set_session] stored is found again by [get_session],
    with the time of the first clock reading, unless the second reading
    is a day or more after the first: then the entry is evicted by the
    very call that wrote it. *)
Theorem get_session_after_set
  (now now' : Q) (thread_ts sid dir : string) (f : sessions_file) :
  get_session thread_ts (set_session now now' thread_ts sid dir f)
  = if Approval.Qltb (now' - SESSION_MAX_AGE) now
    then Some {| session_id := sid; project_dir := dir;
                 last_active := Some now |}
    else None.
Proof.
  unfold get_session.
  set (info := {| session_id := sid; project_dir := dir;
                  last_active := Some now |}).
  destruct (Approval.Qltb (now' - SESSION_MAX_AGE) now) eqn:E.
  - apply SessionTableFacts.set_session_lookup. split; [exact E|].
    left. split; reflexivity.
  - destruct (load_sessions (set_session now now' thread_ts sid dir f)
                !! thread_ts) as [info'|] eqn:Hk; [|reflexivity].
    apply SessionTableFacts.set_session_lookup in Hk
      as [Hfresh [[_ ->]|[Hne _]]]; [|congruence].
    unfold fresh in Hfresh. simpl in Hfresh. congruence.
Qed.

(** X14. [touch_session] never creates a session: for a thread without
    an entry it leaves the file as it is, a missing file included.  For
    a thread with an entry it keeps the session id and the project
    directory and sets the time. *)
Theorem touch_session_known_or_not
  (now : Q) (thread_ts : string) (f : sessions_file) :
  (get_session thread_ts f = None -> touch_session now thread_ts f = f)
  /\ (forall info,
        get_session thread_ts f = Some info ->
        get_session thread_ts (touch_session now thread_ts f)
        = Some {| session_id := session_id info;
                  project_dir := project_dir info;
                  last_active := Some now |}).
Proof.
  unfold get_session, touch_session. split.
  - intros H. now rewrite H.
  - intros info H. rewrite H. simpl. apply lookup_insert_eq.
Qed.

End SessionTableMore.

(** ** What a handler posts and runs *)

Module HandlerFacts.
Import Str StrFacts Sessions Dispatcher HandlerLog.

Lemma take_drop (n : nat) (s : string) : take n s +:+ drop n s = s.
Proof.
  unfold take. revert s. induction n as [|n IH]; intros [|c s]; try reflexivity.
  simpl substring. simpl drop. rewrite append_cons. now rewrite IH.
Qed.

Lemma length_take (n : nat) (s : string) : String.length (take n s) <= n.
Proof.
  unfold take. revert s. induction n as [|n IH]; intros [|c s]; simpl;
    try lia. specialize (IH s). lia.
Qed.

Lemma take_nonempty (n : nat) (s : string) :
  s <> "" -> take (S n) s <> "".
Proof. destruct s; [congruence|]. discriminate. Qed.

Lemma length_drop (n : nat) (s : string) :
  s <> "" -> String.length (drop (S n) s) < String.length s.
Proof.
  destruct s as [|c s]; [congruence|]. intros _. simpl.
  revert s. induction n as [|n IH]; intros s; simpl; [lia|].
  destruct s as [|d s]; simpl; [lia|]. specialize (IH s). lia.
Qed.

(** What [post_chunks] posts: the pieces of the response, in order. *)
Lemma post_chunks_log (fuel : nat) (remaining thread_ts : string)
  (st : daemon_state) :
  String.length remaining <= fuel ->
  exists chunks,
    log (post_chunks fuel remaining thread_ts st)
    = log st ++ map (fun c => PostMessage c thread_ts) chunks
    /\ join_chunks chunks = remaining
    /\ Forall (fun c => c <> "" /\ String.length c <= 4000) chunks.
Proof.
  revert remaining st. induction fuel as [|fuel IH]; intros remaining st Hlen.
  - destruct remaining; [|simpl in Hlen; lia].
    exists []. simpl. rewrite app_nil_r. auto.
  - rewrite DispatcherFacts.post_chunks_step.
    destruct (truthy remaining) eqn:Et.
    + apply truthy_true in Et.
      destruct (IH (drop 4000 remaining)
                  (emit (PostMessage (take 4000 remaining) thread_ts) st))
        as (chunks & Hlog & Hjoin & Hall).
      { pose proof (length_drop 3999 remaining Et). lia. }
      exists (take 4000 remaining :: chunks). split; [|split].
      * rewrite Hlog. unfold emit. cbn [log map]. now rewrite <- app_assoc.
      * cbn [join_chunks fold_right]. fold (join_chunks chunks).
        rewrite Hjoin. apply take_drop.
      * constructor; [|exact Hall]. split.
        -- now apply (take_nonempty 3999).
        -- apply length_take.
    + apply truthy_false in Et. subst remaining.
      exists []. simpl. rewrite app_nil_r. auto.
Qed.

(** X15. A response is posted in the thread as chunks that, put back
    together in order, are the response; no chunk is empty and none is
    longer than 4000 characters.  An empty response posts nothing. *)
Theorem post_chunks_reassemble
  (response thread_ts : string) (st : daemon_state) :
  exists chunks,
    log (post_chunks (String.length response) response thread_ts st)
    = log st ++ map (fun c => PostMessage c thread_ts) chunks
    /\ join_chunks chunks = response
    /\ Forall (fun c => c <> "" /\ String.length c <= 4000) chunks
    /\ (response = "" -> chunks = []).
Proof.
  destruct (post_chunks_log (String.length response) response thread_ts st)
    as (chunks & Hlog & Hjoin & Hall); [lia|].
  exists chunks. repeat split; try assumption.
  intros ->. destruct chunks as [|c chunks]; [reflexivity|].
  apply Forall_cons in Hall as [[Hc _] _].
  cbn [join_chunks fold_right] in Hjoin. destruct c; [congruence|discriminate].
Qed.

(** The end of [_process_message]: the thinking message is deleted when
    it was posted, then the response is posted. *)
Lemma finish_log (w : world) (response thread_ts : string) (st : daemon_state) :
  exists chunks,
    log (post_chunks (String.length response) response thread_ts
           (if truthy_id (thinking_ts w)
            then emit (DeleteMessage (get (thinking_ts w) "")) st
            else st))
    = log st
      ++ (if truthy_id (thinking_ts w)
          then [DeleteMessage (get (thinking_ts w) "")] else [])
      ++ map (fun c => PostMessage c thread_ts) chunks
    /\ join_chunks chunks = response.
Proof.
  match goal with
  | |- context [post_chunks ?n ?r ?t ?s] =>
      destruct (post_chunks_log n r t s) as (chunks & Hlog & Hjoin & _);
      [lia|]
  end.
  exists chunks. split; [|exact Hjoin]. rewrite Hlog.
  destruct (truthy_id (thinking_ts w)); simpl; now rewrite <- ?app_assoc.
Qed.

(** What a handler does when [run_claude] returns. *)
Lemma process_message_log
  (w : world) (text thread_ts : string) (is_thread_reply : bool)
  (st : daemon_state) (prompt dir : string) (sid : option string) :
  AgentOutput.agent_call w text thread_ts is_thread_reply st
  = (prompt, dir, sid) ->
  exists ops chunks,
    log (_process_message w text thread_ts is_thread_reply st)
    = log st
      ++ [PostMessage THINKING thread_ts; RunClaude prompt dir sid]
      ++ ops
      ++ (if truthy_id (thinking_ts w)
          then [DeleteMessage (get (thinking_ts w) "")] else [])
      ++ map (fun c => PostMessage c thread_ts) chunks
    /\ Forall (fun e => is_session_op e = true) ops
    /\ length ops <= 1
    /\ join_chunks chunks = fst (run_claude (agent w prompt dir sid) sid).
Proof.
  unfold AgentOutput.agent_call, _process_message, call_claude, store_new.
  intros Hcall. destruct is_thread_reply.
  - cbn [sessions emit].
    destruct (get_session thread_ts (sessions st)) as [session|].
    + injection Hcall as <- <- <-.
      destruct (run_claude _ _) as [response new_id] eqn:Hrun.
      destruct (truthy_id new_id);
        match goal with
        | |- context [post_chunks _ ?r ?t (if _ then emit _ ?s else ?s)] =>
            destruct (finish_log w r t s) as (chunks & Hlog & Hjoin)
        end;
        eexists [_], chunks;
        (split; [rewrite Hlog; simpl; rewrite <- !app_assoc; reflexivity|]);
        (split; [repeat constructor|]);
        (split; [simpl; lia|]); exact Hjoin.
    + destruct (resolve_project_and_prompt w text) as [dir' prompt'].
      injection Hcall as <- <- <-.
      destruct (run_claude _ _) as [response new_id] eqn:Hrun.
      destruct (truthy_id new_id);
        match goal with
        | |- context [post_chunks _ ?r ?t (if _ then emit _ ?s else ?s)] =>
            destruct (finish_log w r t s) as (chunks & Hlog & Hjoin)
        end.
      * eexists [_], chunks.
        split; [rewrite Hlog; simpl; rewrite <- !app_assoc; reflexivity|].
        split; [repeat constructor|]. split; [simpl; lia|].
        exact Hjoin.
      * eexists [], chunks.
        split; [rewrite Hlog; simpl; rewrite <- !app_assoc; reflexivity|].
        split; [constructor|]. split; [simpl; lia|].
        exact Hjoin.
  - destruct (resolve_project_and_prompt w text) as [dir' prompt'].
    injection Hcall as <- <- <-.
    destruct (run_claude _ _) as [response new_id] eqn:Hrun.
    destruct (truthy_id new_id);
      match goal with
      | |- context [post_chunks _ ?r ?t (if _ then emit _ ?s else ?s)] =>
          destruct (finish_log w r t s) as (chunks & Hlog & Hjoin)
      end.
    + eexists [_], chunks.
      split; [rewrite Hlog; simpl; rewrite <- !app_assoc; reflexivity|].
      split; [repeat constructor|]. split; [simpl; lia|].
      exact Hjoin.
    + eexists [], chunks.
      split; [rewrite Hlog; simpl; rewrite <- !app_assoc; reflexivity|].
      split; [constructor|]. split; [simpl; lia|].
      exact Hjoin.
Qed.

(** The two ways of a handler: [run_claude] raises, and the handler with
    it, or it returns, and the handler goes on as
    [Dispatcher._process_message] does. *)
Lemma process_message_cases
  (ends : AgentOutput.agent_ends) (w : world) (text thread_ts : string)
  (is_thread_reply : bool) (st : daemon_state)
  (prompt dir : string) (sid : option string) :
  AgentOutput.agent_call w text thread_ts is_thread_reply st
  = (prompt, dir, sid) ->
  AgentOutput._process_message ends w text thread_ts is_thread_reply st
  = match AgentOutput.readable (ends prompt dir sid) with
    | None =>
        AgentOutput.Raised
          (emit (RunClaude prompt dir sid)
             (emit (PostMessage THINKING thread_ts) st))
    | Some result =>
        AgentOutput.Finished
          (_process_message (AgentOutput.answering w result) text thread_ts
             is_thread_reply st)
    end.
Proof.
  unfold AgentOutput.agent_call.
  unfold AgentOutput._process_message, _process_message.
  unfold AgentOutput.call_claude, call_claude, AgentOutput.run_claude.
  unfold store_new, do_set_session, do_touch_session.
  cbv zeta.
  cbn [AgentOutput.answering agent thinking_ts now now'
         resolve_project_and_prompt sessions emit].
  intros Hcall. destruct is_thread_reply.
  - destruct (get_session thread_ts (sessions st)) as [session|].
    + injection Hcall as <- <- <-.
      destruct (AgentOutput.readable _) as [result|]; [|reflexivity].
      destruct (run_claude result (Some (session_id session)))
        as [response new_session_id].
      destruct (truthy_id new_session_id); reflexivity.
    + destruct (resolve_project_and_prompt w text) as [dir' prompt'].
      injection Hcall as <- <- <-.
      destruct (AgentOutput.readable _) as [result|]; [|reflexivity].
      destruct (run_claude result None) as [response new_session_id].
      reflexivity.
  - destruct (resolve_project_and_prompt w text) as [dir' prompt'].
    injection Hcall as <- <- <-.
    destruct (AgentOutput.readable _) as [result|]; [|reflexivity].
    destruct (run_claude result None) as [response new_session_id].
    reflexivity.
Qed.

(** X16. Whenever [run_claude] returns (the agent timed out, was not
    found, failed, printed nothing, printed something that is not JSON,
    or printed a JSON object), the handler runs the agent exactly once
    and finishes.  It posts the thinking message, runs the agent, makes
    at most one call on the session table, deletes the thinking message
    when that had been posted, and then posts what [run_claude]
    returned, in chunks; nothing else. *)
Theorem process_message_runs_agent_once
  (ends : AgentOutput.agent_ends) (w : world) (text thread_ts : string)
  (is_thread_reply : bool) (st : daemon_state)
  (prompt dir : string) (sid : option string) (result : subprocess_result) :
  AgentOutput.agent_call w text thread_ts is_thread_reply st
  = (prompt, dir, sid) ->
  AgentOutput.readable (ends prompt dir sid) = Some result ->
  exists ops chunks st',
    AgentOutput._process_message ends w text thread_ts is_thread_reply st
    = AgentOutput.Finished st'
    /\ log st'
       = log st
         ++ [PostMessage THINKING thread_ts; RunClaude prompt dir sid]
         ++ ops
         ++ (if truthy_id (thinking_ts w)
             then [DeleteMessage (get (thinking_ts w) "")] else [])
         ++ map (fun c => PostMessage c thread_ts) chunks
    /\ Forall (fun e => is_session_op e = true) ops
    /\ length ops <= 1
    /\ join_chunks chunks = fst (run_claude result sid).
Proof.
  intros Hcall Hread.
  rewrite (process_message_cases ends w text thread_ts is_thread_reply st
             prompt dir sid Hcall), Hread.
  destruct (process_message_log (AgentOutput.answering w result) text
              thread_ts is_thread_reply st prompt dir sid)
    as (ops & chunks & Hlog & Hops & Hlen & Hjoin).
  { rewrite <- Hcall. reflexivity. }
  eexists ops, chunks, _. split; [reflexivity|].
  split; [exact Hlog|]. split; [exact Hops|]. split; [exact Hlen|].
  exact Hjoin.
Qed.

(** X29. When the agent's standard output is not empty and is valid
    JSON without being an object, [run_claude] raises and the handler
    stops on the spot: the thinking message has been posted and is
    never deleted, the agent has run, no response is posted and the
    session table is left alone. *)
Theorem non_object_output_strands_thinking
  (ends : AgentOutput.agent_ends) (w : world) (text thread_ts : string)
  (is_thread_reply : bool) (st : daemon_state)
  (prompt dir : string) (sid : option string) (out err : string) :
  AgentOutput.agent_call w text thread_ts is_thread_reply st
  = (prompt, dir, sid) ->
  ends prompt dir sid
  = AgentOutput.EndCompleted out err AgentOutput.NotAnObject ->
  strip out <> "" ->
  exists st',
    AgentOutput._process_message ends w text thread_ts is_thread_reply st
    = AgentOutput.Raised st'
    /\ log st'
       = log st ++ [PostMessage THINKING thread_ts; RunClaude prompt dir sid]
    /\ sessions st' = sessions st.
Proof.
  intros Hcall Hend Hout.
  rewrite (process_message_cases ends w text thread_ts is_thread_reply st
             prompt dir sid Hcall), Hend.
  unfold AgentOutput.readable. apply truthy_true in Hout. rewrite Hout.
  simpl negb. cbv iota.
  eexists. split; [reflexivity|]. split; [|reflexivity].
  simpl. now rewrite <- app_assoc.
Qed.

(** X17. A conversation that has no stored session (a new message, or
    a reply in a thread without an entry) and whose agent run gives no
    session id leaves the session table as it was: nothing is stored and
    no call is made on the table. *)
Theorem no_session_id_stores_nothing
  (w : world) (text thread_ts : string) (is_thread_reply : bool)
  (st : daemon_state) :
  is_thread_reply = false \/ get_session thread_ts (sessions st) = None ->
  no_new_session
    (agent w (snd (resolve_project_and_prompt w text))
       (fst (resolve_project_and_prompt w text)) None) ->
  let st' := _process_message w text thread_ts is_thread_reply st in
  sessions st' = sessions st
  /\ session_ops (log st') = session_ops (log st).
Proof.
  intros Hnew Hfail. cbv zeta.
  assert (Hnone : forall st1 : daemon_state,
             sessions st1 = sessions st ->
             session_ops (log st1) = session_ops (log st) ->
             let '(dir, prompt) := resolve_project_and_prompt w text in
             let '(response, new_id, st2) := call_claude w prompt dir None st1 in
             let st3 := store_new w thread_ts new_id dir st2 in
             let st4 := if truthy_id (thinking_ts w)
                        then emit (DeleteMessage (get (thinking_ts w) "")) st3
                        else st3 in
             sessions (post_chunks (String.length response) response
                         thread_ts st4) = sessions st
             /\ session_ops (log (post_chunks (String.length response) response
                                   thread_ts st4)) = session_ops (log st)).
  { intros st1 Hs Hl.
    destruct (resolve_project_and_prompt w text) as [dir prompt].
    simpl in Hfail. unfold call_claude.
    pose proof (DispatcherFacts.run_claude_keeps_id _ None Hfail) as Hid.
    destruct (run_claude (agent w prompt dir None) None)
      as [response new_id]. simpl in Hid. subst new_id.
    unfold store_new. cbn [truthy_id]. cbv zeta.
    match goal with
    | |- context [post_chunks ?n ?r ?t ?s] =>
        destruct (DispatcherFacts.post_chunks_sessions n r t s) as [Hs' Hl']
    end.
    rewrite Hs', Hl'.
    destruct (truthy_id (thinking_ts w));
      rewrite ?DispatcherFacts.session_ops_emit; cbn [is_session_op sessions emit];
      rewrite ?app_nil_r, ?DispatcherFacts.session_ops_emit;
      cbn [is_session_op]; rewrite ?app_nil_r; auto. }
  specialize (Hnone (emit (PostMessage
                             ":hourglass_flowing_sand: Claude is thinking..."
                             thread_ts) st) eq_refl).
  rewrite DispatcherFacts.session_ops_emit in Hnone. cbn [is_session_op] in Hnone.
  rewrite app_nil_r in Hnone. specialize (Hnone eq_refl).
  unfold _process_message.
  destruct Hnew as [-> | Hget].
  - destruct (resolve_project_and_prompt w text) as [dir prompt].
    destruct (call_claude w prompt dir None _) as [[response new_id] st2].
    exact Hnone.
  - destruct is_thread_reply.
    + cbn [sessions emit]. rewrite Hget.
      destruct (resolve_project_and_prompt w text) as [dir prompt].
      destruct (call_claude w prompt dir None _) as [[response new_id] st2].
      exact Hnone.
    + destruct (resolve_project_and_prompt w text) as [dir prompt].
      destruct (call_claude w prompt dir None _) as [[response new_id] st2].
      exact Hnone.
Qed.

Lemma no_session_id_stores_nothing_witness :
  (false = false
   \/ get_session "1700000900.000100" (sessions DispatcherSamples.before) = None)
  /\ no_new_session
       (agent DispatcherSamples.timeout_world
          (snd (resolve_project_and_prompt DispatcherSamples.timeout_world "hi"))
          (fst (resolve_project_and_prompt DispatcherSamples.timeout_world "hi"))
          None)
  /\ sessions (_process_message DispatcherSamples.timeout_world "hi"
                 "1700000900.000100" false DispatcherSamples.before)
     = sessions DispatcherSamples.before.
Proof.
  assert (H1 : false = false
               \/ get_session "1700000900.000100"
                    (sessions DispatcherSamples.before) = None)
    by (left; reflexivity).
  assert (H2 : no_new_session
                 (agent DispatcherSamples.timeout_world
                    (snd (resolve_project_and_prompt
                            DispatcherSamples.timeout_world "hi"))
                    (fst (resolve_project_and_prompt
                            DispatcherSamples.timeout_world "hi"))
                    None)) by exact I.
  refine (conj H1 (conj H2 _)).
  exact (proj1 (no_session_id_stores_nothing DispatcherSamples.timeout_world
                  "hi" "1700000900.000100" false DispatcherSamples.before
                  H1 H2)).
Defined.

Lemma process_message_runs_agent_once_witness :
  AgentOutput.agent_call DispatcherSamples.timeout_world "and then?"
    "1700000000.000200" true DispatcherSamples.before
  = ("and then?", "/srv/b", Some "s-new")
  /\ AgentOutput.readable AgentOutput.EndTimeout = Some TimeoutExpired
  /\ exists st',
       AgentOutput._process_message (fun _ _ _ => AgentOutput.EndTimeout)
         DispatcherSamples.timeout_world "and then?" "1700000000.000200" true
         DispatcherSamples.before
       = AgentOutput.Finished st'.
Proof.
  assert (H1 : AgentOutput.agent_call DispatcherSamples.timeout_world
                 "and then?" "1700000000.000200" true DispatcherSamples.before
               = ("and then?", "/srv/b", Some "s-new"))
    by (vm_compute; reflexivity).
  assert (H2 : AgentOutput.readable AgentOutput.EndTimeout
               = Some TimeoutExpired) by reflexivity.
  refine (conj H1 (conj H2 _)).
  destruct (process_message_runs_agent_once
              (fun _ _ _ => AgentOutput.EndTimeout)
              DispatcherSamples.timeout_world "and then?" "1700000000.000200"
              true DispatcherSamples.before "and then?" "/srv/b"
              (Some "s-new") TimeoutExpired H1 H2)
    as (ops & chunks & st' & Hrun & _).
  exists st'. exact Hrun.
Defined.

Lemma non_object_output_strands_thinking_witness :
  AgentOutput.agent_call DispatcherSamples.timeout_world "and then?"
    "1700000000.000200" true DispatcherSamples.before
  = ("and then?", "/srv/b", Some "s-new")
  /\ AgentOutput.prints_a_list "and then?" "/srv/b" (Some "s-new")
     = AgentOutput.EndCompleted "[1, 2]" "" AgentOutput.NotAnObject
  /\ strip "[1, 2]" <> ""
  /\ exists st',
       AgentOutput._process_message AgentOutput.prints_a_list
         DispatcherSamples.timeout_world "and then?" "1700000000.000200" true
         DispatcherSamples.before
       = AgentOutput.Raised st'
       /\ log st'
          = [ PostMessage THINKING "1700000000.000200";
              RunClaude "and then?" "/srv/b" (Some "s-new") ].
Proof.
  assert (H1 : AgentOutput.agent_call DispatcherSamples.timeout_world
                 "and then?" "1700000000.000200" true DispatcherSamples.before
               = ("and then?", "/srv/b", Some "s-new"))
    by (vm_compute; reflexivity).
  assert (H2 : AgentOutput.prints_a_list "and then?" "/srv/b" (Some "s-new")
               = AgentOutput.EndCompleted "[1, 2]" "" AgentOutput.NotAnObject)
    by reflexivity.
  assert (H3 : strip "[1, 2]" <> "") by (vm_compute; discriminate).
  refine (conj H1 (conj H2 (conj H3 _))).
  destruct (non_object_output_strands_thinking AgentOutput.prints_a_list
              DispatcherSamples.timeout_world "and then?" "1700000000.000200"
              true DispatcherSamples.before "and then?" "/srv/b"
              (Some "s-new") "[1, 2]" "" H1 H2 H3)
    as (st' & Hrun & Hlog & _).
  exists st'. split; [exact Hrun|exact Hlog].
Defined.

End HandlerFacts.

(** ** A free thread is admitted *)

Module SingleFlightMore.
Import SingleFlight SingleFlightFacts.

(** X18. A message is dropped only while a handler of its thread is
    inside: in every reachable pool, a handler that arrives for a thread
    that no handler holds passes the membership test and then holds the
    thread itself, without any agent run yet; and when no handler is
    inside, [_active_threads] is empty. *)
Theorem free_thread_is_admitted (ls : list label) :
  let p := run ls init in
  (forall j h,
      handlers p !! j = Some h ->
      at_pc h = AtEntry ->
      thread_ts h ∉ holding p ->
      let p' := step (Run j) p in
      handlers p' !! j
      = Some {| thread_ts := thread_ts h; at_pc := Processing |}
      /\ thread_ts h ∈ holding p'
      /\ thread_ts h ∈ _active_threads p'
      /\ invoked p' = invoked p)
  /\ (holding p = [] -> _active_threads p = ∅).
Proof.
  cbv zeta. pose proof (run_invariant ls init init_invariant) as Hinv.
  set (p := run ls init) in *. destruct Hinv as (Hnd & Hact & Hruns).
  split.
  - intros j h Hj Hat Hfree. simpl. rewrite Hj, Hat.
    destruct (decide (thread_ts h ∈ _active_threads p)) as [Hin|Hout];
      [exfalso; apply Hfree; now apply Hact|].
    simpl. split; [|split; [|split; [|reflexivity]]].
    + unfold move. apply list_lookup_insert_eq. now apply lookup_lt_Some with h.
    + destruct (move_split (handlers p) j h Processing Hj)
        as (l1 & l2 & Hhs & Hmove).
      unfold holding. simpl. rewrite Hmove, held_app, held_cons.
      unfold inside. simpl. apply elem_of_app. right. apply elem_of_cons.
      now left.
    + apply elem_of_union. left. now apply elem_of_singleton.
  - intros Hempty. apply set_eq. intros t. rewrite Hact, Hempty.
    split; intros H; [inversion H | set_solver].
Qed.

End SingleFlightMore.

(** ** The project and the prompt of a message *)

Module ResolveFacts.
Import Str StrFacts Resolve.

Lemma span_concat (test : ascii -> bool) (s : string) :
  s = fst (span test s) +:+ snd (span test s).
Proof.
  induction s as [|c s IH]; [reflexivity|]. simpl.
  destruct (test c); [|reflexivity].
  destruct (span test s) as [run rest]. simpl in *.
  rewrite append_cons. now f_equal.
Qed.

Lemma span_space_rest (s : string) : snd (span is_space s) = lstrip s.
Proof.
  induction s as [|c s IH]; [reflexivity|]. simpl.
  destruct (is_space c); [|reflexivity].
  destruct (span is_space s). exact IH.
Qed.

(** A run of the class followed by a character outside it is the span. *)
Lemma span_run (test : ascii -> bool) (run : string) (c : ascii) (rest : string) :
  all_chars test run = true ->
  test c = false ->
  span test (run +:+ String c rest) = (run, String c rest).
Proof.
  intros Hrun Hc. induction run as [|d run IH].
  - simpl. now rewrite Hc.
  - simpl in Hrun. apply andb_true_iff in Hrun as [Hd Hrun].
    rewrite append_cons. simpl. rewrite Hd, (IH Hrun). reflexivity.
Qed.

Lemma last_char_suffix (s : string) :
  s <> "" -> last_char s <> "" /\ exists a, s = a +:+ last_char s.
Proof.
  induction s as [|c s IH]; [congruence|]. intros _.
  destruct s as [|d s].
  - split; [discriminate|]. now exists "".
  - destruct IH as [Hne [a Ha]]; [discriminate|].
    change (last_char (String c (String d s))) with (last_char (String d s)).
    split; [exact Hne|]. exists (String c a). rewrite append_cons.
    now f_equal.
Qed.

Lemma append_nil_r (s : string) : s +:+ "" = s.
Proof. induction s; [reflexivity|]. rewrite append_cons. now f_equal. Qed.

(** The group of [\s*(.+)] is a non-empty end of the string. *)
Lemma spaces_then_group_suffix (need : bool) (s g : string) :
  spaces_then_group need s = Some g ->
  g <> "" /\ exists a, s = a +:+ g.
Proof.
  unfold spaces_then_group.
  pose proof (span_concat is_space s) as Hs.
  destruct (span is_space s) as [ws rest]. simpl in Hs.
  destruct rest as [|c rest].
  - destruct (String.length ws <? (if need then 2 else 1))%nat eqn:E;
      [discriminate|]. intros [= <-].
    assert (Hws : ws <> "").
    { intros ->. destruct need; discriminate. }
    destruct (last_char_suffix ws Hws) as [Hne [a Ha]].
    split; [exact Hne|]. exists a. now rewrite Hs, append_nil_r.
  - destruct (need && negb (truthy ws)); [discriminate|]. intros [= <-].
    split; [discriminate|]. now exists ws.
Qed.

Lemma append_cancel_nil (t x : string) : t = t +:+ x -> x = "".
Proof.
  induction t as [|c t IH]; [intros H; exact (eq_sym H)|].
  rewrite append_cons. intros [= H]. now apply IH.
Qed.

Lemma lstrip_blank_rstrip (x : string) : lstrip x = "" -> rstrip x = "".
Proof.
  induction x as [|c x IH]; [reflexivity|]. simpl.
  destruct (is_space c) eqn:E; [|discriminate].
  intros H. now rewrite (IH H).
Qed.

Lemma strip_blank_rstrip (g : string) : strip g = "" -> rstrip g = "".
Proof.
  unfold strip. intros H. apply lstrip_blank_rstrip in H.
  now rewrite rstrip_idem in H.
Qed.

Lemma rstrip_app_blank (a g : string) :
  rstrip g = "" -> rstrip (a +:+ g) = rstrip a.
Proof.
  intros Hg. induction a as [|c a IH]; [exact Hg|].
  rewrite append_cons.
  change (rstrip (String c (a +:+ g)))
    with (match rstrip (a +:+ g) with
          | EmptyString => if is_space c then EmptyString else String c EmptyString
          | r' => String c r'
          end).
  now rewrite IH.
Qed.

(** A non-empty end of a string without trailing whitespace is not
    blank. *)
Lemma suffix_not_blank (t a g : string) :
  rstrip t = t -> t = a +:+ g -> g <> "" -> strip g <> "".
Proof.
  intros Ht Hag Hg Hblank. apply strip_blank_rstrip in Hblank.
  rewrite Hag, (rstrip_app_blank a g Hblank) in Ht.
  destruct (SplitFacts.rstrip_prefix a) as [post Hpost].
  rewrite Hpost in Ht at 2. rewrite append_assoc in Ht.
  apply append_cancel_nil in Ht.
  destruct post; [|discriminate]. simpl in Ht. contradiction.
Qed.

Lemma rstrip_strip (text : string) : rstrip (strip text) = strip text.
Proof. unfold strip. now rewrite rstrip_lstrip, rstrip_idem. Qed.

Lemma match_path_groups (t g1 g2 : string) :
  match_path t = Some (g1, g2) ->
  String.prefix g1 t = true /\ g2 <> "" /\ exists a, t = a +:+ g2.
Proof.
  unfold match_path. destruct t as [|c r]; [discriminate|].
  destruct (Ascii.eqb c "/"); [|discriminate].
  pose proof (span_concat is_nonspace r) as Hr.
  destruct (span is_nonspace r) as [run rest]. simpl in Hr.
  destruct (truthy run); [|discriminate].
  destruct (spaces_then_group true rest) as [g|] eqn:Eg; [|discriminate].
  intros [= <- <-].
  apply spaces_then_group_suffix in Eg as [Hne [a Ha]].
  split; [|split; [exact Hne|]].
  - apply prefix_app. exists rest. rewrite append_cons. now f_equal.
  - exists (String c (run +:+ a)).
    rewrite append_cons, append_assoc, <- Ha. now f_equal.
Qed.

Lemma match_colon_groups (t w g2 : string) :
  match_colon t = Some (w, g2) -> g2 <> "" /\ exists a, t = a +:+ g2.
Proof.
  unfold match_colon.
  pose proof (span_concat is_word t) as Ht.
  destruct (span is_word t) as [word rest]. simpl in Ht.
  destruct (truthy word); [|discriminate].
  destruct rest as [|c r]; [discriminate|].
  destruct (Ascii.eqb c ":"); [|discriminate].
  destruct (spaces_then_group false r) as [g|] eqn:Eg; [|discriminate].
  intros [= <- <-].
  apply spaces_then_group_suffix in Eg as [Hne [a Ha]].
  split; [exact Hne|]. exists (word +:+ String c a).
  rewrite append_assoc, append_cons, <- Ha. exact Ht.
Qed.

Lemma match_word_groups (t w g2 : string) :
  match_word t = Some (w, g2) -> g2 <> "" /\ exists a, t = a +:+ g2.
Proof.
  unfold match_word.
  pose proof (span_concat is_word t) as Ht.
  destruct (span is_word t) as [word rest]. simpl in Ht.
  destruct (truthy word); [|discriminate].
  destruct (spaces_then_group true rest) as [g|] eqn:Eg; [|discriminate].
  intros [= <- <-].
  apply spaces_then_group_suffix in Eg as [Hne [a Ha]].
  split; [exact Hne|]. exists (word +:+ a).
  now rewrite append_assoc, <- Ha.
Qed.

Lemma by_shorthand_some (env : projects) (m : option (string * string))
  (dir prompt : string) :
  by_shorthand env m = Some (dir, prompt) ->
  exists w g2,
    m = Some (w, g2) /\ PROJECT_MAP env !! lower w = Some dir
    /\ prompt = strip g2.
Proof.
  unfold by_shorthand. destruct m as [[w g2]|]; [|discriminate].
  destruct (PROJECT_MAP env !! lower w) as [d|] eqn:E; [|discriminate].
  intros [= <- <-]. now exists w, g2.
Qed.

(** X19. The directory [resolve_project_and_prompt] returns is never
    made up: it is the default directory, or an existing directory that
    the stripped text starts with, or the directory of a configured
    shorthand. *)
Theorem resolved_project_provenance (env : projects) (text : string) :
  let dir := fst (resolve_project_and_prompt env text) in
  dir = DEFAULT_PROJECT_DIR env
  \/ (isdir env dir = true /\ String.prefix dir (strip text) = true)
  \/ (exists shorthand, PROJECT_MAP env !! shorthand = Some dir).
Proof.
  cbv zeta. unfold resolve_project_and_prompt. cbv zeta.
  destruct (match_path (strip text)) as [[g1 g2]|] eqn:Ep.
  - destruct (isdir env g1) eqn:Ed.
    + right. left. simpl. split; [exact Ed|].
      now apply match_path_groups in Ep as [Hpre _].
    + destruct (by_shorthand env (match_colon (strip text)))
        as [[d p]|] eqn:E1.
      { apply by_shorthand_some in E1 as (w & g & _ & Hmap & _).
        right. right. now exists (lower w). }
      destruct (by_shorthand env (match_word (strip text)))
        as [[d p]|] eqn:E2; [|now left].
      apply by_shorthand_some in E2 as (w & g & _ & Hmap & _).
      right. right. now exists (lower w).
  - destruct (by_shorthand env (match_colon (strip text)))
      as [[d p]|] eqn:E1.
    { apply by_shorthand_some in E1 as (w & g & _ & Hmap & _).
      right. right. now exists (lower w). }
    destruct (by_shorthand env (match_word (strip text)))
      as [[d p]|] eqn:E2; [|now left].
    apply by_shorthand_some in E2 as (w & g & _ & Hmap & _).
    right. right. now exists (lower w).
Qed.

(** X20. The prompt of a message that is not blank is never empty, and
    it has no whitespace around it, whichever prefix was recognised. *)
Theorem resolved_prompt_not_empty (env : projects) (text : string) :
  strip text <> "" ->
  let prompt := snd (resolve_project_and_prompt env text) in
  prompt <> "" /\ strip prompt = prompt.
Proof.
  intros Hne. cbv zeta. unfold resolve_project_and_prompt. cbv zeta.
  pose proof (rstrip_strip text) as Hstripped.
  assert (Hshort : forall m d p,
             by_shorthand env m = Some (d, p) ->
             (forall w g2, m = Some (w, g2) ->
                           g2 <> "" /\ exists a, strip text = a +:+ g2) ->
             p <> "" /\ strip p = p).
  { intros m d p Hm Hgroups.
    apply by_shorthand_some in Hm as (w & g & -> & _ & ->).
    destruct (Hgroups w g eq_refl) as [Hg [a Ha]].
    split; [exact (suffix_not_blank _ a g Hstripped Ha Hg) | apply strip_idem]. }
  assert (Hrest :
            snd match by_shorthand env (match_colon (strip text)) with
                | Some r => r
                | None =>
                    match by_shorthand env (match_word (strip text)) with
                    | Some r => r
                    | None => (DEFAULT_PROJECT_DIR env, strip text)
                    end
                end <> ""
            /\ strip (snd match by_shorthand env (match_colon (strip text)) with
                          | Some r => r
                          | None =>
                              match by_shorthand env (match_word (strip text)) with
                              | Some r => r
                              | None => (DEFAULT_PROJECT_DIR env, strip text)
                              end
                          end)
               = snd match by_shorthand env (match_colon (strip text)) with
                     | Some r => r
                     | None =>
                         match by_shorthand env (match_word (strip text)) with
                         | Some r => r
                         | None => (DEFAULT_PROJECT_DIR env, strip text)
                         end
                     end).
  { destruct (by_shorthand env (match_colon (strip text)))
      as [[d p]|] eqn:E1.
    { apply (Hshort _ d p E1). intros w g2 Hm.
      now apply match_colon_groups with w. }
    destruct (by_shorthand env (match_word (strip text)))
      as [[d p]|] eqn:E2.
    { apply (Hshort _ d p E2). intros w g2 Hm.
      now apply match_word_groups with w. }
    simpl. split; [exact Hne | apply strip_idem]. }
  destruct (match_path (strip text)) as [[g1 g2]|] eqn:Ep; [|exact Hrest].
  destruct (isdir env g1); [|exact Hrest].
  apply match_path_groups in Ep as (_ & Hg & a & Ha). simpl.
  split; [exact (suffix_not_blank _ a g2 Hstripped Ha Hg) | apply strip_idem].
Qed.

Lemma resolved_prompt_not_empty_witness :
  strip "  Calabrio:   list custom objects " <> ""
  /\ snd (resolve_project_and_prompt sample_projects
            "  Calabrio:   list custom objects ") <> "".
Proof.
  assert (H : strip "  Calabrio:   list custom objects " <> "")
    by (vm_compute; discriminate).
  refine (conj H _).
  exact (proj1 (resolved_prompt_not_empty sample_projects _ H)).
Defined.

Lemma lstrip_not_blank (rest : string) : strip rest <> "" -> lstrip rest <> "".
Proof.
  intros H E. apply H. unfold strip. rewrite <- rstrip_lstrip. now rewrite E.
Qed.

(** The group after whitespace, when something that is not blank
    follows. *)
Lemma spaces_then_group_rest (need : bool) (c : ascii) (rest : string) :
  is_space c = true ->
  strip rest <> "" ->
  spaces_then_group need (String c rest) = Some (lstrip rest)
  /\ spaces_then_group false rest = Some (lstrip rest).
Proof.
  intros Hc Hne. apply lstrip_not_blank in Hne.
  unfold spaces_then_group. simpl span. rewrite Hc.
  pose proof (span_space_rest rest) as Hrest.
  destruct (span is_space rest) as [ws r]. simpl in Hrest. subst r.
  destruct (lstrip rest) as [|d r]; [congruence|].
  split; [|reflexivity]. now rewrite andb_false_r.
Qed.

Lemma word_head_not_slash (w : string) :
  w <> "" -> all_chars is_word w = true ->
  forall rest, match_path (w +:+ rest) = None.
Proof.
  destruct w as [|c w]; [congruence|]. intros _ H rest.
  simpl in H. apply andb_true_iff in H as [Hc _].
  rewrite append_cons. unfold match_path.
  destruct (Ascii.eqb c "/") eqn:E; [|reflexivity].
  apply Ascii.eqb_eq in E. subst c. discriminate.
Qed.

(** X21. A message that starts with a configured shorthand, in any
    letter case, followed by a colon or by a space, and then by
    something that is not blank, resolves to the directory of the
    shorthand, with what follows, stripped, as the prompt. *)
Theorem shorthand_selects_project
  (env : projects) (text w rest dir : string) :
  strip text = w +:+ String ":" rest \/ strip text = w +:+ String " " rest ->
  w <> "" ->
  all_chars is_word w = true ->
  PROJECT_MAP env !! lower w = Some dir ->
  strip rest <> "" ->
  resolve_project_and_prompt env text = (dir, strip rest).
Proof.
  intros Htext Hw Hword Hmap Hrest.
  unfold resolve_project_and_prompt. cbv zeta.
  assert (Hw' : truthy w = true) by now apply truthy_true.
  destruct Htext as [-> | ->]; rewrite (word_head_not_slash w Hw Hword).
  - unfold match_colon.
    rewrite (span_run is_word w ":" rest Hword eq_refl), Hw'. simpl Ascii.eqb.
    cbv iota.
    destruct (lstrip rest) as [|d r] eqn:El.
    { now apply lstrip_not_blank in Hrest. }
    assert (Hg : spaces_then_group false rest = Some (lstrip rest)).
    { unfold spaces_then_group.
      pose proof (span_space_rest rest) as Hs.
      destruct (span is_space rest) as [ws r']. simpl in Hs. subst r'.
      now rewrite El. }
    rewrite Hg. unfold by_shorthand. rewrite Hmap.
    now rewrite SplitFacts.strip_lstrip.
  - unfold match_colon, match_word.
    rewrite (span_run is_word w " " rest Hword eq_refl), Hw'. simpl Ascii.eqb.
    cbv iota. cbn [by_shorthand].
    destruct (spaces_then_group_rest true " " rest eq_refl Hrest) as [Hg _].
    rewrite Hg. unfold by_shorthand. rewrite Hmap.
    now rewrite SplitFacts.strip_lstrip.
Qed.

Lemma shorthand_selects_project_witness :
  (strip " Calabrio list custom objects" = "Calabrio" +:+ String ":" "list custom objects"
   \/ strip " Calabrio list custom objects"
      = "Calabrio" +:+ String " " "list custom objects")
  /\ "Calabrio" <> ""
  /\ all_chars is_word "Calabrio" = true
  /\ PROJECT_MAP sample_projects !! lower "Calabrio"
     = Some "/mnt/c/projects/calabrio"
  /\ strip "list custom objects" <> ""
  /\ resolve_project_and_prompt sample_projects " Calabrio list custom objects"
     = ("/mnt/c/projects/calabrio", strip "list custom objects").
Proof.
  assert (H1 : strip " Calabrio list custom objects"
               = "Calabrio" +:+ String ":" "list custom objects"
               \/ strip " Calabrio list custom objects"
                  = "Calabrio" +:+ String " " "list custom objects")
    by (right; reflexivity).
  assert (H2 : "Calabrio" <> "") by discriminate.
  assert (H3 : all_chars is_word "Calabrio" = true) by reflexivity.
  assert (H4 : PROJECT_MAP sample_projects !! lower "Calabrio"
               = Some "/mnt/c/projects/calabrio") by (vm_compute; reflexivity).
  assert (H5 : strip "list custom objects" <> "") by (vm_compute; discriminate).
  refine (conj H1 (conj H2 (conj H3 (conj H4 (conj H5 _))))).
  exact (shorthand_selects_project sample_projects _ _ _ _ H1 H2 H3 H4 H5).
Defined.

(** X22. A message that starts with the absolute path of an existing
    directory, followed by whitespace and by something that is not
    blank, resolves to that directory before any shorthand is looked
    at, with what follows, stripped, as the prompt. *)
Theorem existing_path_selects_project
  (env : projects) (text p rest : string) (c : ascii) :
  strip text = String "/" p +:+ String c rest ->
  p <> "" ->
  all_chars is_nonspace p = true ->
  is_space c = true ->
  isdir env (String "/" p) = true ->
  strip rest <> "" ->
  resolve_project_and_prompt env text = (String "/" p, strip rest).
Proof.
  intros Htext Hp Hnon Hc Hdir Hrest.
  unfold resolve_project_and_prompt. cbv zeta. rewrite Htext.
  rewrite append_cons. unfold match_path. simpl Ascii.eqb. cbv iota.
  assert (Hc' : is_nonspace c = false) by (unfold is_nonspace; now rewrite Hc).
  rewrite (span_run is_nonspace p c rest Hnon Hc').
  apply truthy_true in Hp. rewrite Hp.
  destruct (spaces_then_group_rest true c rest Hc Hrest) as [Hg _].
  rewrite Hg, Hdir. now rewrite SplitFacts.strip_lstrip.
Qed.

Lemma existing_path_selects_project_witness :
  strip "  /srv/app  run the tests " = String "/" "srv/app" +:+ String " " " run the tests"
  /\ "srv/app" <> ""
  /\ all_chars is_nonspace "srv/app" = true
  /\ is_space " " = true
  /\ isdir sample_projects (String "/" "srv/app") = true
  /\ strip " run the tests" <> ""
  /\ resolve_project_and_prompt sample_projects "  /srv/app  run the tests "
     = ("/srv/app", "run the tests").
Proof.
  assert (H1 : strip "  /srv/app  run the tests "
               = String "/" "srv/app" +:+ String " " " run the tests")
    by reflexivity.
  assert (H2 : "srv/app" <> "") by discriminate.
  assert (H3 : all_chars is_nonspace "srv/app" = true) by reflexivity.
  assert (H4 : is_space " " = true) by reflexivity.
  assert (H5 : isdir sample_projects (String "/" "srv/app") = true)
    by reflexivity.
  assert (H6 : strip " run the tests" <> "") by (vm_compute; discriminate).
  refine (conj H1 (conj H2 (conj H3 (conj H4 (conj H5 (conj H6 _)))))).
  exact (existing_path_selects_project sample_projects _ _ _ _
           H1 H2 H3 H4 H5 H6).
Defined.

End ResolveFacts.

(** ** The .env file *)

Module EnvFacts.
Import Str StrFacts Verdicts Env.

Lemma partition_eq_first (k v : string) :
  has_char "=" k = false -> partition_eq (k +:+ String "=" v) = (k, v).
Proof.
  induction k as [|c k IH]; intros H; [reflexivity|].
  simpl in H. apply orb_false_iff in H as [Hc Hk].
  rewrite append_cons. simpl. rewrite Hc, (IH Hk). reflexivity.
Qed.

Lemma partition_eq_key (line : string) :
  has_char "=" (fst (partition_eq line)) = false.
Proof.
  induction line as [|c r IH]; [reflexivity|]. simpl.
  destruct (Ascii.eqb c "=") eqn:E; [reflexivity|].
  destruct (partition_eq r) as [k v]. simpl in *. now rewrite E.
Qed.

Lemma has_char_strip (c : ascii) (s : string) :
  has_char c s = false -> has_char c (strip s) = false.
Proof.
  intros H. unfold strip.
  destruct (SplitFacts.rstrip_prefix s) as [post Hs]. rewrite Hs in H.
  rewrite SplitFacts.has_char_app in H. apply orb_false_iff in H as [H _].
  destruct (SplitFacts.lstrip_suffix (rstrip s)) as [pre Hr]. rewrite Hr in H.
  rewrite SplitFacts.has_char_app in H. now apply orb_false_iff in H as [_ H].
Qed.

Lemma load_env_snoc (lines : list string) (line : string) :
  load_env (Some (lines ++ [line]))
  = load_line (load_env (Some lines)) line.
Proof. unfold load_env. now rewrite fold_left_app. Qed.

Lemma has_char_assignment (k v : string) :
  has_char "=" (k +:+ String "=" v) = true.
Proof.
  rewrite SplitFacts.has_char_app. simpl. apply orb_true_r.
Qed.

(** X23. A line of the .env file either assigns or is ignored.  A line
    that, stripped, is [key=value] and not a comment sets the stripped
    key to the stripped value, replacing what earlier lines gave it: the
    last assignment wins, and only the first [=] separates.  A blank
    line, a comment and a line without [=] change nothing. *)
Theorem load_env_line (lines : list string) (line : string) :
  (forall k v,
      strip line = k +:+ String "=" v ->
      has_char "=" k = false ->
      startswith (strip line) "#" = false ->
      load_env (Some (lines ++ [line]))
      = <[strip k := strip v]> (load_env (Some lines)))
  /\ (ignored line ->
      load_env (Some (lines ++ [line])) = load_env (Some lines)).
Proof.
  rewrite load_env_snoc. unfold load_line. cbv zeta. split.
  - intros k v Hline Hk Hc. rewrite Hc.
    assert (Ht : truthy (strip line) = true).
    { apply truthy_true. rewrite Hline. destruct k; discriminate. }
    rewrite Ht. simpl. rewrite Hline, has_char_assignment.
    now rewrite (partition_eq_first k v Hk).
  - intros [Hb | [Hc | He]].
    + rewrite Hb. reflexivity.
    + rewrite Hc. now rewrite orb_true_r.
    + rewrite He. now destruct (negb _ || _).
Qed.

Lemma load_line_stripped (env : gmap string string) (line : string) :
  (forall k v, env !! k = Some v ->
               strip k = k /\ strip v = v /\ has_char "=" k = false) ->
  forall k v, load_line env line !! k = Some v ->
              strip k = k /\ strip v = v /\ has_char "=" k = false.
Proof.
  intros Henv k v. unfold load_line. cbv zeta.
  destruct (negb (truthy (strip line)) || startswith (strip line) "#");
    [apply Henv|].
  destruct (has_char "=" (strip line)); [|apply Henv].
  pose proof (partition_eq_key (strip line)) as Hkey.
  destruct (partition_eq (strip line)) as [key value]. simpl in Hkey.
  rewrite lookup_insert_Some. intros [[<- <-] | [_ H]]; [|now apply Henv].
  split; [apply strip_idem|]. split; [apply strip_idem|].
  now apply has_char_strip.
Qed.

(** X24. Whatever the file holds, every key [load_env] returns has no
    whitespace around it and no [=] in it, and every value has no
    whitespace around it; a missing file gives no key at all. *)
Theorem load_env_keys_stripped (file : option (list string)) (k v : string) :
  load_env file !! k = Some v ->
  (exists lines, file = Some lines)
  /\ strip k = k /\ strip v = v /\ has_char "=" k = false.
Proof.
  destruct file as [lines|];
    [|intros H; unfold load_env in H; now rewrite lookup_empty in H].
  intros H. split; [now exists lines|].
  revert k v H. induction lines as [|line lines IH] using rev_ind.
  - intros k v H. unfold load_env in H. simpl in H.
    now rewrite lookup_empty in H.
  - intros k v H. rewrite load_env_snoc in H.
    exact (load_line_stripped _ line IH k v H).
Qed.

Lemma load_env_keys_stripped_witness :
  load_env (Some sample_env) !! "DAEMON_POLL_INTERVAL" = Some "5"
  /\ strip "DAEMON_POLL_INTERVAL" = "DAEMON_POLL_INTERVAL".
Proof.
  assert (H : load_env (Some sample_env) !! "DAEMON_POLL_INTERVAL" = Some "5")
    by (vm_compute; reflexivity).
  refine (conj H _).
  exact (proj1 (proj2 (load_env_keys_stripped _ _ _ H))).
Defined.

Example load_env_sample :
  load_env (Some sample_env) !! "SLACK_BOT_TOKEN" = Some "xoxb-1"
  /\ load_env (Some sample_env) !! "NOTE" = Some "a=b"
  /\ load_env (Some sample_env) !! "# DAEMON_POLL_INTERVAL" = None
  /\ load_env None !! "SLACK_BOT_TOKEN" = None.
Proof. repeat split; vm_compute; reflexivity. Qed.

End EnvFacts.

(** ** One polling cycle *)

Module PollCycleFacts.
Import Str StrFacts PollCycle.

(** What one step of the first loop does to [seen_messages] and to the
    threads started. *)
Lemma top_step_effect (bot : string) (st : top_state) (msg : channel_message) :
  let st' := top_step bot st msg in
  let t := get (ts msg) "" in
  (forall x, x ∈ seen_messages st' <-> x = t \/ x ∈ seen_messages st)
  /\ (started st' = started st
      \/ exists s,
           started st' = started st ++ [s]
           /\ start_thread s = t /\ (t ∉ seen_messages st)
           /\ start_text s <> "" /\ start_user s <> bot
           /\ start_is_reply s = false).
Proof.
  cbv zeta. unfold top_step. cbv zeta.
  destruct (decide ((get (ts msg) "") ∈ seen_messages st)) as [Hin|Hout].
  { simpl. split; [|now left]. intros x. split; [auto|].
    intros [->|H]; assumption. }
  assert (Hseen : forall x,
             x ∈ {[get (ts msg) ""]} ∪ seen_messages st
             <-> x = get (ts msg) "" \/ x ∈ seen_messages st)
    by (intros x; set_solver).
  destruct (String.eqb (get (user msg) "") bot) eqn:Eu;
    [simpl; split; [exact Hseen | now left]|].
  destruct (truthy_field (subtype msg));
    [simpl; split; [exact Hseen | now left]|].
  destruct (truthy (strip (get (text msg) "")));
    [|simpl; split; [exact Hseen | now left]].
  simpl negb. cbv iota.
  destruct (truthy_field (thread_ts msg));
    [simpl; split; [exact Hseen | now left]|].
  destruct (truthy (strip_mentions (strip (get (text msg) "")))) eqn:Et;
    [|simpl; split; [exact Hseen | now left]].
  simpl. split; [exact Hseen|]. right. eexists. split; [reflexivity|].
  simpl. repeat split; auto.
  - now apply truthy_true.
  - now apply String.eqb_neq.
Qed.

Lemma top_step_invariant (bot : string) (seen0 : gset string) (st : top_state)
  (msg : channel_message) :
  top_invariant bot seen0 st -> top_invariant bot seen0 (top_step bot st msg).
Proof.
  intros (Hnd & Hall & Hsub).
  destruct (top_step_effect bot st msg) as [Hseen [Hsame | (s & Hs & Ht & Hfresh & Htext & Huser & Hreply)]].
  - unfold top_invariant. rewrite Hsame. split; [exact Hnd|]. split.
    + intros s Hs. destruct (Hall s Hs) as (H1 & H2 & H3).
      split; [exact H1|]. split; [|exact H3]. apply Hseen. now right.
    + intros x Hx. apply Hseen. right. now apply Hsub.
  - unfold top_invariant. rewrite Hs. split; [|split].
    + rewrite map_app. simpl. apply NoDup_app. split; [exact Hnd|]. split.
      * intros x Hx Hx'. apply list_elem_of_singleton in Hx'. subst x.
        apply list_elem_of_In, in_map_iff in Hx as (s' & Heq & Hin).
        destruct (Hall s' Hin) as (_ & H2 & _).
        apply Hfresh. rewrite <- Ht, <- Heq. exact H2.
      * apply NoDup_singleton.
    + intros s' Hin. apply in_app_or in Hin as [Hin | [<- | []]].
      * destruct (Hall s' Hin) as (H1 & H2 & H3).
        split; [exact H1|]. split; [|exact H3]. apply Hseen. now right.
      * split; [|split; [|auto]].
        -- intros X. apply Hfresh. rewrite <- Ht. now apply Hsub.
        -- apply Hseen. left. exact Ht.
    + intros x Hx. apply Hseen. right. now apply Hsub.
Qed.

Lemma fold_top_invariant (bot : string) (seen0 : gset string)
  (msgs : list channel_message) (st : top_state) :
  top_invariant bot seen0 st ->
  top_invariant bot seen0 (fold_left (top_step bot) msgs st).
Proof.
  revert st. induction msgs as [|m msgs IH]; intros st H; [exact H|].
  simpl. apply IH. now apply top_step_invariant.
Qed.

(** Every message scanned is in [seen_messages] afterwards. *)
Lemma fold_top_seen (bot : string) (msgs : list channel_message)
  (st : top_state) :
  let st' := fold_left (top_step bot) msgs st in
  seen_messages st ⊆ seen_messages st'
  /\ forall m, In m msgs -> (get (ts m) "") ∈ seen_messages st'.
Proof.
  cbv zeta. revert st. induction msgs as [|m msgs IH]; intros st.
  - split; [set_solver | intros m []].
  - simpl. destruct (IH (top_step bot st m)) as [Hsub Hall].
    destruct (top_step_effect bot st m) as [Hseen _].
    split.
    + intros x Hx. apply Hsub, Hseen. now right.
    + intros m' [<- | Hin]; [|now apply Hall].
      apply Hsub, Hseen. now left.
Qed.

(** Messages that are all seen start nothing. *)
Lemma fold_top_all_seen (bot : string) (msgs : list channel_message)
  (st : top_state) :
  (forall m, In m msgs -> (get (ts m) "") ∈ seen_messages st) ->
  started (fold_left (top_step bot) msgs st) = started st.
Proof.
  revert st. induction msgs as [|m msgs IH]; intros st Hall; [reflexivity|].
  simpl.
  assert (Hm : (get (ts m) "") ∈ seen_messages st) by (apply Hall; now left).
  assert (Hstep : started (top_step bot st m) = started st
                  /\ seen_messages (top_step bot st m) = seen_messages st).
  { unfold top_step. cbv zeta.
    destruct (decide ((get (ts m) "") ∈ seen_messages st)); [|contradiction].
    split; reflexivity. }
  destruct Hstep as [Hs Hseen]. rewrite IH, Hs; [reflexivity|].
  intros m' Hin. rewrite Hseen. apply Hall. now right.
Qed.

(** X25. The first loop of a polling cycle starts at most one handler
    per message timestamp: the threads it starts are pairwise distinct,
    none was in [seen_messages] before and all are in it afterwards;
    every handler is for a non-empty text of a user other than the bot
    and is not a reply.  The same messages scanned again, with the set
    the cycle left, start nothing. *)
Theorem scan_top_starts_each_message_once
  (bot : string) (msgs : list channel_message) (seen : gset string) :
  let r := scan_top bot msgs seen in
  NoDup (map start_thread (started r))
  /\ (forall s, In s (started r) ->
                (start_thread s ∉ seen) /\ (start_thread s ∈ seen_messages r)
                /\ start_text s <> "" /\ start_user s <> bot
                /\ start_is_reply s = false)
  /\ seen ⊆ seen_messages r
  /\ started (scan_top bot msgs (seen_messages r)) = [].
Proof.
  cbv zeta. unfold scan_top.
  assert (Hinit : top_invariant bot seen
                    {| started := []; seen_messages := seen;
                       newest_ts := None |}).
  { split; [constructor|]. split; [intros s []|]. simpl. set_solver. }
  destruct (fold_top_invariant bot seen msgs _ Hinit) as (Hnd & Hall & Hsub).
  split; [exact Hnd|]. split; [exact Hall|]. split; [exact Hsub|].
  rewrite fold_top_all_seen; [reflexivity|].
  intros m Hin. simpl.
  now apply (fold_top_seen bot msgs
               {| started := []; seen_messages := seen; newest_ts := None |}).
Qed.

Example scan_top_sample :
  map start_thread (started (scan_top "UBOT1" sample_history ∅))
  = ["1700000002.000100"]
  /\ map start_text (started (scan_top "UBOT1" sample_history ∅))
     = ["calabrio: list objects"].
Proof. split; vm_compute; reflexivity. Qed.

(** *** The replies in the threads with a session *)

Lemma reply_step_effect (bot thread : string) (st : reply_state)
  (msg : channel_message) :
  let st' := reply_step bot thread st msg in
  let t := get (ts msg) "" in
  (forall x, x ∈ seen_thread_messages st'
             <-> x = t \/ x ∈ seen_thread_messages st)
  /\ (reply_started st' = reply_started st
      \/ exists s,
           reply_started st' = reply_started st ++ [s]
           /\ start_thread s = thread /\ start_is_reply s = true
           /\ start_text s <> "" /\ start_user s <> bot).
Proof.
  cbv zeta. unfold reply_step. cbv zeta.
  destruct (decide ((get (ts msg) "") ∈ seen_thread_messages st)) as [Hin|Hout].
  { split; [|now left]. intros x. split; [auto|].
    intros [->|H]; assumption. }
  assert (Hseen : forall x,
             x ∈ {[get (ts msg) ""]} ∪ seen_thread_messages st
             <-> x = get (ts msg) "" \/ x ∈ seen_thread_messages st)
    by (intros x; set_solver).
  destruct (String.eqb (get (user msg) "") bot) eqn:Eu;
    [simpl; split; [exact Hseen | now left]|].
  destruct (truthy_field (subtype msg));
    [simpl; split; [exact Hseen | now left]|].
  destruct (truthy (strip (get (text msg) "")));
    [|simpl; split; [exact Hseen | now left]].
  simpl negb. cbv iota.
  destruct (contains LOCK_MARK (strip (get (text msg) "")));
    [simpl; split; [exact Hseen | now left]|].
  destruct (truthy (strip_mentions (strip (get (text msg) "")))) eqn:Et;
    [|simpl; split; [exact Hseen | now left]].
  simpl. split; [exact Hseen|]. right. eexists. split; [reflexivity|].
  simpl. repeat split; auto.
  - now apply truthy_true.
  - now apply String.eqb_neq.
Qed.

(** A loop over the replies of one thread keeps what holds of the
    handlers started, records every reply it scans and forgets none. *)
Lemma fold_reply_effect (bot thread : string) (P : start -> Prop)
  (msgs : list channel_message) (st : reply_state) :
  (forall s, start_thread s = thread -> start_is_reply s = true ->
             start_text s <> "" -> start_user s <> bot -> P s) ->
  Forall P (reply_started st) ->
  let st' := fold_left (reply_step bot thread) msgs st in
  Forall P (reply_started st')
  /\ seen_thread_messages st ⊆ seen_thread_messages st'
  /\ forall m, In m msgs -> (get (ts m) "") ∈ seen_thread_messages st'.
Proof.
  intros HP. cbv zeta. revert st.
  induction msgs as [|m msgs IH]; intros st Hall.
  - split; [exact Hall|]. split; [set_solver | intros m []].
  - simpl.
    destruct (reply_step_effect bot thread st m)
      as [Hseen [Hsame | (s & Hs & Ht & Hr & Htext & Huser)]].
    + destruct (IH (reply_step bot thread st m)) as (H1 & H2 & H3);
        [now rewrite Hsame|].
      split; [exact H1|]. split.
      * intros x Hx. apply H2, Hseen. now right.
      * intros m' [<- | Hin]; [apply H2, Hseen; now left | now apply H3].
    + destruct (IH (reply_step bot thread st m)) as (H1 & H2 & H3).
      { rewrite Hs. apply Forall_app. split; [exact Hall|].
        constructor; [|constructor]. now apply HP. }
      split; [exact H1|]. split.
      * intros x Hx. apply H2, Hseen. now right.
      * intros m' [<- | Hin]; [apply H2, Hseen; now left | now apply H3].
Qed.

Lemma fold_reply_all_seen (bot thread : string) (msgs : list channel_message)
  (st : reply_state) :
  (forall m, In m msgs -> (get (ts m) "") ∈ seen_thread_messages st) ->
  fold_left (reply_step bot thread) msgs st = st.
Proof.
  induction msgs as [|m msgs IH]; intros Hall; [reflexivity|].
  simpl.
  assert (Hstep : reply_step bot thread st m = st).
  { unfold reply_step. cbv zeta.
    destruct (decide ((get (ts m) "") ∈ seen_thread_messages st)) as [|Hn];
      [reflexivity|].
    exfalso. apply Hn, Hall. now left. }
  rewrite Hstep. apply IH. intros m' Hin. apply Hall. now right.
Qed.

Lemma fold_thread_effect (bot : string)
  (replies_of : string -> option (list channel_message))
  (all_threads threads : list string) (st : reply_state) :
  (forall t, In t threads -> In t all_threads) ->
  let P := fun s => In (start_thread s) all_threads
                    /\ start_is_reply s = true
                    /\ start_text s <> "" /\ start_user s <> bot in
  Forall P (reply_started st) ->
  let st' := fold_left (thread_step bot replies_of) threads st in
  Forall P (reply_started st')
  /\ seen_thread_messages st ⊆ seen_thread_messages st'
  /\ forall t msgs m,
       In t threads -> replies_of t = Some msgs -> In m (tl msgs) ->
       (get (ts m) "") ∈ seen_thread_messages st'.
Proof.
  cbv zeta. revert st.
  induction threads as [|t threads IH]; intros st Hsub Hall.
  - split; [exact Hall|]. split; [set_solver | intros t msgs m []].
  - simpl.
    assert (Hstep :
              Forall (fun s => In (start_thread s) all_threads
                               /\ start_is_reply s = true
                               /\ start_text s <> "" /\ start_user s <> bot)
                (reply_started (thread_step bot replies_of st t))
              /\ seen_thread_messages st
                 ⊆ seen_thread_messages (thread_step bot replies_of st t)
              /\ forall msgs m,
                   replies_of t = Some msgs -> In m (tl msgs) ->
                   (get (ts m) "")
                   ∈ seen_thread_messages (thread_step bot replies_of st t)).
    { unfold thread_step. destruct (replies_of t) as [msgs|].
      - destruct (fold_reply_effect bot t
                    (fun s => In (start_thread s) all_threads
                              /\ start_is_reply s = true
                              /\ start_text s <> "" /\ start_user s <> bot)
                    (tl msgs) st) as (H1 & H2 & H3).
        + intros s Ht Hr Htext Huser. rewrite Ht.
          split; [apply Hsub; now left | auto].
        + exact Hall.
        + split; [exact H1|]. split; [exact H2|].
          intros msgs' m [= <-] Hin. now apply H3.
      - split; [exact Hall|]. split; [set_solver|]. intros msgs m [=]. }
    destruct Hstep as (S1 & S2 & S3).
    destruct (IH (thread_step bot replies_of st t)) as (H1 & H2 & H3).
    { intros t' Hin. apply Hsub. now right. }
    { exact S1. }
    split; [exact H1|]. split; [intros x Hx; now apply H2, S2|].
    intros t' msgs m [<- | Hin] Hr Hm.
    + apply H2. now apply (S3 msgs).
    + now apply (H3 t' msgs).
Qed.

Lemma fold_thread_all_seen (bot : string)
  (replies_of : string -> option (list channel_message))
  (threads : list string) (st : reply_state) :
  (forall t msgs m,
      In t threads -> replies_of t = Some msgs -> In m (tl msgs) ->
      (get (ts m) "") ∈ seen_thread_messages st) ->
  fold_left (thread_step bot replies_of) threads st = st.
Proof.
  induction threads as [|t threads IH]; intros Hall; [reflexivity|].
  simpl.
  assert (Hstep : thread_step bot replies_of st t = st).
  { unfold thread_step. destruct (replies_of t) as [msgs|] eqn:E;
      [|reflexivity].
    apply fold_reply_all_seen. intros m Hin.
    apply (Hall t msgs m); auto. now left. }
  rewrite Hstep. apply IH. intros t' msgs m Hin. apply Hall. now right.
Qed.

(** X26. The second loop of a polling cycle starts handlers only for
    replies in the threads it was given, each for a non-empty text of a
    user other than the bot and marked as a reply; it forgets no
    timestamp it had seen; and the same answers scanned again, with the
    set the cycle left, start nothing: a reply is handed to a handler at
    most once, whether that handler ran or was dropped. *)
Theorem scan_threads_starts_each_reply_once
  (bot : string) (replies_of : string -> option (list channel_message))
  (active_threads : list string) (seen : gset string) :
  let r := scan_threads bot replies_of active_threads seen in
  (forall s, In s (reply_started r) ->
             In (start_thread s) active_threads
             /\ start_is_reply s = true
             /\ start_text s <> "" /\ start_user s <> bot)
  /\ seen ⊆ seen_thread_messages r
  /\ reply_started
       (scan_threads bot replies_of active_threads (seen_thread_messages r))
     = [].
Proof.
  cbv zeta. unfold scan_threads.
  destruct (fold_thread_effect bot replies_of active_threads active_threads
              {| reply_started := []; seen_thread_messages := seen |})
    as (H1 & H2 & H3); [auto | constructor |].
  split; [|split; [exact H2|]].
  - intros s Hin. rewrite List.Forall_forall in H1. now apply H1.
  - rewrite fold_thread_all_seen; [reflexivity|].
    intros t msgs m Hin Hr Hm. simpl. now apply (H3 t msgs).
Qed.

(** *** Mentions *)

Lemma strip_mentions_skip (n : nat) (s : string) :
  strip_mentions_from n s = strip_mentions_from 0 (drop n s).
Proof.
  revert n. induction s as [|c r IH]; intros [|k]; try reflexivity.
  simpl. apply IH.
Qed.

Lemma drop_app (a b : string) (n : nat) :
  drop (String.length a + n) (a +:+ b) = drop n b.
Proof.
  induction a as [|c a IH]; [reflexivity|].
  rewrite append_cons. simpl. exact IH.
Qed.

Lemma span_all (test : ascii -> bool) (s : string) :
  Resolve.all_chars test (fst (Resolve.span test s)) = true.
Proof.
  induction s as [|c s IH]; [reflexivity|]. simpl.
  destruct (test c) eqn:E; [|reflexivity].
  destruct (Resolve.span test s). simpl in *. now rewrite E, IH.
Qed.

Lemma mention_length_other (c : ascii) (r : string) :
  Ascii.eqb c "<" = false -> mention_length (String c r) = None.
Proof. intros H. unfold mention_length. destruct r; [reflexivity|]. now rewrite H. Qed.

Lemma space_not_angle (c : ascii) : is_space c = true -> Ascii.eqb c "<" = false.
Proof.
  intros H. destruct (Ascii.eqb c "<") eqn:E; [|reflexivity].
  apply Ascii.eqb_eq in E. subst c. discriminate.
Qed.

Lemma strip_mentions_spaces (ws r : string) :
  Resolve.all_chars is_space ws = true ->
  strip_mentions_from 0 (ws +:+ r) = ws +:+ strip_mentions_from 0 r.
Proof.
  induction ws as [|c ws IH]; intros H; [reflexivity|].
  simpl in H. apply andb_true_iff in H as [Hc Hws].
  rewrite !append_cons.
  change (strip_mentions_from 0 (String c (ws +:+ r)))
    with (match mention_length (String c (ws +:+ r)) with
          | Some n => strip_mentions_from (n - 1) (ws +:+ r)
          | None => String c (strip_mentions_from 0 (ws +:+ r))
          end).
  now rewrite (mention_length_other c _ (space_not_angle c Hc)), (IH Hws).
Qed.

Lemma lstrip_spaces (ws x : string) :
  Resolve.all_chars is_space ws = true -> lstrip (ws +:+ x) = lstrip x.
Proof.
  induction ws as [|c ws IH]; intros H; [reflexivity|].
  simpl in H. apply andb_true_iff in H as [Hc Hws].
  rewrite append_cons. simpl. now rewrite Hc, (IH Hws).
Qed.

Lemma strip_spaces (ws x : string) :
  Resolve.all_chars is_space ws = true -> strip (ws +:+ x) = strip x.
Proof.
  intros H. unfold strip. rewrite <- !rstrip_lstrip.
  now rewrite (lstrip_spaces ws x H).
Qed.

(** X27. The text handed to a handler has the bot mentions removed: a
    mention [<@ID>] at the head, with an identifier of capital letters
    and digits, goes together with the whitespace after it, and a text
    without [<] only loses the whitespace around it. *)
Theorem strip_mentions_removes_mention (id rest : string) :
  (id <> "" ->
   Resolve.all_chars is_id id = true ->
   strip_mentions (String "<" (String "@" (id +:+ String ">" rest)))
   = strip_mentions rest)
  /\ (Verdicts.has_char "<" rest = false -> strip_mentions rest = strip rest).
Proof.
  split.
  - intros Hid Hall. unfold strip_mentions.
    pose proof (ResolveFacts.span_concat is_space rest) as Hrest.
    pose proof (ResolveFacts.span_space_rest rest) as Hl.
    pose proof (span_all is_space rest) as Hws.
    set (ws := fst (Resolve.span is_space rest)) in *.
    rewrite Hl in Hrest.
    change (strip_mentions_from 0
              (String "<" (String "@" (id +:+ String ">" rest))))
      with (match mention_length
                    (String "<" (String "@" (id +:+ String ">" rest))) with
            | Some n => strip_mentions_from (n - 1)
                          (String "@" (id +:+ String ">" rest))
            | None => String "<" (strip_mentions_from 0
                                    (String "@" (id +:+ String ">" rest)))
            end).
    assert (Hlen : mention_length
                     (String "<" (String "@" (id +:+ String ">" rest)))
                   = Some (2 + String.length id + 1 + String.length ws)).
    { unfold mention_length. simpl andb. cbv iota.
      rewrite (ResolveFacts.span_run is_id id ">" rest Hall eq_refl).
      apply truthy_true in Hid. rewrite Hid. reflexivity. }
    rewrite Hlen, strip_mentions_skip.
    replace (2 + String.length id + 1 + String.length ws - 1)
      with (S (String.length id + (1 + String.length ws))) by lia.
    change (drop (S (String.length id + (1 + String.length ws)))
              (String "@" (id +:+ String ">" rest)))
      with (drop (String.length id + (1 + String.length ws))
              (id +:+ String ">" rest)).
    rewrite drop_app.
    change (drop (1 + String.length ws) (String ">" rest))
      with (drop (String.length ws) rest).
    rewrite Hrest at 1.
    replace (String.length ws) with (String.length ws + 0) by lia.
    rewrite drop_app. simpl drop.
    rewrite Hrest at 2.
    now rewrite (strip_mentions_spaces ws _ Hws), (strip_spaces ws _ Hws).
  - intros H. unfold strip_mentions. f_equal.
    induction rest as [|c r IH]; [reflexivity|].
    simpl in H. apply orb_false_iff in H as [Hc Hr].
    change (strip_mentions_from 0 (String c r))
      with (match mention_length (String c r) with
            | Some n => strip_mentions_from (n - 1) r
            | None => String c (strip_mentions_from 0 r)
            end).
    now rewrite (mention_length_other c r Hc), (IH Hr).
Qed.

Lemma strip_mentions_removes_mention_witness :
  "UBOT1" <> ""
  /\ Resolve.all_chars is_id "UBOT1" = true
  /\ strip_mentions (String "<" (String "@" ("UBOT1" +:+ String ">" "  run it")))
     = strip_mentions "  run it".
Proof.
  assert (H1 : "UBOT1" <> "") by discriminate.
  assert (H2 : Resolve.all_chars is_id "UBOT1" = true) by reflexivity.
  refine (conj H1 (conj H2 _)).
  exact (proj1 (strip_mentions_removes_mention "UBOT1" "  run it") H1 H2).
Defined.

End PollCycleFacts.

(** ** Requests that fail in transport *)

Module TransportFacts.
Import Str StrFacts Approval Transport.

Lemma slack_get_settled {A} (not_ok : A) (got : fetched A) :
  got <> Garbled -> slack_get not_ok got = Some (settled not_ok got).
Proof. destruct got; intros H; try reflexivity. now contradiction H. Qed.

Lemma slack_post_settled {A} (not_ok : A) (got : fetched A) :
  got <> Garbled -> slack_post not_ok got = Some (settled not_ok got).
Proof. destruct got; intros H; try reflexivity. now contradiction H. Qed.

Lemma resolve_settled (rw : raw_world) (ts updated : string) (d : decision)
  (reason : string) (st : hook_state) :
  update_got rw <> Garbled ->
  resolve rw ts updated d reason st
  = Exited (match d with
            | Allow => Allowed reason
            | Deny => Denied reason
            end)
      (print_and_exit d reason (clear_pending (update_message ts updated st))).
Proof.
  intros H. unfold resolve. cbv zeta.
  now rewrite (slack_post_settled tt _ H).
Qed.

Lemma poll_settled (rw : raw_world) (ts message_text : string) :
  ~ garbled rw ->
  forall (fuel i : nat) (elapsed : Q) (st : hook_state),
    poll fuel rw ts message_text (bot_user (answers rw)) i elapsed st
    = option_map exited
        (poll_loop fuel (answers rw) ts message_text i elapsed st).
Proof.
  intros Hclean.
  assert (Hu : update_got rw <> Garbled)
    by (intros X; apply Hclean; right; right; now left).
  assert (Hr : forall i, reactions_got rw i <> Garbled)
    by (intros i X; apply Hclean; right; right; right; exists i; now left).
  assert (Hp : forall i, replies_got rw i <> Garbled)
    by (intros i X; apply Hclean; right; right; right; exists i; now right).
  induction fuel as [|fuel IH]; intros i elapsed st; [reflexivity|].
  cbn [poll poll_loop]. destruct (Qltb elapsed TIMEOUT).
  - cbv zeta.
    rewrite (slack_get_settled not_ok_reactions _ (Hr i)),
      (slack_get_settled not_ok_replies _ (Hp i)).
    change (reactions_at (answers rw) i)
      with (settled not_ok_reactions (reactions_got rw i)).
    change (replies_at (answers rw) i)
      with (settled not_ok_replies (replies_got rw i)).
    destruct (check_reactions _) as [[|]|];
      try (now rewrite (resolve_settled _ _ _ _ _ _ Hu)).
    destruct (check_thread_replies _ _) as [[[|]|] reply_text];
      try (now rewrite (resolve_settled _ _ _ _ _ _ Hu)).
    apply IH.
  - cbv zeta. now rewrite (slack_post_settled tt _ Hu).
Qed.

Section WithEngine.
Context {engine : RegexEngine}.

(** X28. A request that fails in transport never stops the hook and is
    read as an answer that is not ok.  When no answer of Slack has a
    body that is not JSON, the run is the run on the answers themselves,
    a failed request standing for [{"ok": False}]: it exits as the
    session on those answers does, with the same log and the same
    pending file. *)
Theorem transport_failure_is_not_ok
  (fuel : nat) (tool_name : string) (command : option string)
  (f : Classifier.rules_file) (rw : raw_world) (thread_ts : option string)
  (message_text : string) (st : hook_state) :
  ~ garbled rw ->
  Transport.main fuel tool_name command f rw thread_ts message_text st
  = option_map exited
      (Approval.main fuel tool_name command f (answers rw) thread_ts
         message_text st).
Proof.
  intros Hclean.
  assert (Hpost : post_got rw <> Garbled)
    by (intros X; apply Hclean; now left).
  assert (Hauth : auth_got rw <> Garbled)
    by (intros X; apply Hclean; right; now left).
  assert (Hsession :
            session fuel rw thread_ts message_text st
            = option_map exited
                (approval_session fuel (answers rw) thread_ts message_text st)).
  { unfold session, approval_session. cbv zeta.
    rewrite (slack_post_settled None _ Hpost),
      (slack_post_settled None _ Hauth).
    change (post_result (answers rw)) with (settled None (post_got rw)).
    change (lag (answers rw) 0) with (pause rw 0).
    destruct (settled None (post_got rw)) as [ts|]; [|reflexivity].
    cbn [get]. destruct (truthy ts); [|reflexivity]. simpl negb. cbv iota.
    apply (poll_settled rw ts message_text Hclean). }
  unfold Transport.main, Approval.main. cbv zeta. rewrite Hsession.
  destruct (String.eqb tool_name "Bash" && truthy (get command ""));
    [|reflexivity].
  destruct (Classifier.classify_command f (get command "")); reflexivity.
Qed.

End WithEngine.

Lemma transport_failure_is_not_ok_witness :
  ~ garbled TransportSamples.outage
  /\ Transport.main (engine := literal_engine) 151 "Bash"
       (Some "git push origin") Samples.sample_file TransportSamples.outage
       None ApprovalSamples.request_text ApprovalSamples.fresh_state
     = option_map exited
         (Approval.main (engine := literal_engine) 151 "Bash"
            (Some "git push origin") Samples.sample_file
            (answers TransportSamples.outage) None
            ApprovalSamples.request_text ApprovalSamples.fresh_state).
Proof.
  assert (H : ~ garbled TransportSamples.outage).
  { intros [X|[X|[X|[i [X|X]]]]]; discriminate. }
  refine (conj H _).
  exact (transport_failure_is_not_ok (engine := literal_engine) 151 "Bash"
           (Some "git push origin") Samples.sample_file TransportSamples.outage
           None ApprovalSamples.request_text ApprovalSamples.fresh_state H).
Defined.

End TransportFacts.

